(** * Quota-driven search campaign of MicrosoftRewardsPilot

    A shallow embedding of the [Search] worker (class [Search], methods
    [calculatePoints], [handleSearchFailure], [handleSearchSuccess],
    [getSmartSearchDelay], [getEmptySearchCounters], [bingSearch] and
    [doSearch]) together with the properties its design document states
    about it.

    Conventions.
    - JavaScript numbers that hold point counts and millisecond stamps are
      integers and are modelled by [Z]; the two delay multipliers are
      decimal fractions and are modelled by exact rationals [Q].
    - Everything outside the class (browser driver, progress endpoint,
      random source, trend sources) is an oracle of the environment [Env];
      the mutable fields of the object and the clock live in [State].
    - [this.bot.log] only writes to the console and is left out, except
      where a log line marks an event the properties talk about. *)

From Stdlib Require Import ZArith QArith Qround Qminmax List String Bool Lia
  Lqa Permutation Arith DecimalString.
Import ListNotations.

Local Open Scope Z_scope.

(** ** Progress counters *)

(** One entry of a counter array ([pointProgress] / [pointProgressMax]). *)
Record DashboardImpression : Type := mkImpression {
  pointProgress : Z;
  pointProgressMax : Z
}.

(** [Counters] as built by [getEmptySearchCounters]; every array is read
    through optional chaining ([counters.pcSearch?.[0]]), hence [option]. *)
Record Counters : Type := mkCounters {
  pcSearch : option (list DashboardImpression);
  mobileSearch : option (list DashboardImpression);
  shopAndEarn : option (list DashboardImpression);
  activityAndQuiz : option (list DashboardImpression);
  dailyPoint : option (list DashboardImpression)
}.

(** [arr?.[i]] *)
Definition optIndex {A : Type} (arr : option (list A)) (i : nat) : option A :=
  match arr with
  | Some l => nth_error l i
  | None => None
  end.

(** The object literal returned by the [catch] of [getEmptySearchCounters]. *)
Definition emptyCounters : Counters :=
  mkCounters (Some []) (Some []) (Some []) (Some []) (Some []).

Definition allArraysEmpty (c : Counters) : Prop :=
  pcSearch c = Some [] /\ mobileSearch c = Some [] /\ shopAndEarn c = Some []
  /\ activityAndQuiz c = Some [] /\ dailyPoint c = Some [].

(** [data ? data.pointProgressMax - data.pointProgress : 0] *)
Definition missingOf (data : option DashboardImpression) : Z :=
  match data with
  | Some d => pointProgressMax d - pointProgress d
  | None => 0
  end.

(** [Search.calculatePoints]; [isMobile] is [this.bot.isMobile]. *)
Definition calculatePoints (isMobile : bool) (counters : Counters) : Z :=
  let mobileData := optIndex (mobileSearch counters) 0 in
  let genericData := optIndex (pcSearch counters) 0 in
  let edgeData := optIndex (pcSearch counters) 1 in
  match isMobile, mobileData with
  | true, Some m => pointProgressMax m - pointProgress m
  | _, _ =>
      let genericMissing := missingOf genericData in
      let edgeMissing := missingOf edgeData in
      genericMissing + edgeMissing
  end.

(** The counters [calculatePoints] actually reads for a device class. *)
Definition countersRead (isMobile : bool) (counters : Counters)
  : list DashboardImpression :=
  let opt_list (o : option DashboardImpression) :=
    match o with Some d => [d] | None => [] end in
  match isMobile, optIndex (mobileSearch counters) 0 with
  | true, Some m => [m]
  | _, _ => opt_list (optIndex (pcSearch counters) 0)
            ++ opt_list (optIndex (pcSearch counters) 1)
  end.

Definition withinMax (d : DashboardImpression) : Prop :=
  pointProgress d <= pointProgressMax d.

(** Sum of [pointProgressMax - pointProgress] over a list of counters. *)
Definition totalMissing (ds : list DashboardImpression) : Z :=
  fold_right (fun d acc => (pointProgressMax d - pointProgress d) + acc) 0 ds.

(** A desktop pair with 60 points still to earn. *)
Definition desktopInProgress : Counters :=
  mkCounters (Some [mkImpression 30 90; mkImpression 12 12])
             (Some [mkImpression 0 60]) (Some []) (Some []) (Some []).

(** A mobile counter that reports more progress than its maximum. *)
Definition overshootCounters : Counters :=
  mkCounters (Some []) (Some [mkImpression 35 30]) (Some []) (Some []) (Some []).

(** A desktop pair whose Edge counter overshoots more than PC is missing. *)
Definition overshootDesktop : Counters :=
  mkCounters (Some [mkImpression 87 90; mkImpression 20 12])
             (Some []) (Some []) (Some []) (Some []).

(** ** Pacing controller *)

(** The two mutable fields [this.consecutiveFailures] and
    [this.adaptiveDelayMultiplier]. *)
Record Pacing : Type := mkPacing {
  consecutiveFailures : Z;
  adaptiveDelayMultiplier : Q
}.

(** Field initialisers of the class: [0] and [1.0]. *)
Definition initialPacing : Pacing := mkPacing 0 1%Q.

(** [Search.handleSearchFailure] *)
Definition handleSearchFailure (p : Pacing) : Pacing :=
  mkPacing (consecutiveFailures p + 1)
           (Qmin 2 (adaptiveDelayMultiplier p + (2 # 10)))%Q.

(** [Search.handleSearchSuccess] *)
Definition handleSearchSuccess (p : Pacing) : Pacing :=
  mkPacing 0
           (if Qlt_le_dec 1 (adaptiveDelayMultiplier p)
            then Qmax 1 (adaptiveDelayMultiplier p - (1 # 10))
            else adaptiveDelayMultiplier p)%Q.

(** States of the controller reachable from the initial one by recorded
    failures and successes. *)
Inductive pacingReachable : Pacing -> Prop :=
| reach_initial : pacingReachable initialPacing
| reach_failure p : pacingReachable p -> pacingReachable (handleSearchFailure p)
| reach_success p : pacingReachable p -> pacingReachable (handleSearchSuccess p).

Definition baseMin (isMobile : bool) : Z := if isMobile then 60000 else 45000.
Definition baseMax (isMobile : bool) : Z := if isMobile then 150000 else 120000.

(** [Math.min(1 + (this.consecutiveFailures * 0.5), 3)] *)
Definition failureMultiplier (p : Pacing) : Q :=
  (Qmin (1 + inject_Z (consecutiveFailures p) * (5 # 10)) 3)%Q.

(** [Search.getSmartSearchDelay]; [rnd] is the value of [Math.random()]. *)
Definition getSmartSearchDelay (isMobile : bool) (p : Pacing) (rnd : Q) : Q :=
  let adaptiveMultiplier := adaptiveDelayMultiplier p in
  let adjustedMin :=
    (inject_Z (baseMin isMobile) * failureMultiplier p * adaptiveMultiplier)%Q in
  let adjustedMax :=
    (inject_Z (baseMax isMobile) * failureMultiplier p * adaptiveMultiplier)%Q in
  (inject_Z (Qfloor (rnd * (adjustedMax - adjustedMin + 1))) + adjustedMin)%Q.

(** Replays a history of attempt outcomes ([true] = success). *)
Fixpoint pacingAfter (history : list bool) (p : Pacing) : Pacing :=
  match history with
  | [] => p
  | true :: rest => pacingAfter rest (handleSearchSuccess p)
  | false :: rest => pacingAfter rest (handleSearchFailure p)
  end.

(** ** Query planning *)

Local Open Scope string_scope.
Local Open Scope list_scope.
Local Open Scope Z_scope.

(** [GoogleSearch]: a trending topic with its related terms. *)
Record GoogleSearch : Type := mkGoogleSearch {
  topic : string;
  related : list string
}.

(** An element of [allSearchQueries : (GoogleSearch | string)[]].  A
    [GoogleSearch] is an object, so it carries its identity [ref]: two
    objects are the same element of a [Set] only when they are the same
    object, whatever their fields hold. *)
Inductive SearchItem : Type :=
| PlainQuery (text : string)
| TrendQuery (ref : nat) (search : GoogleSearch).

(** The comparison [Set] uses (SameValueZero): strings by content, objects
    by identity. *)
Definition sameValueZero (a b : SearchItem) : bool :=
  match a, b with
  | PlainQuery s, PlainQuery t => String.eqb s t
  | TrendQuery r _, TrendQuery r' _ => Nat.eqb r r'
  | _, _ => false
  end.

(** What [sameValueZero] compares: the text of a string, the identity of
    an object. *)
Definition itemKey (x : SearchItem) : string + nat :=
  match x with
  | PlainQuery s => inl s
  | TrendQuery r _ => inr r
  end.

(** [new Set(xs)] read back in insertion order: an element is added when
    the set built so far ([seen]) does not have it. *)
Fixpoint setFromArray (seen xs : list SearchItem) : list SearchItem :=
  match xs with
  | [] => []
  | x :: rest =>
      if existsb (sameValueZero x) seen then setFromArray seen rest
      else x :: setFromArray (x :: seen) rest
  end.

(** [Array.from(new Set(allSearchQueries))] *)
Definition dedupe (xs : list SearchItem) : list SearchItem :=
  setFromArray [] xs.

(** The body of [allSearchQueries.forEach(x => ...)] that fills [queries]. *)
Definition flattenItem (isMobile : bool) (x : SearchItem) : list string :=
  match x with
  | PlainQuery s => [s]
  | TrendQuery _ g => if isMobile then [topic g] else topic g :: related g
  end.

Definition flattenQueries (isMobile : bool) (xs : list SearchItem) : list string :=
  flat_map (flattenItem isMobile) xs.

(** Shuffle, de-duplicate, flatten: the query sequence of the main loop. *)
Definition planQueries (shuffleArray : list SearchItem -> list SearchItem)
    (isMobile : bool) (generated : list SearchItem) : list string :=
  flattenQueries isMobile (dedupe (shuffleArray generated)).

Definition plainTexts (xs : list SearchItem) : list string :=
  flat_map (fun x => match x with PlainQuery s => [s] | TrendQuery _ _ => [] end) xs.

Definition isPlain (x : SearchItem) : bool :=
  match x with PlainQuery _ => true | TrendQuery _ _ => false end.

(** A plan in which no two elements are the same [Set] element. *)
Definition pairwiseDistinct (xs : list SearchItem) : Prop :=
  ForallOrdPairs (fun a b => sameValueZero a b = false) xs.

(** Plain queries only, one of them generated twice and one differing
    only by case. *)
Definition plainPlan : list SearchItem :=
  [ PlainQuery "latest technology news"; PlainQuery "fitness tips";
    PlainQuery "latest technology news"; PlainQuery "Fitness Tips" ].

(** Two trending topics that share a related term. *)
Definition overlappingTrends : list SearchItem :=
  [ TrendQuery 0 (mkGoogleSearch "world cup" ["world cup schedule"]);
    TrendQuery 1 (mkGoogleSearch "football" ["world cup schedule"]) ].

(** A plain query that is also the topic of a trend object. *)
Definition plainAndTrend : list SearchItem :=
  [ PlainQuery "weather forecast today";
    TrendQuery 0 (mkGoogleSearch "weather forecast today" []) ].

(** ** Effects: state, exceptions and the environment *)

(** [s.includes(sub)] *)
Fixpoint includes (sub s : string) : bool :=
  String.prefix sub s ||
  match s with
  | EmptyString => false
  | String _ s' => includes sub s'
  end.

(** Where a call of [getSearchPoints] sits in the source. *)
Inductive FetchSite : Type :=
| SiteInitial | SiteAttempt | SiteEmptyCounters | SiteForceCheck
| SiteFinalVerify | SiteFinalCheck | SiteIncomplete.

(** What a run leaves behind, most recent first. *)
Inductive Event : Type :=
| EvSearch (query : string) (startedAt : Z)   (* bingSearch entered *)
| EvFetch (site : FetchSite)                  (* getSearchPoints called *)
| EvWait (ms : Z)                             (* this.bot.utils.wait(ms) *)
| EvTimeout                                   (* 'Search process timeout ...' *)
| EvComplete                                  (* 'SEARCH-COMPLETE' *)
| EvUserAgentRefresh                          (* 'SEARCH-UA-REFRESH' *)
| EvStallAbort.                               (* '... aborting searches' *)

(** The external calls whose answers the environment scripts, each counted
    separately. *)
Inductive Op : Type :=
| OpGetSearchPoints | OpTry | OpRandom | OpContext | OpRelated
| OpAdditional | OpUserAgent.

Definition Op_eqb (a b : Op) : bool :=
  match a, b with
  | OpGetSearchPoints, OpGetSearchPoints | OpTry, OpTry | OpRandom, OpRandom
  | OpContext, OpContext | OpRelated, OpRelated | OpAdditional, OpAdditional
  | OpUserAgent, OpUserAgent => true
  | _, _ => false
  end.

(** Mutable state: the clock behind [Date.now()], the pacing fields of the
    object, how often each external call was made, and the trace. *)
Record State : Type := mkState {
  now : Z;
  pacing : Pacing;
  calls : Op -> nat;
  trace : list Event
}.

Definition initialState : State := mkState 0 initialPacing (fun _ => O) [].

(** How one pass through the [try] block of [bingSearch] ends. *)
Record Failure : Type := mkFailure {
  errorMessage : string;   (* String(error) *)
  pageIsClosed : bool;     (* searchPage.isClosed() inside the catch *)
  newPageOk : bool;        (* context.newPage() and goto succeed *)
  latestTabOk : bool       (* getLatestTab succeeds before closeTabs *)
}.

Inductive TryOutcome : Type :=
| PageUnresponsive (recovered : bool)  (* evaluate(readyState) threw *)
| ReachedPointsFetch                   (* every driver step went through *)
| Raised (f : Failure).                (* a driver step threw *)

Record TryStep : Type := mkTryStep {
  outcome : TryOutcome;
  elapsed : Z              (* time the driver steps took, in ms *)
}.

(** The environment: [this.bot.isMobile] and the scripted answers of the
    collaborators, indexed by how often each has been called. *)
Record Env : Type := mkEnv {
  bot_isMobile : bool;
  env_points : nat -> option Counters;       (* getSearchPoints; None = rejects *)
  env_try : nat -> TryStep;                  (* driver steps of one retry *)
  env_random : nat -> Q;                     (* Math.random() in getSmartSearchDelay *)
  env_useContextual : nat -> bool;           (* shouldUseContextualSearch() *)
  env_contextual : nat -> string -> list string;  (* generateContextualSearches *)
  env_related : nat -> string -> list string;     (* getRelatedTerms *)
  env_additional : nat -> list SearchItem;   (* generateAdditionalQueries *)
  env_userAgentOk : nat -> bool;             (* getUserAgent + setExtraHTTPHeaders *)
  env_entryTabOk : bool;                     (* getLatestTab at entry *)
  env_plan : option (list SearchItem);       (* generateDiversifiedQueries *)
  env_shuffle : list SearchItem -> list SearchItem;  (* utils.shuffleArray *)
  env_gotoOk : bool                          (* page.goto at entry *)
}.

(** Outcome of a computation: a value, a thrown error, or a loop that was
    cut off by the fuel of the model. *)
Inductive Result (A : Type) : Type :=
| Ok (a : A)
| Throw (e : string)
| OutOfFuel.
Arguments Ok {A} a.
Arguments Throw {A} e.
Arguments OutOfFuel {A}.

Definition M (A : Type) : Type := State -> Result A * State.

Definition ret {A : Type} (a : A) : M A := fun w => (Ok a, w).

Definition bind {A B : Type} (m : M A) (k : A -> M B) : M B :=
  fun w =>
    match m w with
    | (Ok a, w') => k a w'
    | (Throw e, w') => (Throw e, w')
    | (OutOfFuel, w') => (OutOfFuel, w')
    end.

Definition throw {A : Type} (e : string) : M A := fun w => (Throw e, w).

Definition outOfFuel {A : Type} : M A := fun w => (OutOfFuel, w).

(** [try { m } catch (e) { handler e }]; state changes made before the
    throw stay. *)
Definition tryCatch {A : Type} (m : M A) (handler : string -> M A) : M A :=
  fun w =>
    match m w with
    | (Throw e, w') => handler e w'
    | r => r
    end.

Declare Scope monad_scope.
Delimit Scope monad_scope with monad.
Notation "x <- m ;; k" := (bind m (fun x => k))
  (at level 61, m at next level, right associativity) : monad_scope.
Notation "m ;; k" := (bind m (fun _ => k))
  (at level 61, right associativity) : monad_scope.
Notation "' pat <- m ;; k" := (bind m (fun x => match x with pat => k end))
  (at level 61, pat pattern, m at next level, right associativity) : monad_scope.

(** Control a loop body hands back: go on, [break], or [return]. *)
Inductive Ctl : Type := Continue | Break | Return.

(** ** The search worker *)

(** Local variables of [doSearch] that live across loop iterations. *)
Record Locals : Type := mkLocals {
  missingPoints : Z;
  maxLoop : Z;
  earnedPoints : Z;
  completedSearches : Z;
  lastSuccessfulQuery : option string;
  contextSearchCount : Z
}.

Definition setMissingPoints (L : Locals) (v : Z) : Locals :=
  mkLocals v (maxLoop L) (earnedPoints L) (completedSearches L)
           (lastSuccessfulQuery L) (contextSearchCount L).
Definition setMaxLoop (L : Locals) (v : Z) : Locals :=
  mkLocals (missingPoints L) v (earnedPoints L) (completedSearches L)
           (lastSuccessfulQuery L) (contextSearchCount L).
Definition setEarnedPoints (L : Locals) (v : Z) : Locals :=
  mkLocals (missingPoints L) (maxLoop L) v (completedSearches L)
           (lastSuccessfulQuery L) (contextSearchCount L).
Definition setCompletedSearches (L : Locals) (v : Z) : Locals :=
  mkLocals (missingPoints L) (maxLoop L) (earnedPoints L) v
           (lastSuccessfulQuery L) (contextSearchCount L).
Definition setLastSuccessfulQuery (L : Locals) (v : option string) : Locals :=
  mkLocals (missingPoints L) (maxLoop L) (earnedPoints L) (completedSearches L)
           v (contextSearchCount L).
Definition setContextSearchCount (L : Locals) (v : Z) : Locals :=
  mkLocals (missingPoints L) (maxLoop L) (earnedPoints L) (completedSearches L)
           (lastSuccessfulQuery L) v.

(** [let maxLoop = 0], [let completedSearches = 0], [let earnedPoints = 0],
    [let lastSuccessfulQuery = null], [let contextSearchCount = 0]. *)
Definition initialLocals (missing : Z) : Locals :=
  mkLocals missing 0 0 0 None 0.

(** What one pass of the retry loop of [bingSearch] decides. *)
Inductive TryCtl : Type :=
| TryContinue
| TryBreak
| TryReturn (c : Counters).

(** State of the extra-search phase: the locals, [extraSearchCount], the
    index [i] and the (growing) array [allSearchQueries]. *)
Record Extra : Type := mkExtra {
  extraLocals : Locals;
  extraSearchCount : Z;
  extraIndex : nat;
  extraQueries : list SearchItem
}.

(** [const searchTimeoutMs = 20 * 60 * 1000] *)
Definition searchTimeoutMs : Z := 20 * 60 * 1000.

(** JavaScript truthiness of [string | null]. *)
Definition truthy (s : option string) : bool :=
  match s with
  | Some t => negb (String.eqb t "")
  | None => false
  end.

Section Worker.

Variable env : Env.

Local Open Scope monad_scope.

(** Primitive effects. *)

Definition emit (e : Event) : M unit :=
  fun w => (Ok tt, mkState (now w) (pacing w) (calls w) (e :: trace w)).

(** Counts a call of [op] and returns how many came before it. *)
Definition tick (op : Op) : M nat :=
  fun w =>
    (Ok (calls w op),
     mkState (now w) (pacing w)
             (fun o => if Op_eqb o op then S (calls w o) else calls w o)
             (trace w)).

(** [Date.now()] *)
Definition dateNow : M Z := fun w => (Ok (now w), w).

(** Time passing without a [wait] (driver work). *)
Definition advance (ms : Z) : M unit :=
  fun w => (Ok tt, mkState (now w + ms) (pacing w) (calls w) (trace w)).

(** [await this.bot.utils.wait(ms)] *)
Definition wait (ms : Z) : M unit :=
  fun w => (Ok tt, mkState (now w + ms) (pacing w) (calls w) (EvWait ms :: trace w)).

Definition getPacing : M Pacing := fun w => (Ok (pacing w), w).

Definition modifyPacing (f : Pacing -> Pacing) : M unit :=
  fun w => (Ok tt, mkState (now w) (f (pacing w)) (calls w) (trace w)).

(** [await this.bot.browser.func.getSearchPoints()] *)
Definition getSearchPoints (site : FetchSite) : M Counters :=
  k <- tick OpGetSearchPoints ;;
  emit (EvFetch site) ;;
  match env_points env k with
  | Some c => ret c
  | None => throw "getSearchPoints failed"
  end.

(** [BrowserUtil.getLatestTab]: waits a second, then returns the tab or
    rethrows. *)
Definition getLatestTab (ok : bool) : M unit :=
  wait 1000 ;;
  if ok then ret tt else throw "An error occurred: Latest tab is not responsive".

(** [Search.getEmptySearchCounters] *)
Definition getEmptySearchCounters : M Counters :=
  tryCatch (getSearchPoints SiteEmptyCounters) (fun _ => ret emptyCounters).

(** One pass of [for (let i = 0; i < 5; i++) { try { ... } catch { ... } }]
    in [bingSearch]. *)
Definition bingSearchTry (i : Z) : M TryCtl :=
  k <- tick OpTry ;;
  let step := env_try env k in
  advance (elapsed step) ;;
  match outcome step with
  | PageUnresponsive recovered =>
      if recovered then wait 3000 ;; ret TryContinue
      else c <- getEmptySearchCounters ;; ret (TryReturn c)
  | ReachedPointsFetch =>
      tryCatch
        (searchPoints <- getSearchPoints SiteAttempt ;;
         modifyPacing handleSearchSuccess ;;
         ret (TryReturn searchPoints))
        (fun _ => c <- getEmptySearchCounters ;; ret (TryReturn c))
  | Raised f =>
      modifyPacing handleSearchFailure ;;
      let msg := errorMessage f in
      let isBrowserClosed :=
        includes "Target page, context or browser has been closed" msg
        || includes "page.reload: Target page" msg
        || pageIsClosed f in
      let isTargetCrashed :=
        includes "Target crashed" msg
        || includes "page.evaluate: Target crashed" msg
        || includes "Protocol error" msg in
      let isMemoryError :=
        includes "out of memory" msg || includes "memory" msg
        || includes "OOM" msg in
      if isBrowserClosed then c <- getEmptySearchCounters ;; ret (TryReturn c)
      else if (isTargetCrashed || isMemoryError) && (i <? 4) then
        if newPageOk f then wait 3000 ;; ret TryContinue
        else c <- getEmptySearchCounters ;; ret (TryReturn c)
      else if i =? 4 then ret TryBreak
      else
        tabsReset <- tryCatch (getLatestTab (latestTabOk f) ;; ret true)
                              (fun _ => ret false) ;;
        if tabsReset : bool then wait 4000 ;; ret TryContinue
        else c <- getEmptySearchCounters ;; ret (TryReturn c)
  end.

(** The retry loop: [remaining] passes are left, the next has index [i]. *)
Fixpoint bingSearchLoop (remaining : nat) (i : Z) : M Counters :=
  match remaining with
  | O => getEmptySearchCounters
  | S r =>
      ctl <- bingSearchTry i ;;
      match ctl with
      | TryContinue => bingSearchLoop r (i + 1)
      | TryBreak => getEmptySearchCounters
      | TryReturn c => ret c
      end
  end.

(** [Search.bingSearch] *)
Definition bingSearch (query : string) : M Counters :=
  t <- dateNow ;;
  emit (EvSearch query t) ;;
  bingSearchLoop 5 0.

(** The query of one iteration: the planned one, or a contextual follow-up
    of the last query that changed the points (lines 1368-1386). *)
Definition pickQuery (planned : string) (L : Locals) : M (string * Locals) :=
  k <- tick OpContext ;;
  if env_useContextual env k && truthy (lastSuccessfulQuery L)
     && (contextSearchCount L <? 3)
  then
    let base := match lastSuccessfulQuery L with Some q => q | None => "" end in
    match env_contextual env k base with
    | contextQuery :: _ =>
        if truthy (Some contextQuery)
        then ret (contextQuery,
                  setContextSearchCount L (contextSearchCount L + 1))
        else ret (planned, L)
    | [] => ret (planned, L)
    end
  else ret (planned, setContextSearchCount L 0).

(** [if (maxLoop === 3) { ... }]: the forced check of the points.  The
    boolean is [true] when the branch ends in [continue]. *)
Definition forceCheck (L : Locals) : M (bool * Locals) :=
  if maxLoop L =? 3 then
    tryCatch
      (forceCheckCounters <- getSearchPoints SiteForceCheck ;;
       let forceCheckMissingPoints :=
         calculatePoints (bot_isMobile env) forceCheckCounters in
       if negb (forceCheckMissingPoints =? missingPoints L)
       then ret (true, setMaxLoop (setMissingPoints L forceCheckMissingPoints) 0)
       else ret (false, L))
      (fun _ => ret (false, L))
  else ret (false, L).

(** [if (newMissingPoints == missingPoints) { ... } else { ... }]
    (lines 1428-1464). *)
Definition stallUpdate (query : string) (newMissingPoints : Z) (L : Locals)
  : M (bool * Locals) :=
  if newMissingPoints =? missingPoints L then
    ' (skip, L1) <- forceCheck (setMaxLoop L (maxLoop L + 1)) ;;
    if skip : bool then ret (true, L1)
    else
      (if maxLoop L1 =? 5 then wait 30000 else ret tt) ;;
      (if negb (bot_isMobile env) && (maxLoop L1 =? 8)
       then wait 60000 else ret tt) ;;
      ret (false, L1)
  else
    ret (false, setLastSuccessfulQuery (setMaxLoop L 0) (Some query)).

(** [if (maxLoop > maxLoopLimit) { ... break }] (lines 1531-1555). *)
Definition stallAbort (L : Locals) : M Locals :=
  emit EvStallAbort ;;
  ' (completed, L1) <-
    tryCatch
      (wait 5000 ;;
       finalCheckCounters <- getSearchPoints SiteFinalCheck ;;
       let finalCheckMissingPoints :=
         calculatePoints (bot_isMobile env) finalCheckCounters in
       if finalCheckMissingPoints <? missingPoints L then
         let L' := setMissingPoints L finalCheckMissingPoints in
         if missingPoints L' =? 0 then ret (true, L') else ret (false, L')
       else ret (false, L))
      (fun _ => ret (false, L)) ;;
  if completed : bool then ret L1 else ret (setMaxLoop L1 0).

(** The loop body from the return of [bingSearch] on (lines 1393-1588).
    The time estimate logged every fifth search and the check of the mobile
    features at [maxLoop === 3] (in its own try/catch) only write to the
    log and are left out. *)
Definition afterAttempt (query : string) (searchCounters : Counters)
    (L : Locals) : M (Ctl * Locals) :=
  let newMissingPoints := calculatePoints (bot_isMobile env) searchCounters in
  let pointsGained := missingPoints L - newMissingPoints in
  let L0 := if pointsGained >? 0
            then setEarnedPoints L (earnedPoints L + pointsGained) else L in
  ' (skip, L1) <- stallUpdate query newMissingPoints L0 ;;
  if skip : bool then ret (Continue, L1)
  else
    let L2 := setMissingPoints L1 newMissingPoints in
    if missingPoints L2 =? 0 then
      emit EvComplete ;;
      wait 2000 ;;
      _ <- getSearchPoints SiteFinalVerify ;;
      ret (Break, L2)
    else if (maxLoop L2 >? 5) && bot_isMobile env then
      emit EvUserAgentRefresh ;;
      k <- tick OpUserAgent ;;
      (if env_userAgentOk env k then wait 30000 else wait 180000) ;;
      ret (Continue, setMaxLoop L2 0)
    else
      let maxLoopLimit := if bot_isMobile env then 10 else 15 in
      if maxLoop L2 >? maxLoopLimit then
        L3 <- stallAbort L2 ;;
        ret (Break, L3)
      else
        k <- tick OpRandom ;;
        p <- getPacing ;;
        let smartDelay :=
          getSmartSearchDelay (bot_isMobile env) p (env_random env k) in
        wait (Qfloor smartDelay) ;;
        ret (Continue, L2).

(** One iteration of [for (let i = 0; i < queries.length; i++)]. *)
Definition searchIteration (searchStartTime : Z) (planned : string)
    (L : Locals) : M (Ctl * Locals) :=
  t <- dateNow ;;
  if t - searchStartTime >? searchTimeoutMs then
    emit EvTimeout ;; ret (Break, L)
  else
    ' (query, L1) <- pickQuery planned L ;;
    let L2 := setCompletedSearches L1 (completedSearches L1 + 1) in
    searchCounters <- bingSearch query ;;
    afterAttempt query searchCounters L2.

(** The main loop over [queries]. *)
Fixpoint searchLoop (searchStartTime : Z) (queries : list string)
    (L : Locals) : M Locals :=
  match queries with
  | [] => ret L
  | planned :: rest =>
      ' (ctl, L') <- searchIteration searchStartTime planned L ;;
      match ctl with
      | Continue => searchLoop searchStartTime rest L'
      | Break | Return => ret L'
      end
  end.

(** [const maxExtraSearches = this.bot.isMobile ? 20 : 50] *)
Definition maxExtraSearches : Z := if bot_isMobile env then 20 else 50.

(** [for (const term of relatedTerms.slice(1, 3)) { ... }]
    (lines 1614-1643); [Break] leaves the [for], [Return] leaves
    [doSearch]. *)
Fixpoint extraTerms (terms : list string) (L : Locals) (count : Z)
  : M (Ctl * (Locals * Z)) :=
  match terms with
  | [] => ret (Continue, (L, count))
  | term :: rest =>
      if count >=? maxExtraSearches then ret (Break, (L, count))
      else
        searchCounters <- bingSearch term ;;
        let newMissingPoints :=
          calculatePoints (bot_isMobile env) searchCounters in
        let count' := count + 1 in
        let L1 := if newMissingPoints =? missingPoints L
                  then setMaxLoop L (maxLoop L + 1) else setMaxLoop L 0 in
        let L2 := setMissingPoints L1 newMissingPoints in
        if missingPoints L2 =? 0 then ret (Break, (L2, count'))
        else if maxLoop L2 >? 5 then ret (Return, (L2, count'))
        else extraTerms rest L2 count'
  end.

(** One iteration of the [while] of the extra-search phase
    (lines 1601-1646). *)
Definition extraIteration (x : Extra) : M (Ctl * Extra) :=
  all <- (if (List.length (extraQueries x) <=? extraIndex x)%nat
          then k <- tick OpAdditional ;;
               ret ((extraQueries x ++ env_additional env k)%list)
          else ret (extraQueries x)) ;;
  match nth_error all (extraIndex x) with
  | None =>
      throw "TypeError: Cannot read properties of undefined (reading 'topic')"
  | Some query =>
      let term := match query with
                  | PlainQuery s => s
                  | TrendQuery _ g => topic g
                  end in
      k <- tick OpRelated ;;
      let relatedTerms := env_related env k term in
      ' (ctl, (L, count)) <-
        (if (3 <? List.length relatedTerms)%nat
         then extraTerms (firstn 2 (skipn 1 relatedTerms))
                         (extraLocals x) (extraSearchCount x)
         else ret (Continue, (extraLocals x, extraSearchCount x))) ;;
      let x' := mkExtra L count (S (extraIndex x)) all in
      match ctl with
      | Return => ret (Return, x')
      | Continue | Break =>
          if missingPoints L =? 0 then ret (Break, x') else ret (Continue, x')
      end
  end.

(** [while (missingPoints > 0 && extraSearchCount < maxExtraSearches)];
    [fuel] bounds the number of iterations the model follows. *)
Fixpoint extraLoop (fuel : nat) (x : Extra) : M (Ctl * Extra) :=
  match fuel with
  | O => outOfFuel
  | S fuel' =>
      if (missingPoints (extraLocals x) >? 0)
         && (extraSearchCount x <? maxExtraSearches)
      then
        ' (ctl, x') <- extraIteration x ;;
        match ctl with
        | Continue => extraLoop fuel' x'
        | Break => ret (Break, x')
        | Return => ret (Return, x')
        end
      else ret (Continue, x)
  end.

(** The extra-search phase (lines 1592-1670). *)
Definition extraSearches (fuel : nat) (allSearchQueries : list SearchItem)
    (L : Locals) : M Locals :=
  if missingPoints L >? 0 then
    ' (ctl, x) <- extraLoop fuel (mkExtra L 0 O allSearchQueries) ;;
    match ctl with
    | Return => ret (extraLocals x)
    | Continue | Break =>
        if (missingPoints (extraLocals x) >? 0) && negb (bot_isMobile env)
        then _ <- getSearchPoints SiteIncomplete ;; ret (extraLocals x)
        else ret (extraLocals x)
    end
  else ret L.

(** [Search.doSearch]; the value is the locals at the point of return
    ([None] for the early return on an already completed quota).  The
    biomimetic adaptation sits in its own try/catch and
    [tryDismissAllMessages] catches its own errors; neither touches the
    state modelled here, so both are left out. *)
Definition doSearch (fuel : nat) : M (option Locals) :=
  getLatestTab (env_entryTabOk env) ;;
  searchCounters <- getSearchPoints SiteInitial ;;
  let missing := calculatePoints (bot_isMobile env) searchCounters in
  if missing =? 0 then ret None
  else
    generated <- match env_plan env with
                 | Some qs => ret qs
                 | None => throw "generateDiversifiedQueries failed"
                 end ;;
    let allSearchQueries := dedupe (env_shuffle env generated) in
    (if env_gotoOk env then ret tt else throw "page.goto failed") ;;
    wait 2000 ;;
    let queries := flattenQueries (bot_isMobile env) allSearchQueries in
    searchStartTime <- dateNow ;;
    L <- searchLoop searchStartTime queries (initialLocals missing) ;;
    L' <- extraSearches fuel allSearchQueries L ;;
    ret (Some L').

End Worker.

(** ** Vocabulary of the properties *)

(** A computation that never throws / is never cut off / always returns. *)
Definition noThrow {A : Type} (m : M A) : Prop :=
  forall w e, fst (m w) <> Throw e.

Definition noDiverge {A : Type} (m : M A) : Prop :=
  forall w, fst (m w) <> OutOfFuel.

Definition total {A : Type} (m : M A) : Prop :=
  forall w, exists a w', m w = (Ok a, w').

(** [w'] continues the trace of [w] with events that all satisfy [P]. *)
Definition extendsTrace (P : Event -> Prop) (w w' : State) : Prop :=
  exists evs, trace w' = (evs ++ trace w)%list /\ Forall P evs.

Definition isSearch (e : Event) : bool :=
  match e with EvSearch _ _ => true | _ => false end.

(** Number of [bingSearch] calls recorded in a trace. *)
Definition searchCount (tr : list Event) : nat :=
  List.length (filter isSearch tr).

(** The events added to the trace between [w] and [w'], most recent
    first. *)
Definition eventsSince (w w' : State) : list Event :=
  firstn (List.length (trace w') - List.length (trace w)) (trace w').

(** [m] never throws and every value it returns satisfies [Q]. *)
Definition ensures {A : Type} (Q : A -> Prop) (m : M A) : Prop :=
  forall w, match fst (m w) with
            | Ok a => Q a
            | Throw _ => False
            | OutOfFuel => True
            end.

(** [m] leaves the call count of [op] alone / raises it by at most [n]. *)
Definition keepsCalls {A : Type} (op : Op) (m : M A) : Prop :=
  forall w, calls (snd (m w)) op = calls w op.

Definition callsAtMost {A : Type} (op : Op) (n : nat) (m : M A) : Prop :=
  forall w, (calls w op <= calls (snd (m w)) op <= calls w op + n)%nat.

(** The progress fetch never fails. *)
Definition pointsAlways (env : Env) : Prop :=
  forall k, env_points env k <> None.

(** Supplementary batches are never empty. *)
Definition additionalNonEmpty (env : Env) : Prop :=
  forall k, env_additional env k <> [].

(** The index of the extra-search phase has not run past the array. *)
Definition extraIndexOk (x : Extra) : Prop :=
  (extraIndex x <= List.length (extraQueries x))%nat.

(** A desktop run in which nothing fails and the points never move. *)
Definition envQuiet : Env :=
  mkEnv false (fun _ => Some desktopInProgress)
        (fun _ => mkTryStep ReachedPointsFetch 5000)
        (fun _ => (1 # 2)%Q) (fun _ => false) (fun _ _ => [])
        (fun _ _ => ["a"; "b"; "c"; "d"]) (fun _ => [PlainQuery "x"])
        (fun _ => true) true (Some plainPlan) (fun xs => xs) true.

(** The same run with the progress endpoint down. *)
Definition envFetchDown : Env :=
  mkEnv false (fun _ => None)
        (fun _ => mkTryStep ReachedPointsFetch 5000)
        (fun _ => (1 # 2)%Q) (fun _ => false) (fun _ _ => [])
        (fun _ _ => ["a"; "b"; "c"; "d"]) (fun _ => [PlainQuery "x"])
        (fun _ => true) true (Some plainPlan) (fun xs => xs) true.

(** The same run with the first navigation failing. *)
Definition envGotoFails : Env :=
  mkEnv false (fun _ => Some desktopInProgress)
        (fun _ => mkTryStep ReachedPointsFetch 5000)
        (fun _ => (1 # 2)%Q) (fun _ => false) (fun _ _ => [])
        (fun _ _ => ["a"; "b"; "c"; "d"]) (fun _ => [PlainQuery "x"])
        (fun _ => true) true (Some plainPlan) (fun xs => xs) false.

(** A mobile run in which nothing fails, the points never move, every
    attempt takes a second and [Math.random()] always answers 0. *)
Definition envMobileStuck : Env :=
  mkEnv true (fun _ => Some desktopInProgress)
        (fun _ => mkTryStep ReachedPointsFetch 1000)
        (fun _ => 0%Q) (fun _ => false) (fun _ _ => [])
        (fun _ _ => ["a"; "b"; "c"; "d"]) (fun _ => [PlainQuery "x"])
        (fun _ => true) true (Some plainPlan) (fun xs => xs) true.

(** Fourteen planned queries. *)
Definition fourteenQueries : list string :=
  ["q01"; "q02"; "q03"; "q04"; "q05"; "q06"; "q07";
   "q08"; "q09"; "q10"; "q11"; "q12"; "q13"; "q14"].

Definition isStallAbort (e : Event) : bool :=
  match e with EvStallAbort => true | _ => false end.

Definition isTimeout (e : Event) : bool :=
  match e with EvTimeout => true | _ => false end.

(** A desktop run in which the browser is closed under every attempt while
    the progress endpoint keeps answering. *)
Definition envBrowserClosed : Env :=
  mkEnv false (fun _ => Some desktopInProgress)
        (fun _ => mkTryStep
                    (Raised (mkFailure
                       "Error: Target page, context or browser has been closed"
                       true false false)) 1000)
        (fun _ => (1 # 2)%Q) (fun _ => false) (fun _ _ => [])
        (fun _ _ => ["a"; "b"; "c"; "d"]) (fun _ => [PlainQuery "x"])
        (fun _ => true) true (Some plainPlan) (fun xs => xs) true.

(** [String(error)] carries one of the messages the catch block reads as a
    closed browser, or the page reports itself closed. *)
Definition browserClosed (f : Failure) : bool :=
  includes "Target page, context or browser has been closed" (errorMessage f)
  || includes "page.reload: Target page" (errorMessage f)
  || pageIsClosed f.

(** Number of attempts started after the most recent [EvTimeout] of a
    trace (the trace is most recent first). *)
Fixpoint searchesAfterTimeout (tr : list Event) : nat :=
  match tr with
  | [] => O
  | EvTimeout :: _ => O
  | e :: rest => ((if isSearch e then 1 else 0) + searchesAfterTimeout rest)%nat
  end.

(** Number of attempts started later than [deadline]. *)
Definition searchesStartedAfter (deadline : Z) (tr : list Event) : nat :=
  List.length
    (filter (fun e => match e with
                      | EvSearch _ t => deadline <? t
                      | _ => false
                      end) tr).

(** A desktop run whose first attempt hangs for 21 minutes; the points
    never move and related terms are available. *)
Definition envSlowFirst : Env :=
  mkEnv false (fun _ => Some desktopInProgress)
        (fun k => mkTryStep ReachedPointsFetch
                    (if Nat.eqb k 0 then 21 * 60 * 1000 else 1000))
        (fun _ => (1 # 2)%Q) (fun _ => false) (fun _ _ => [])
        (fun _ _ => ["a"; "b"; "c"; "d"]) (fun _ => [PlainQuery "x"])
        (fun _ => true) true (Some plainPlan) (fun xs => xs) true.

(** A desktop run in which the related-terms lookup always fails (returns
    the empty list) and the points never move. *)
Definition envNoRelated : Env :=
  mkEnv false (fun _ => Some desktopInProgress)
        (fun _ => mkTryStep ReachedPointsFetch 1000)
        (fun _ => (1 # 2)%Q) (fun _ => false) (fun _ _ => [])
        (fun _ _ => []) (fun _ => [PlainQuery "x"; PlainQuery "y"])
        (fun _ => true) true (Some plainPlan) (fun xs => xs) true.

(** [m] adds no attempt to the trace. *)
Definition keepsSearches {A : Type} (m : M A) : Prop :=
  forall w, searchCount (trace (snd (m w))) = searchCount (trace w).

(** Every related-terms lookup yields more than three terms. *)
Definition relatedAlways (env : Env) : Prop :=
  forall k term, (3 < List.length (env_related env k term))%nat.

(** The query texts handed to [bingSearch], in the order of submission. *)
Definition submittedQueries (tr : list Event) : list string :=
  rev (flat_map (fun e => match e with
                          | EvSearch q _ => [q]
                          | _ => []
                          end) tr).

(** A desktop run in which every attempt earns 5 points and every
    iteration opts for a contextual follow-up whose first suggestion is the
    base query itself (the first pattern of [generateContextualSearches]). *)
Definition envContextual : Env :=
  mkEnv false
        (fun k => Some (mkCounters
                          (Some [mkImpression (35 + 5 * Z.of_nat k) 90;
                                 mkImpression 12 12])
                          (Some []) (Some []) (Some []) (Some [])))
        (fun _ => mkTryStep ReachedPointsFetch 1000)
        (fun _ => 0%Q) (fun _ => true)
        (fun _ base => [base; String.append base " review"])
        (fun _ _ => ["a"; "b"; "c"; "d"]) (fun _ => [PlainQuery "x"])
        (fun _ => true) true (Some plainPlan) (fun xs => xs) true.

(** ** Further parts of the worker *)

(** *** Enhanced pacing *)

(** [UserProfile.searchStyle] and [UserProfile.multitaskingLevel]. *)
Inductive SearchStyle : Type := Leisurely | Focused | Scattered.

Inductive MultitaskingLevel : Type :=
| LowMultitasking | MediumMultitasking | HighMultitasking.

(** The fields of [UserProfile] the worker reads. *)
Record UserProfile : Type := mkUserProfile {
  searchStyle : SearchStyle;
  breakProbability : Q;
  multitaskingLevel : MultitaskingLevel
}.

(** The [switch (userProfile.searchStyle)] of [getEnhancedSmartSearchDelay]. *)
Definition profileMultiplier (style : SearchStyle) : Q :=
  match style with
  | Leisurely => 15 # 10
  | Focused => 1
  | Scattered => 18 # 10
  end.

(** The adjustment by the hour of the day ([new Date().getHours()]). *)
Definition timeMultiplier (hour : Z) : Q :=
  if (9 <=? hour) && (hour <=? 17) then 12 # 10
  else if (22 <=? hour) || (hour <=? 6) then 8 # 10
  else 1.

Definition enhancedMinDelay (isMobile : bool) : Z :=
  if isMobile then 45000 else 60000.

Definition enhancedMaxDelay (isMobile : bool) : Z :=
  if isMobile then 300000 else 480000.

(** [Search.getEnhancedSmartSearchDelay]; [baseDelay] is what
    [calculateSmartDelay] returned, [rnd] the value of [Math.random()]. *)
Definition getEnhancedSmartSearchDelay (isMobile : bool) (baseDelay : Q)
    (style : SearchStyle) (hour : Z) (rnd : Q) : Z :=
  let randomFactor := ((7 # 10) + rnd * (6 # 10))%Q in
  let enhancedDelay :=
    Qfloor (baseDelay * profileMultiplier style * timeMultiplier hour
            * randomFactor)%Q in
  Z.max (enhancedMinDelay isMobile)
        (Z.min (enhancedMaxDelay isMobile) enhancedDelay).

(** [totalBreakProbability] of [Search.shouldTakeSessionBreak]. *)
Definition totalBreakProbability (completedSearches sessionInterruptionCount : Z)
    (profile : UserProfile) : Q :=
  let baseBreakProbability := breakProbability profile in
  let searchFatigue :=
    Qmin (inject_Z completedSearches * (2 # 100)) (3 # 10) in
  let searchesSinceLastBreak :=
    completedSearches - sessionInterruptionCount * 8 in
  let restNeed :=
    Qmax 0 (inject_Z (searchesSinceLastBreak - 15) * (5 # 100)) in
  Qmin (baseBreakProbability + searchFatigue + restNeed)%Q (7 # 10).

(** [Search.shouldTakeSessionBreak]: [Math.random() < totalBreakProbability]. *)
Definition shouldTakeSessionBreak (completedSearches sessionInterruptionCount : Z)
    (profile : UserProfile) (rnd : Q) : bool :=
  if Qlt_le_dec rnd
       (totalBreakProbability completedSearches sessionInterruptionCount profile)
  then true else false.

(** *** Query generators *)

(** [xs.slice(0, n)] for a number [n]: a negative end counts from the
    back. *)
Definition sliceTo {A : Type} (n : Z) (xs : list A) : list A :=
  if n <? 0 then firstn (Z.to_nat (Z.of_nat (List.length xs) + n)) xs
  else firstn (Z.to_nat n) xs.

(** [`${n}`] for an integer [n]. *)
Definition showNumber (n : Z) : string :=
  NilZero.string_of_int (Z.to_int n).

(** [xs[Math.floor(Math.random() * xs.length)]] inside a template string:
    an index outside the array reads [undefined], printed as such. *)
Definition pickRandom (xs : list string) (rnd : Q) : string :=
  let index := Qfloor (rnd * inject_Z (Z.of_nat (List.length xs)))%Q in
  if index <? 0 then "undefined" else nth (Z.to_nat index) xs "undefined".

(** The patterns of [Search.generateChineseRelatedTerms]. *)
Definition chineseRelatedPatterns (baseQuery : string) : list string :=
  [ baseQuery ++ " 最新消息"; baseQuery ++ " 是什么"; baseQuery ++ " 怎么样";
    baseQuery ++ " 详情"; baseQuery ++ " 原因"; baseQuery ++ " 结果";
    baseQuery ++ " 影响"; baseQuery ++ " 评论" ]%string.

(** [Search.generateChineseRelatedTerms] *)
Definition generateChineseRelatedTerms
    (shuffleArray : list string -> list string) (rnd : Q)
    (baseQuery : string) : list string :=
  let selectedCount := 3 + Qfloor (rnd * 3)%Q in
  sliceTo selectedCount (shuffleArray (chineseRelatedPatterns baseQuery)).

(** The own keys of [contextualPatterns] in
    [Search.generateContextualSearches]. *)
Definition contextualPatterns (language baseQuery : string)
  : option (list string) :=
  if String.eqb language "ja" then
    Some [ baseQuery; baseQuery ++ " とは"; baseQuery ++ " 意味";
           baseQuery ++ " 使い方"; baseQuery ++ " おすすめ";
           baseQuery ++ " 比較"; baseQuery ++ " 評価";
           baseQuery ++ " 口コミ" ]%string
  else if String.eqb language "en" then
    Some [ baseQuery; "what is " ++ baseQuery; baseQuery ++ " meaning";
           "how to use " ++ baseQuery; "best " ++ baseQuery;
           baseQuery ++ " vs"; baseQuery ++ " review";
           baseQuery ++ " guide" ]%string
  else if String.eqb language "zh" then
    Some [ baseQuery; baseQuery ++ " 是什么"; baseQuery ++ " 怎么用";
           baseQuery ++ " 推荐"; baseQuery ++ " 比较"; baseQuery ++ " 评价";
           baseQuery ++ " 教程" ]%string
  else None.

(** [Search.generateContextualSearches]: a language that is no key of the
    table falls back to the English patterns.  (The lookup is modelled for
    the keys of the table itself; [doSearch] only passes ["ja"], ["zh"] and
    ["en"].) *)
Definition generateContextualSearches
    (shuffleArray : list string -> list string) (rnd : Q)
    (baseQuery language : string) : list string :=
  let patterns :=
    match contextualPatterns language baseQuery with
    | Some ps => ps
    | None => match contextualPatterns "en" baseQuery with
              | Some ps => ps
              | None => []
              end
    end in
  let selectedCount := 2 + Qfloor (rnd * 2)%Q in
  sliceTo selectedCount (shuffleArray patterns).

(** The language [doSearch] passes to [generateContextualSearches]
    (lines 1373-1374), from [data.userProfile?.attributes?.country]. *)
Definition contextLanguage (country : option string) : string :=
  match country with
  | Some c => if String.eqb c "JP" then "ja"
              else if String.eqb c "CN" then "zh" else "en"
  | None => "en"
  end.

(** The word lists of [Search.generateAdditionalQueries]. *)
Definition additionalSubjects : list string :=
  [ "技術"; "映画"; "音楽"; "料理"; "旅行"; "健康"; "学習"; "ビジネス";
    "スポーツ"; "ファッション" ].

Definition additionalModifiers : list string :=
  [ "最新"; "人気"; "おすすめ"; "ランキング"; "レビュー"; "比較"; "方法";
    "コツ" ].

Definition additionalPatterns : list string :=
  [ "どうやって"; "なぜ"; "いつ"; "どこで"; "だれが"; "何のため"; "いくら";
    "どのくらい" ].

Definition additionalTopics : list string :=
  [ "仕事"; "勉強"; "家族"; "友達"; "お金"; "時間"; "健康"; "幸せ" ].

(** [Search.generateAdditionalQueries]: the date is [year], [month], [day];
    [rnd k] is the value of the [k]-th call of [Math.random()]. *)
Definition generateAdditionalQueries (year month day : Z) (rnd : nat -> Q)
  : list string :=
  let timeBasedQueries :=
    [ showNumber year ++ "年" ++ showNumber month ++ "月のニュース";
      showNumber year ++ "年の出来事";
      "今日は" ++ showNumber month ++ "月" ++ showNumber day ++ "日";
      "最新のトレンド"; "今週のニュース"; "今月のイベント"; "最新技術";
      "注目の話題" ]%string in
  let combined :=
    map (fun i => (pickRandom additionalSubjects (rnd (2 * i)%nat) ++ " "
                   ++ pickRandom additionalModifiers (rnd (2 * i + 1)%nat))%string)
        (seq 0 10) in
  let patterned :=
    map (fun jp => (snd jp
                    ++ pickRandom additionalTopics (rnd (20 + fst jp)%nat))%string)
        (combine (seq 0 8) additionalPatterns) in
  (timeBasedQueries ++ combined ++ patterned)%list.

(** The pool of [Search.generateNewsQueries]; [monthName] is
    [toLocaleDateString('en-US', {month: 'long'})]. *)
Definition newsQueryPool (year : Z) (monthName : string) : list string :=
  [ showNumber year ++ " news today";
    monthName ++ " " ++ showNumber year ++ " events";
    "today's headlines";
    "current events " ++ showNumber year;
    "news updates " ++ monthName;
    "breaking news today";
    "world news " ++ showNumber year;
    "latest technology news"; "sports news today";
    "weather forecast today" ]%string.

Definition commonTopics : list string :=
  [ "how to cook pasta"; "best movies 2024"; "healthy recipes";
    "travel destinations"; "fitness tips"; "home improvement ideas";
    "online learning"; "productivity apps"; "book recommendations";
    "gardening tips"; "DIY projects"; "career advice"; "investment tips";
    "language learning"; "photography tips" ].

Definition randomTopics : list string :=
  [ "artificial intelligence future"; "sustainable living tips";
    "space exploration news"; "electric vehicles 2024";
    "renewable energy trends"; "digital art techniques";
    "mindfulness meditation"; "cryptocurrency updates";
    "virtual reality gaming"; "climate change solutions";
    "healthy lifestyle habits"; "remote work productivity";
    "scientific discoveries 2024"; "cultural festivals around world";
    "innovative technology startups" ].

(** [Search.generateNewsQueries], [Search.generateCommonQueries] and
    [Search.generateRandomTopicQueries]. *)
Definition generateNewsQueries (shuffleArray : list string -> list string)
    (rnd : Q) (year : Z) (monthName : string) : list string :=
  let selectedCount := 3 + Qfloor (rnd * 3)%Q in
  sliceTo selectedCount (shuffleArray (newsQueryPool year monthName)).

Definition generateCommonQueries (shuffleArray : list string -> list string)
    (rnd : Q) : list string :=
  let selectedCount := 2 + Qfloor (rnd * 3)%Q in
  sliceTo selectedCount (shuffleArray commonTopics).

Definition generateRandomTopicQueries
    (shuffleArray : list string -> list string) (rnd : Q) : list string :=
  let selectedCount := 2 + Qfloor (rnd * 2)%Q in
  sliceTo selectedCount (shuffleArray randomTopics).

(** *** Trend sources *)

(** An element of a hot-search list as the readers see it. *)
Inductive HotItem : Type :=
| MissingItem                       (* null or undefined: [item.word] throws *)
| HotWord (word : option string).   (* [item.word]; [None] when absent *)

(** An element of the parsed Google Trends response. *)
Record TrendEntry : Type := mkTrendEntry {
  entryTopic : string;                   (* query[0] *)
  entryRelated : option (list string)    (* query[9]; [None] = undefined *)
}.

(** What a request to Google Trends comes to: the request is rejected or
    [extractJsonFromResponse] finds nothing ([ReplyFailed]), or there is a
    parsed list. *)
Inductive TrendsReply : Type :=
| ReplyFailed
| ReplyParsed (entries : list TrendEntry).

(** [searchSettings.chinaRegionAdaptation] *)
Record ChinaConfig : Type := mkChinaConfig {
  enabled : bool;
  useBaiduTrends : bool;
  useWeiboTrends : bool;
  fallbackToLocalQueries : bool
}.

(** What the trend readers get from outside: the shuffle, the values of
    [Math.random()] in [generateChineseRelatedTerms] (per call), the content
    lists of Baidu and Weibo ([None]: the request or the parsing failed),
    the replies of Google Trends (per request and locale), the configuration
    and the date. *)
Record Feeds : Type := mkFeeds {
  feed_shuffle : list string -> list string;
  feed_random : nat -> Q;
  feed_baidu : option (list HotItem);
  feed_weibo : option (list HotItem);
  feed_google : nat -> string -> TrendsReply;
  feed_china : option ChinaConfig;
  feed_year : Z;
  feed_month : Z
}.

(** The [topics] of [Search.getChineseFallbackQueries]. *)
Definition chineseFallbackTopics (year month : Z) : list string :=
  (showNumber year ++ "年" ++ showNumber month ++ "月新闻")%string ::
  [
    "今日头条"; "热点新闻"; "国内新闻"; "国际新闻"; "财经新闻"; "科技新闻";
    "体育新闻"; "娱乐新闻"; "天气预报"; "美食推荐"; "旅游攻略"; "健康养生";
    "购物优惠"; "电影推荐"; "音乐排行榜"; "游戏攻略"; "人工智能"; "5G技术";
    "新能源汽车"; "手机评测"; "电脑配置"; "软件推荐"; "编程教程"; "区块链";
    "华为"; "小米"; "OPPO"; "vivo"; "比亚迪"; "特斯拉"; "抖音"; "微信";
    "支付宝"; "淘宝"; "京东"; "拼多多"; "考研"; "高考"; "英语学习";
    "编程学习"; "职业规划"; "面试技巧"; "股票行情"; "基金推荐"; "理财产品";
    "房价走势"; "黄金价格"; "减肥方法"; "护肤技巧"; "穿搭推荐"; "家居装修";
    "宠物养护"; "植物种植"; "美食制作"; "旅游景点"; "春节"; "中秋节";
    "国庆节"; "双十一"; "双十二" ].

Section TrendSources.

Variable feeds : Feeds.

(** [{ topic: w, related: this.generateChineseRelatedTerms(w) }], the
    [k]-th call of [generateChineseRelatedTerms]. *)
Definition chineseTrend (k : nat) (w : string) : GoogleSearch :=
  mkGoogleSearch w
    (generateChineseRelatedTerms (feed_shuffle feeds) (feed_random feeds k) w).

(** [topics.map(topic => ({ topic, related: ... }))] *)
Fixpoint trendsOf (k : nat) (topics : list string) : list GoogleSearch :=
  match topics with
  | [] => []
  | t :: rest => chineseTrend k t :: trendsOf (S k) rest
  end.

(** [Search.getChineseFallbackQueries] *)
Definition getChineseFallbackQueries (k : nat) : list GoogleSearch :=
  trendsOf k (chineseFallbackTopics (feed_year feeds) (feed_month feeds)).

(** [for (const item of items) { if (item.word) queryTerms.push(...) }]:
    reading [word] of a missing item throws; the handlers of both readers
    log it and go on to [return queryTerms], so what was pushed stays. *)
Fixpoint collectTrends (k : nat) (items : list HotItem) : list GoogleSearch :=
  match items with
  | [] => []
  | MissingItem :: _ => []
  | HotWord w :: rest =>
      match w with
      | Some t => if truthy w then chineseTrend k t :: collectTrends (S k) rest
                  else collectTrends k rest
      | None => collectTrends k rest
      end
  end.

(** [Search.getBaiduTrends] and [Search.getWeiboTrends]: the first 30
    entries of the content list, nothing when there is no list. *)
Definition getBaiduTrends (k : nat) : list GoogleSearch :=
  match feed_baidu feeds with
  | Some data => collectTrends k (sliceTo 30 data)
  | None => []
  end.

Definition getWeiboTrends (k : nat) : list GoogleSearch :=
  match feed_weibo feeds with
  | Some realtime => collectTrends k (sliceTo 30 realtime)
  | None => []
  end.

(** [Search.getChinaTrends].  Both readers catch their own errors, so the
    [catch] of this function is never entered. *)
Definition getChinaTrends (k : nat) : list GoogleSearch :=
  match feed_china feeds with
  | None => getChineseFallbackQueries k
  | Some chinaConfig =>
      if negb (enabled chinaConfig) then getChineseFallbackQueries k
      else
        let baiduTrends :=
          if useBaiduTrends chinaConfig then getBaiduTrends k else [] in
        let k1 := (k + List.length baiduTrends)%nat in
        let weiboTrends :=
          if useWeiboTrends chinaConfig then getWeiboTrends k1 else [] in
        let k2 := (k1 + List.length weiboTrends)%nat in
        let queryTerms := (baiduTrends ++ weiboTrends)%list in
        if fallbackToLocalQueries chinaConfig
           && (Z.of_nat (List.length queryTerms) <? 50)
        then (queryTerms ++ getChineseFallbackQueries k2)%list
        else queryTerms
  end.

(** [trendsData.map(query => [query[0], query[9]!.slice(1)])]; [None] when
    some [query[9]] is undefined (a [TypeError]). *)
Fixpoint mapTrends (entries : list TrendEntry) : option (list GoogleSearch) :=
  match entries with
  | [] => Some []
  | e :: rest =>
      match entryRelated e, mapTrends rest with
      | Some r, Some mapped =>
          Some (mkGoogleSearch (entryTopic e) (skipn 1 r) :: mapped)
      | _, _ => None
      end
  end.

(** [Search.getGoogleTrends]; [geoUpper] is [geoLocale.toUpperCase()], [n]
    the number of requests sent so far, and [fuel] bounds the depth of the
    recursion the model follows ([None]: cut off). *)
Fixpoint getGoogleTrends (fuel : nat) (n : nat) (geoUpper : string)
  : option (list GoogleSearch) :=
  match fuel with
  | O => None
  | S fuel' =>
      if String.eqb geoUpper "CN" || String.eqb geoUpper "ZH-CN"
      then Some (getChinaTrends O)
      else
        match feed_google feeds n geoUpper with
        | ReplyFailed => Some []
        | ReplyParsed trendsData =>
            match mapTrends trendsData with
            | None => Some []
            | Some mappedTrendsData =>
                if Z.of_nat (List.length mappedTrendsData) <? 90
                then getGoogleTrends fuel' (S n) "JP"
                else Some mappedTrendsData
            end
        end
  end.

End TrendSources.

(** Feeds with every outside source down and China adaptation configured
    with all sources and the local fallback. *)
Definition feedsDown : Feeds :=
  mkFeeds (fun xs => xs) (fun _ => (1 # 2)%Q) None None
          (fun _ _ => ReplyFailed)
          (Some (mkChinaConfig true true true true)) 2025 7.

(** Feeds whose Google Trends lists are always short: two entries. *)
Definition feedsShort : Feeds :=
  mkFeeds (fun xs => xs) (fun _ => (1 # 2)%Q) None None
          (fun _ _ => ReplyParsed
                        [mkTrendEntry "a" (Some ["a"; "a1"]);
                         mkTrendEntry "b" (Some ["b"; "b1"])])
          None 2025 7.

(** The shuffle permutes and [Math.random()] stays in range. *)
Definition feedsFair (feeds : Feeds) : Prop :=
  (forall xs, Permutation xs (feed_shuffle feeds xs))
  /\ forall k, (0 <= feed_random feeds k)%Q /\ (feed_random feeds k < 1)%Q.

(** A trend whose related terms are what [generateChineseRelatedTerms]
    promises: three to five distinct extensions of a non-empty topic. *)
Definition wellFormedTrend (g : GoogleSearch) : Prop :=
  topic g <> ""
  /\ (3 <= List.length (related g) <= 5)%nat
  /\ NoDup (related g)
  /\ forall t, In t (related g) ->
       String.prefix (topic g) t = true /\ t <> topic g.

(** The locale of the [i]-th request of one call of [getGoogleTrends]: the
    one asked for, then Japan. *)
Definition trendsRequest (geoUpper : string) (i : nat) : string :=
  match i with
  | O => geoUpper
  | S _ => "JP"
  end.

(** A reply that makes [getGoogleTrends] ask again: parsed and mapped, with
    fewer than 90 entries. *)
Definition shortReply (r : TrendsReply) : bool :=
  match r with
  | ReplyFailed => false
  | ReplyParsed trendsData =>
      match mapTrends trendsData with
      | Some mapped => Z.of_nat (List.length mapped) <? 90
      | None => false
      end
  end.

(** Feeds whose first Google Trends list is short and whose second
    request fails. *)
Definition feedsShortOnce : Feeds :=
  mkFeeds (fun xs => xs) (fun _ => (1 # 2)%Q) None None
          (fun n _ => if Nat.eqb n 0
                      then ReplyParsed [mkTrendEntry "a" (Some ["a"; "a1"])]
                      else ReplyFailed)
          None 2025 7.

(** The trend objects of a batch as elements of [allQueries]; each object
    is its own identity, numbered from [i]. *)
Fixpoint trendItems (i : nat) (gs : list GoogleSearch) : list SearchItem :=
  match gs with
  | [] => []
  | g :: rest => TrendQuery i g :: trendItems (S i) rest
  end.

(** [Search.generateFallbackDiversifiedQueries]; [geoUpper] is the
    upper-cased locale handed to [getGoogleTrends], [monthName] the month
    as [toLocaleDateString] prints it, and the three [rnd] are the values
    of [Math.random()] in the three generators.  With the locale at hand
    nothing inside the [try] throws, so its [catch] is not entered. *)
Definition generateFallbackDiversifiedQueries (feeds : Feeds) (fuel : nat)
    (geoUpper monthName : string) (rndNews rndCommon rndTopics : Q)
  : option (list SearchItem) :=
  match getGoogleTrends feeds fuel O geoUpper with
  | None => None
  | Some trendsQueries =>
      let trendsCount :=
        Qfloor (inject_Z (Z.of_nat (List.length trendsQueries)) * (5 # 10))%Q in
      let newsQueries :=
        generateNewsQueries (feed_shuffle feeds) rndNews (feed_year feeds)
                            monthName in
      let commonQueries := generateCommonQueries (feed_shuffle feeds) rndCommon in
      let randomQueries :=
        generateRandomTopicQueries (feed_shuffle feeds) rndTopics in
      Some (trendItems O (sliceTo trendsCount trendsQueries)
            ++ map PlainQuery newsQueries
            ++ map PlainQuery commonQueries
            ++ map PlainQuery randomQueries)%list
  end.

(** *** The enhanced search loop *)

(** The variables [doSearchWithEnhancedBehavior] carries from one
    iteration to the next. *)
Record Enhanced : Type := mkEnhanced {
  enhMissingPoints : Z;
  enhEarnedPoints : Z;
  enhMaxLoop : Z
}.

(** How the loop ends: the deficit reached zero, recovery mode was
    entered, or the queries (or the 30 minutes) ran out. *)
Inductive EnhancedExit : Type :=
| EnhancedComplete | EnhancedRecovery | EnhancedExhausted.

(** [const maxLoopLimit = this.bot.isMobile ? 8 : 12] *)
Definition enhancedMaxLoopLimit (isMobile : bool) : Z :=
  if isMobile then 8 else 12.

(** What one iteration does to the variables, from the deficit
    [newMissingPoints] its attempt reported (lines 3461-3517); the boolean
    tells whether [simulateUserConfusion] was called.  The simulated
    behaviours, the session break and the delay do not touch these
    variables. *)
Definition enhancedStep (isMobile : bool) (st : Enhanced)
    (newMissingPoints : Z) : Enhanced * bool * option EnhancedExit :=
  let pointsGained := enhMissingPoints st - newMissingPoints in
  let earnedPoints :=
    if pointsGained >? 0 then enhEarnedPoints st + pointsGained
    else enhEarnedPoints st in
  let maxLoop := if pointsGained >? 0 then 0 else enhMaxLoop st + 1 in
  let confused := negb (pointsGained >? 0) && (maxLoop =? 3) in
  if newMissingPoints =? 0
  then (mkEnhanced newMissingPoints earnedPoints maxLoop, confused,
        Some EnhancedComplete)
  else if maxLoop >? enhancedMaxLoopLimit isMobile
  then (mkEnhanced newMissingPoints earnedPoints 0, confused,
        Some EnhancedRecovery)
  else (mkEnhanced newMissingPoints earnedPoints maxLoop, confused, None).

(** The loop over the deficits the successive attempts report; the result
    carries the number of attempts made and of confusion simulations. *)
Fixpoint enhancedLoop (isMobile : bool) (deficits : list Z) (st : Enhanced)
  : Enhanced * EnhancedExit * nat * nat :=
  match deficits with
  | [] => (st, EnhancedExhausted, O, O)
  | newMissingPoints :: rest =>
      match enhancedStep isMobile st newMissingPoints with
      | (st', confused, Some exit) =>
          (st', exit, 1%nat, if confused then 1%nat else O)
      | (st', confused, None) =>
          match enhancedLoop isMobile rest st' with
          | (final, exit, attempts, confusions) =>
              (final, exit, S attempts,
               ((if confused then 1 else 0) + confusions)%nat)
          end
      end
  end.

(** *** The passkey loop of the login *)

(** [this.bot.config?.passkeyHandling]: [None] stands for an undefined
    field. *)
Record PasskeyHandling : Type := mkPasskeyHandling {
  passkeyEnabled : option bool;
  passkeyMaxAttempts : option Z
}.

(** What the driver does during one pass of the loop. *)
Record PasskeyPass : Type := mkPasskeyPass {
  onPasskeyPage : bool;      (* isPasskeySetupPage before the skip *)
  skipSucceeded : bool;      (* attemptPasskeySkip *)
  settleOk : bool;           (* waitForTimeout(3000) does not throw *)
  stillOnPasskey : bool      (* isPasskeySetupPage after the skip *)
}.

(** The [try] block of one pass: [Some b] for [return b], [None] when the
    loop goes on (also after an exception, which the [catch] only logs; the
    closing [waitForTimeout(2000)] goes on either way). *)
Definition passkeyPass (p : PasskeyPass) : option bool :=
  if negb (onPasskeyPage p) then Some false
  else if skipSucceeded p then
    if settleOk p then
      if negb (stillOnPasskey p) then Some true else None
    else None
  else None.

(** [this.bot.config?.passkeyHandling?.maxAttempts || 5] *)
Definition passkeyMaxAttemptsOr5 (config : PasskeyHandling) : Z :=
  match passkeyMaxAttempts config with
  | Some n => if n =? 0 then 5 else n
  | None => 5
  end.

(** [while (attempts < maxAttempts) { attempts++ ... }]; the result is the
    returned boolean and the final value of [attempts]; [None] when the
    fuel of the model runs out. *)
Fixpoint passkeyLoop (driver : Z -> PasskeyPass) (fuel : nat)
    (maxAttempts attempts : Z) : option (bool * Z) :=
  match fuel with
  | O => None
  | S fuel' =>
      if attempts <? maxAttempts then
        let attempts' := attempts + 1 in
        match passkeyPass (driver attempts') with
        | Some result => Some (result, attempts')
        | None => passkeyLoop driver fuel' maxAttempts attempts'
        end
      else Some (false, attempts)
  end.

(** [Login.handlePasskeySetupLoop] *)
Definition handlePasskeySetupLoop (config : PasskeyHandling)
    (driver : Z -> PasskeyPass) (fuel : nat) : option (bool * Z) :=
  match passkeyEnabled config with
  | Some false => Some (false, 0)
  | _ => passkeyLoop driver fuel (passkeyMaxAttemptsOr5 config) 0
  end.

(** A driver that always finds the passkey page and never gets past it. *)
Definition passkeyStuck : Z -> PasskeyPass :=
  fun _ => mkPasskeyPass true true true true.

(** *** The task runner of the desktop run *)

(** [for (const { name, enabled, task } of tasks) { ... }] of
    [executeDesktopTasks]: a disabled task is skipped, an exception of a
    task is logged and the loop goes on. *)
Fixpoint runTasks (tasks : list (bool * M unit)) : M unit :=
  match tasks with
  | [] => ret tt
  | (enabled, task) :: rest =>
      bind (if enabled : bool then tryCatch task (fun _ => ret tt) else ret tt)
           (fun _ => runTasks rest)
  end.

(** [config.workers] as far as [executeDesktopTasks] reads it. *)
Record Workers : Type := mkWorkers {
  doDailySet : bool;
  doMorePromotions : bool;
  doPunchCards : bool;
  doDesktopSearch : bool
}.

(** [MicrosoftRewardsBot.executeDesktopTasks]; the three tasks of
    [Workers] are outside the sources at hand and are arbitrary
    computations here. *)
Definition executeDesktopTasks (env : Env) (fuel : nat) (workers : Workers)
    (dailySet morePromotions punchCard : M unit) : M unit :=
  runTasks [ (doDailySet workers, dailySet);
             (doMorePromotions workers, morePromotions);
             (doPunchCards workers, punchCard);
             (doDesktopSearch workers,
              bind (doSearch env fuel) (fun _ => ret tt)) ].

(** *** The mobile run and its retries *)

(** The part of the configuration [Mobile] reads. *)
Record MobileConfig : Type := mkMobileConfig {
  retryMobileSearchAmount : option Z;   (* [None]: undefined *)
  runOnZeroPoints : bool;
  doMobileSearch : bool
}.

(** What the collaborators do during one invocation of [Mobile]; a
    boolean tells whether the calls return ([true]) or one of them throws. *)
Record MobileRun : Type := mkMobileRun {
  createBrowserOk : bool;     (* browserFactory.createBrowser *)
  setupOk : bool;             (* newPage, login, getMobileAccessToken, goHome,
                                 getDashboardData, get...EarnablePoints *)
  pointsCanCollect : Z;
  hasMobileSearch : bool;     (* data.userStatus.counters.mobileSearch *)
  workerPageOk : bool;        (* browser.newPage() *)
  workerHomeOk : bool;        (* goHome(workerPage) *)
  doSearchOk : bool;          (* activities.doSearch *)
  finalFetchOk : bool;        (* getSearchPoints after the searches *)
  finalMobileSearch : option DashboardImpression;
                              (* currentSearchCounters.mobileSearch?.[0] *)
  currentPointsOk : bool;     (* getCurrentPoints *)
  closeBrowserOk : bool       (* closeBrowser at the end of the try block *)
}.

Inductive MobileEvent : Type :=
| BrowserOpened (attempt : Z)
| BrowserClosed (attempt : Z)     (* closeBrowser called *)
| SearchStarted (attempt : Z)     (* activities.doSearch called *)
| RetryWait.                      (* utils.wait(5000) before a retry *)

Section MobileRetries.

Variable config : MobileConfig.
Variable runs : Z -> MobileRun.   (* by [retryCount] *)

(** [retryMobileSearchAmount !== undefined ? retryMobileSearchAmount : 2] *)
Definition maxRetries : Z :=
  match retryMobileSearchAmount config with
  | Some n => n
  | None => 2
  end.

(** [MicrosoftRewardsBot.performMobileSearches]; [retry] is the recursive
    call [this.Mobile(account, retryCount + 1)].  The value is whether the
    function returns ([true]) or throws, with the events it leaves;
    [None] when the model was cut off. *)
Definition performMobileSearches
    (retry : Z -> option (bool * list MobileEvent)) (retryCount : Z)
  : option (bool * list MobileEvent) :=
  let run := runs retryCount in
  if negb (hasMobileSearch run) then Some (true, [])
  else if negb (workerPageOk run) then Some (false, [])
  else if negb (workerHomeOk run) then Some (false, [])
  else if negb (doSearchOk run) then Some (false, [SearchStarted retryCount])
  else if negb (finalFetchOk run) then Some (false, [SearchStarted retryCount])
  else
    match finalMobileSearch run with
    | None => Some (true, [SearchStarted retryCount])
    | Some mobileSearchPoints =>
        let remainingPoints :=
          pointProgressMax mobileSearchPoints
          - pointProgress mobileSearchPoints in
        if remainingPoints >? 0 then
          if maxRetries =? 0 then Some (true, [SearchStarted retryCount])
          else if retryCount <? maxRetries then
            match retry (retryCount + 1) with
            | Some (returned, events) =>
                Some (returned,
                      SearchStarted retryCount :: RetryWait :: events)
            | None => None
            end
          else Some (true, [SearchStarted retryCount])
        else Some (true, [SearchStarted retryCount])
    end.

(** [MicrosoftRewardsBot.Mobile]; the daily check-in and read-to-earn sit
    in their own try/catch and leave no event. *)
Fixpoint Mobile (fuel : nat) (retryCount : Z)
  : option (bool * list MobileEvent) :=
  match fuel with
  | O => None
  | S fuel' =>
      let run := runs retryCount in
      if negb (createBrowserOk run) then Some (false, [])
      else if negb (setupOk run) then
        Some (false, [BrowserOpened retryCount; BrowserClosed retryCount])
      else if negb (runOnZeroPoints config) && (pointsCanCollect run =? 0) then
        if closeBrowserOk run
        then Some (true, [BrowserOpened retryCount; BrowserClosed retryCount])
        else Some (false, [BrowserOpened retryCount; BrowserClosed retryCount;
                           BrowserClosed retryCount])
      else
        match (if doMobileSearch config
               then performMobileSearches (Mobile fuel') retryCount
               else Some (true, [])) with
        | None => None
        | Some (_, events) =>
            if currentPointsOk run then
              if closeBrowserOk run
              then Some (true, BrowserOpened retryCount :: events
                               ++ [BrowserClosed retryCount])
              else Some (false, BrowserOpened retryCount :: events
                                ++ [BrowserClosed retryCount;
                                    BrowserClosed retryCount])
            else Some (false, BrowserOpened retryCount :: events
                              ++ [BrowserClosed retryCount])
        end
  end.

End MobileRetries.

Definition isSearchStarted (e : MobileEvent) : bool :=
  match e with SearchStarted _ => true | _ => false end.

Definition isBrowserOpened (e : MobileEvent) : bool :=
  match e with BrowserOpened _ => true | _ => false end.

Definition isBrowserClosed (e : MobileEvent) : bool :=
  match e with BrowserClosed _ => true | _ => false end.

(** A run in which everything works and the mobile counter stays at 0 of
    60. *)
Definition mobileRunStuck : MobileRun :=
  mkMobileRun true true 60 true true true true true
              (Some (mkImpression 0 60)) true true.

(** Whether an invocation of [Mobile] returns, read off its own steps. *)
Definition mobileOwnStepsOk (config : MobileConfig) (run : MobileRun) : bool :=
  createBrowserOk run && setupOk run
  && (if negb (runOnZeroPoints config) && (pointsCanCollect run =? 0)
      then closeBrowserOk run
      else currentPointsOk run && closeBrowserOk run).

Definition countEvents (p : MobileEvent -> bool) (events : list MobileEvent)
  : nat :=
  List.length (filter p events).

(** Browsers are opened (and searches made) first, and closed only
    afterwards; every browser opened has a call of [closeBrowser]. *)
Definition nested (events : list MobileEvent) : Prop :=
  exists opening closing,
    events = (opening ++ closing)%list
    /\ countEvents isBrowserClosed opening = O
    /\ countEvents isBrowserOpened closing = O
    /\ countEvents isSearchStarted closing = O
    /\ (countEvents isBrowserOpened opening
        <= countEvents isBrowserClosed closing)%nat.

(** *** Localized query generators *)

(** [LanguageConfig.searchQueries]; [None] stands for a missing category,
    which the generators read as the empty list ([|| []]). *)
Record SearchQueries : Type := mkSearchQueries {
  sq_news : option (list string);
  sq_common : option (list string);
  sq_tech : option (list string);
  sq_entertainment : option (list string);
  sq_sports : option (list string);
  sq_food : option (list string)
}.

Record LanguageConfig : Type := mkLanguageConfig {
  lang_code : string;
  lang_name : string;
  googleTrendsLocale : string;
  searchQueries : SearchQueries
}.

(** [xs || []] *)
Definition orEmpty (xs : option (list string)) : list string :=
  match xs with
  | Some l => l
  | None => []
  end.

(** The configuration [getLanguageConfigFromGeo] falls back to. *)
Definition fallbackLanguageConfig : LanguageConfig :=
  mkLanguageConfig "ja" "Japanese" "JP"
    (mkSearchQueries
       (Some ["最新ニュース"; "速報ニュース"; "世界のニュース"])
       (Some ["料理の作り方"; "おすすめレシピ"; "旅行先"])
       (Some ["人工知能"; "最新技術"; "スマートフォンレビュー"])
       (Some ["新作映画"; "テレビ番組"; "音楽ランキング"])
       (Some ["サッカー結果"; "バスケットボールニュース"; "スポーツハイライト"])
       (Some ["レストランレビュー"; "料理のコツ"; "ヘルシーレシピ"])).

(** [Search.generateLocalizedCommonQueries] *)
Definition generateLocalizedCommonQueries
    (shuffleArray : list string -> list string) (rnd : Q)
    (languageConfig : LanguageConfig) : list string :=
  let commonQueries := orEmpty (sq_common (searchQueries languageConfig)) in
  let foodQueries := orEmpty (sq_food (searchQueries languageConfig)) in
  let combinedQueries := (commonQueries ++ foodQueries)%list in
  let selectedCount := 3 + Qfloor (rnd * 3)%Q in
  sliceTo selectedCount (shuffleArray combinedQueries).

(** [Search.generateLocalizedTechEntertainmentQueries]; one value of
    [Math.random()] per category. *)
Definition generateLocalizedTechEntertainmentQueries
    (shuffleArray : list string -> list string) (rndTech rndShows rndSports : Q)
    (languageConfig : LanguageConfig) : list string :=
  let techQueries := orEmpty (sq_tech (searchQueries languageConfig)) in
  let entertainmentQueries :=
    orEmpty (sq_entertainment (searchQueries languageConfig)) in
  let sportsQueries := orEmpty (sq_sports (searchQueries languageConfig)) in
  let selectedTech :=
    sliceTo (1 + Qfloor (rndTech * 2)%Q) (shuffleArray techQueries) in
  let selectedEntertainment :=
    sliceTo (1 + Qfloor (rndShows * 2)%Q) (shuffleArray entertainmentQueries) in
  let selectedSports :=
    sliceTo (1 + Qfloor (rndSports * 2)%Q) (shuffleArray sportsQueries) in
  (selectedTech ++ selectedEntertainment ++ selectedSports)%list.

(** [Search.generateLocalizedNewsQueries]; [timeBased] is what
    [GeoLanguageDetector.generateTimeBasedQueries] returns, [None] when the
    import or the call throws. *)
Definition generateLocalizedNewsQueries
    (shuffleArray : list string -> list string) (rnd : Q) (year : Z)
    (timeBased : option (list string)) (languageConfig : LanguageConfig)
  : list string :=
  match timeBased with
  | Some timeBasedQueries =>
      let newsQueries := orEmpty (sq_news (searchQueries languageConfig)) in
      let combinedQueries := (timeBasedQueries ++ newsQueries)%list in
      let selectedCount := 4 + Qfloor (rnd * 3)%Q in
      sliceTo selectedCount (shuffleArray combinedQueries)
  | None =>
      [ (showNumber year ++ "年のニュース")%string; "今日の最新情報"; "速報";
        "世界情勢" ]
  end.

(** ** Vocabulary of the further properties *)

(** Every state [m] can leave is related by [R] to the state it started
    from. *)
Definition respects {A : Type} (R : State -> State -> Prop) (m : M A) : Prop :=
  forall w, R w (snd (m w)).

(** [Math.random()] answers within [[0,1)] every time [getSmartSearchDelay]
    asks. *)
Definition randomInRange (env : Env) : Prop :=
  forall k, (0 <= env_random env k)%Q /\ (env_random env k < 1)%Q.

(** A wait lasts between one second and six times the upper base delay. *)
Definition waitWithin (isMobile : bool) (e : Event) : Prop :=
  match e with
  | EvWait ms => 1000 <= ms <= baseMax isMobile * 6
  | _ => True
  end.

Definition isWait (e : Event) : bool :=
  match e with EvWait _ => true | _ => false end.

(** What a part of the worker keeps from [w] to [w']: a controller state
    that is reachable stays so, and the waits in between are within the
    bounds. *)
Definition paced (env : Env) (w w' : State) : Prop :=
  pacingReachable (pacing w) ->
  pacingReachable (pacing w')
  /\ extendsTrace (waitWithin (bot_isMobile env)) w w'.

(** [m] adds at most [n] attempts to the trace, and removes none. *)
Definition searchesAtMost {A : Type} (n : nat) (m : M A) : Prop :=
  forall w, (searchCount (trace w) <= searchCount (trace (snd (m w)))
             <= searchCount (trace w) + n)%nat.

(** From [w] to [w'] the progress was fetched once or twice, and [c] is
    what the last of these fetches answered (the empty counters when it
    failed). *)
Definition lastFetch (env : Env) (w w' : State) (c : Counters) : Prop :=
  (calls w OpGetSearchPoints < calls w' OpGetSearchPoints
   <= calls w OpGetSearchPoints + 2)%nat
  /\ c = match env_points env (pred (calls w' OpGetSearchPoints)) with
         | Some fetched => fetched
         | None => emptyCounters
         end.

(** A desktop run whose contextual follow-ups come from
    [generateContextualSearches] for a Japanese profile, with an identity
    shuffle and [Math.random()] always answering 0. *)
Definition envFollowUp : Env :=
  mkEnv false (fun _ => Some desktopInProgress)
        (fun _ => mkTryStep ReachedPointsFetch 1000)
        (fun _ => 0%Q) (fun _ => true)
        (fun _ base =>
           generateContextualSearches (fun xs => xs) 0 base
             (contextLanguage (Some "JP")))
        (fun _ _ => ["a"; "b"; "c"; "d"]) (fun _ => [PlainQuery "x"])
        (fun _ => true) true (Some plainPlan) (fun xs => xs) true.

(** A desktop run in which nothing fails, the points never move and the
    supplementary batches come from [generateAdditionalQueries] on
    14 July 2025, with [Math.random()] always answering 0.5. *)
Definition envAdditional : Env :=
  mkEnv false (fun _ => Some desktopInProgress)
        (fun _ => mkTryStep ReachedPointsFetch 5000)
        (fun _ => (1 # 2)%Q) (fun _ => false) (fun _ _ => [])
        (fun _ _ => ["a"; "b"; "c"; "d"])
        (fun _ => map PlainQuery
                    (generateAdditionalQueries 2025 7 14 (fun _ => (1 # 2)%Q)))
        (fun _ => true) true (Some plainPlan) (fun xs => xs) true.

(** * Properties *)

(** ** Deficit computation *)

Lemma calculatePoints_totalMissing (isMobile : bool) (counters : Counters) :
  calculatePoints isMobile counters
  = totalMissing (countersRead isMobile counters).
Proof.
  unfold calculatePoints, countersRead.
  destruct isMobile, (optIndex (mobileSearch counters) 0) as [m|];
    destruct (optIndex (pcSearch counters) 0) as [g|],
             (optIndex (pcSearch counters) 1) as [e|];
    cbn; lia.
Qed.

Lemma totalMissing_nonneg (ds : list DashboardImpression) :
  Forall withinMax ds -> 0 <= totalMissing ds.
Proof.
  induction 1 as [|d ds Hd _ IH]; unfold totalMissing in *; cbn; [lia|].
  unfold withinMax in Hd. lia.
Qed.

(** C1, as stated, fails: a counter whose [pointProgress] exceeds its
    [pointProgressMax] makes [calculatePoints] negative, on mobile and on
    desktop alike; nothing is clamped at 0. *)
Lemma calculatePoints_overshoot_negative :
  calculatePoints true overshootCounters = -5
  /\ calculatePoints true overshootCounters <> Z.max 0 (30 - 35)
  /\ calculatePoints false overshootDesktop = -5
  /\ ~ (forall isMobile counters, 0 <= calculatePoints isMobile counters).
Proof.
  repeat split; try reflexivity; try discriminate.
  intros H. specialize (H true overshootCounters). cbn in H. lia.
Qed.

(** C1, amended: [calculatePoints] is the plain sum of
    [pointProgressMax - pointProgress] over the counters it reads (the first
    mobile counter on mobile when there is one, otherwise the first two PC
    counters); it is non-negative whenever none of those counters reports
    more progress than its maximum. *)
Theorem calculatePoints_nonneg_within_max (isMobile : bool) (counters : Counters) :
  Forall withinMax (countersRead isMobile counters) ->
  calculatePoints isMobile counters
  = totalMissing (countersRead isMobile counters)
  /\ 0 <= calculatePoints isMobile counters.
Proof.
  intros H. split.
  - apply calculatePoints_totalMissing.
  - rewrite calculatePoints_totalMissing. now apply totalMissing_nonneg.
Qed.

Lemma calculatePoints_nonneg_within_max_witness :
  Forall withinMax (countersRead false desktopInProgress)
  /\ calculatePoints false desktopInProgress = 60
  /\ 0 <= calculatePoints false desktopInProgress.
Proof.
  assert (H : Forall withinMax (countersRead false desktopInProgress)).
  { cbn. repeat constructor; unfold withinMax; cbn; lia. }
  split; [exact H|].
  destruct (calculatePoints_nonneg_within_max false desktopInProgress H)
    as [_ Hnn].
  split; [reflexivity | exact Hnn].
Defined.

(** ** Pacing *)

Section PacingBounds.

Local Open Scope Q_scope.

Lemma pacing_invariant (p : Pacing) :
  pacingReachable p ->
  (0 <= consecutiveFailures p)%Z
  /\ exists k : Z, (10 <= k <= 20)%Z
       /\ adaptiveDelayMultiplier p * 10 == inject_Z k.
Proof.
  induction 1 as [|p _ [Hcf [k [Hk Ham]]]|p _ [Hcf [k [Hk Ham]]]].
  - split; [cbn; lia|]. exists 10%Z. split; [lia|]. cbn. reflexivity.
  - split; [cbn; lia|]. cbn [handleSearchFailure adaptiveDelayMultiplier].
    destruct (Q.min_spec 2 (adaptiveDelayMultiplier p + (2 # 10))) as [[Hlt Heq]|[Hle Heq]].
    + exists 20%Z. split; [lia|]. rewrite Heq. reflexivity.
    + exists (k + 2)%Z. rewrite Heq. split.
      * assert (H18 : inject_Z k <= inject_Z 18) by (change (inject_Z 18) with 18; lra).
        rewrite <- Zle_Qle in H18. lia.
      * rewrite inject_Z_plus. change (inject_Z 2) with 2. lra.
  - split; [cbn; lia|]. cbn [handleSearchSuccess adaptiveDelayMultiplier].
    destruct (Qlt_le_dec 1 (adaptiveDelayMultiplier p)) as [Hgt|Hle].
    + destruct (Q.max_spec 1 (adaptiveDelayMultiplier p - (1 # 10))) as [[Hlt Heq]|[Hle Heq]].
      * exists (k - 1)%Z. rewrite Heq. split.
        -- assert (H11 : inject_Z 11 <= inject_Z k) by (change (inject_Z 11) with 11; lra).
           rewrite <- Zle_Qle in H11. lia.
        -- unfold Z.sub. rewrite inject_Z_plus. change (inject_Z (- (1))) with (- (1)). lra.
      * exists 10%Z. split; [lia|]. rewrite Heq. reflexivity.
    + exists k. split; [lia | exact Ham].
Qed.

Lemma failureMultiplier_halves (p : Pacing) :
  (0 <= consecutiveFailures p)%Z ->
  exists m : Z, (2 <= m <= 6)%Z /\ failureMultiplier p * 2 == inject_Z m.
Proof.
  intros Hcf. unfold failureMultiplier.
  set (cf := consecutiveFailures p) in *.
  assert (Hq : 0 <= inject_Z cf)
    by (change 0 with (inject_Z 0); rewrite <- Zle_Qle; exact Hcf).
  destruct (Q.min_spec (1 + inject_Z cf * (5 # 10)) 3) as [[Hlt Heq]|[Hle Heq]].
  - exists (cf + 2)%Z. split.
    + assert (H4 : inject_Z cf <= inject_Z 4)
        by (change (inject_Z 4) with 4; lra).
      rewrite <- Zle_Qle in H4. lia.
    + rewrite Heq, inject_Z_plus. change (inject_Z 2) with 2. lra.
  - exists 6%Z. split; [lia | rewrite Heq; reflexivity].
Qed.

Lemma floor_of_scaled_random (rnd : Q) (N : Z) :
  0 <= rnd -> rnd < 1 -> (1 <= N)%Z ->
  (0 <= Qfloor (rnd * inject_Z N) <= N - 1)%Z.
Proof.
  intros H0 H1 HN.
  assert (HNq : 1 <= inject_Z N)
    by (change 1 with (inject_Z 1); rewrite <- Zle_Qle; exact HN).
  split.
  - change 0%Z with (Qfloor 0). apply Qfloor_resp_le. nra.
  - assert (Hlt : inject_Z (Qfloor (rnd * inject_Z N)) < inject_Z N).
    { apply Qle_lt_trans with (rnd * inject_Z N); [apply Qfloor_le | nra]. }
    rewrite <- Zlt_Qlt in Hlt. lia.
Qed.

Lemma scaled_delay_integral (b fm am : Q) (c m k : Z) :
  b == inject_Z c * 20 -> fm * 2 == inject_Z m -> am * 10 == inject_Z k ->
  b * fm * am == inject_Z (c * m * k).
Proof.
  intros Hb Hm Hk. rewrite !inject_Z_mult, <- Hm, <- Hk, Hb. ring.
Qed.

Lemma delay_between (bmin bmax : Z) (cmin cmax : Z) (fm am rnd : Q) (m k : Z) :
  (bmin = cmin * 20)%Z -> (bmax = cmax * 20)%Z -> (0 < cmin <= cmax)%Z ->
  (2 <= m <= 6)%Z -> (10 <= k <= 20)%Z ->
  fm * 2 == inject_Z m -> am * 10 == inject_Z k ->
  0 <= rnd -> rnd < 1 ->
  let adjustedMin := inject_Z bmin * fm * am in
  let adjustedMax := inject_Z bmax * fm * am in
  let delay := inject_Z (Qfloor (rnd * (adjustedMax - adjustedMin + 1))) + adjustedMin in
  inject_Z bmin * 1 <= delay /\ delay <= inject_Z bmax * 3 * 2.
Proof.
  intros Hbmin Hbmax Hc Hm Hk Hfm Ham Hr0 Hr1 adjustedMin adjustedMax delay.
  assert (Emin : adjustedMin == inject_Z (cmin * m * k)).
  { apply scaled_delay_integral; [|assumption..].
    subst bmin. rewrite inject_Z_mult. reflexivity. }
  assert (Emax : adjustedMax == inject_Z (cmax * m * k)).
  { apply scaled_delay_integral; [|assumption..].
    subst bmax. rewrite inject_Z_mult. reflexivity. }
  set (N := (cmax * m * k - cmin * m * k + 1)%Z).
  assert (EN : adjustedMax - adjustedMin + 1 == inject_Z N).
  { rewrite Emin, Emax. unfold N, Z.sub.
    rewrite !inject_Z_plus, inject_Z_opp. reflexivity. }
  assert (HN : (1 <= N)%Z) by (unfold N; nia).
  pose proof (floor_of_scaled_random rnd N Hr0 Hr1 HN) as [Hf0 Hf1].
  assert (Ed : delay == inject_Z (Qfloor (rnd * inject_Z N) + cmin * m * k)).
  { unfold delay. rewrite EN, Emin, inject_Z_plus. reflexivity. }
  rewrite Ed. split.
  - rewrite Qmult_1_r, <- Zle_Qle.
    assert (Hmk : (20 <= m * k)%Z) by nia.
    assert (Hc' : (cmin * 20 <= cmin * (m * k))%Z)
      by (apply Z.mul_le_mono_nonneg_l; lia).
    subst bmin. lia.
  - change 3 with (inject_Z 3). change 2 with (inject_Z 2).
    rewrite <- !inject_Z_mult, <- Zle_Qle.
    assert (HNdef : N = (cmax * m * k - cmin * m * k + 1)%Z) by reflexivity.
    clearbody N.
    assert (Hmk : (m * k <= 120)%Z) by nia.
    assert (Hc' : (cmax * (m * k) <= cmax * 120)%Z)
      by (apply Z.mul_le_mono_nonneg_l; lia).
    subst bmax. lia.
Qed.



End PacingBounds.

(** ** Query planning *)

Lemma sameValueZero_key (a b : SearchItem) :
  sameValueZero a b = true <-> itemKey a = itemKey b.
Proof.
  destruct a as [s|r g], b as [t|r' g']; cbn; split; intros H;
    try discriminate.
  - apply String.eqb_eq in H. now subst.
  - injection H as ->. apply String.eqb_refl.
  - apply Nat.eqb_eq in H. now subst.
  - injection H as ->. apply Nat.eqb_refl.
Qed.

Lemma sameValueZero_false_sym (a b : SearchItem) :
  sameValueZero a b = false -> sameValueZero b a = false.
Proof.
  intros H. destruct (sameValueZero b a) eqn:E; [|reflexivity].
  apply sameValueZero_key in E. symmetry in E.
  apply sameValueZero_key in E. congruence.
Qed.

Lemma setFromArray_in (xs seen : list SearchItem) (y : SearchItem) :
  In y (setFromArray seen xs) ->
  In y xs /\ existsb (sameValueZero y) seen = false.
Proof.
  revert seen. induction xs as [|x rest IH]; intros seen Hin; cbn in Hin.
  - contradiction.
  - destruct (existsb (sameValueZero x) seen) eqn:Eseen.
    + destruct (IH _ Hin) as [H1 H2]. split; [now right | exact H2].
    + destruct Hin as [<-|Hin].
      * split; [now left | exact Eseen].
      * destruct (IH _ Hin) as [H1 H2]. split; [now right|].
        cbn in H2. apply orb_false_iff in H2. tauto.
Qed.

Lemma setFromArray_distinct (xs seen : list SearchItem) :
  pairwiseDistinct (setFromArray seen xs).
Proof.
  revert seen. induction xs as [|x rest IH]; intros seen; cbn.
  - constructor.
  - destruct (existsb (sameValueZero x) seen) eqn:Eseen; [apply IH|].
    constructor; [|apply IH].
    apply Forall_forall. intros y Hy.
    apply setFromArray_in in Hy. destruct Hy as [_ Hy].
    cbn in Hy. apply orb_false_iff in Hy.
    apply sameValueZero_false_sym. tauto.
Qed.

Lemma setFromArray_covers (xs seen : list SearchItem) (x : SearchItem) :
  In x xs ->
  existsb (sameValueZero x) seen = true
  \/ exists y, In y (setFromArray seen xs) /\ sameValueZero x y = true.
Proof.
  revert seen. induction xs as [|a rest IH]; intros seen Hin; [contradiction|].
  cbn. destruct (existsb (sameValueZero a) seen) eqn:Eseen.
  - destruct Hin as [->|Hin]; [now left|].
    apply IH; exact Hin.
  - destruct Hin as [->|Hin].
    + right. exists x. split; [now left|].
      apply sameValueZero_key. reflexivity.
    + destruct (IH (a :: seen) Hin) as [Hs|[y [Hy Hxy]]].
      * cbn in Hs. apply orb_true_iff in Hs. destruct Hs as [Hs|Hs].
        -- right. exists a. split; [now left | exact Hs].
        -- now left.
      * right. exists y. split; [now right | exact Hxy].
Qed.

Lemma in_plainTexts (xs : list SearchItem) (s : string) :
  In s (plainTexts xs) <-> In (PlainQuery s) xs.
Proof.
  unfold plainTexts. rewrite in_flat_map. split.
  - intros [x [Hx Hs]]. destruct x as [t|r g]; cbn in Hs; [|contradiction].
    destruct Hs as [->|[]]. exact Hx.
  - intros H. exists (PlainQuery s). split; [exact H | now left].
Qed.

Lemma pairwiseDistinct_plainTexts (xs : list SearchItem) :
  pairwiseDistinct xs -> NoDup (plainTexts xs).
Proof.
  induction 1 as [|x rest Hx _ IH]; cbn; [constructor|].
  destruct x as [s|r g]; cbn; [|exact IH].
  constructor; [|exact IH].
  intros Hin. apply in_plainTexts in Hin.
  rewrite Forall_forall in Hx. specialize (Hx _ Hin).
  cbn in Hx. rewrite String.eqb_refl in Hx. discriminate.
Qed.

Lemma flatten_all_plain (isMobile : bool) (xs : list SearchItem) :
  forallb isPlain xs = true -> flattenQueries isMobile xs = plainTexts xs.
Proof.
  induction xs as [|x rest IH]; cbn; [reflexivity|].
  intros H. apply andb_true_iff in H. destruct H as [Hx Hrest].
  destruct x; [|discriminate]. cbn. f_equal. apply IH, Hrest.
Qed.

Lemma forallb_incl {A} (f : A -> bool) (xs ys : list A) :
  (forall y, In y ys -> In y xs) -> forallb f xs = true -> forallb f ys = true.
Proof.
  intros Hincl H. rewrite forallb_forall in *. auto.
Qed.

(** C8, amended: after the single shuffle the plan is passed through a
    [Set]: no two of its elements are the same [Set] element, so no plain
    string occurs twice in it (exact, case-sensitive match), every generated
    query survives in the plan and nothing is added; when the plan holds
    plain strings only, no text occurs twice in the flattened query
    sequence, on either device class. *)
Theorem dedupe_plain_queries_unique
    (shuffleArray : list SearchItem -> list SearchItem)
    (generated : list SearchItem) :
  (forall xs, Permutation xs (shuffleArray xs)) ->
  let plan := dedupe (shuffleArray generated) in
  pairwiseDistinct plan
  /\ NoDup (plainTexts plan)
  /\ (forall y, In y plan -> In y generated)
  /\ (forall x, In x generated ->
        exists y, In y plan /\ sameValueZero x y = true)
  /\ (forallb isPlain generated = true ->
      forall isMobile, NoDup (planQueries shuffleArray isMobile generated)).
Proof.
  intros Hperm plan.
  assert (Hsub : forall y, In y plan -> In y generated).
  { intros y Hy. apply setFromArray_in in Hy. destruct Hy as [Hy _].
    eapply Permutation_in; [apply Permutation_sym, Hperm | exact Hy]. }
  split; [apply setFromArray_distinct|].
  split; [apply pairwiseDistinct_plainTexts, setFromArray_distinct|].
  split; [exact Hsub|]. split.
  - intros x Hx.
    assert (Hx' : In x (shuffleArray generated))
      by (eapply Permutation_in; [apply Hperm | exact Hx]).
    destruct (setFromArray_covers _ [] x Hx') as [H|H];
      [discriminate | exact H].
  - intros Hplain isMobile. unfold planQueries. fold plan.
    rewrite flatten_all_plain.
    + apply pairwiseDistinct_plainTexts, setFromArray_distinct.
    + eapply forallb_incl; [exact Hsub | exact Hplain].
Qed.

Lemma dedupe_plain_queries_unique_witness :
  (forall xs, Permutation xs (@rev SearchItem xs))
  /\ NoDup (plainTexts (dedupe (rev plainPlan)))
  /\ planQueries (@rev SearchItem) true plainPlan
     = ["Fitness Tips"; "latest technology news"; "fitness tips"].
Proof.
  split; [intros xs; apply Permutation_rev|].
  split; [|reflexivity].
  apply (dedupe_plain_queries_unique (@rev SearchItem) plainPlan).
  intros xs; apply Permutation_rev.
Defined.

(** C8, as stated, fails: the de-duplication runs before the flattening
    and compares objects by identity, so the flattened sequence repeats a
    text when two trends share a related term (desktop) or when a plain
    query equals the topic of a trend (mobile); and the main loop may
    replace a planned query by a contextual follow-up of the last
    successful one, which can be that very text again. *)
Lemma planQueries_repeats_text :
  planQueries (fun xs => xs) false overlappingTrends
  = ["world cup"; "world cup schedule"; "football"; "world cup schedule"]
  /\ ~ NoDup (planQueries (fun xs => xs) false overlappingTrends)
  /\ planQueries (fun xs => xs) true plainAndTrend
     = ["weather forecast today"; "weather forecast today"]
  /\ ~ NoDup (planQueries (fun xs => xs) true plainAndTrend)
  /\ submittedQueries
       (trace (snd (searchLoop envContextual 0 ["alpha"; "beta"]
                      (initialLocals 60) initialState)))
     = ["alpha"; "alpha"].
Proof.
  split; [reflexivity|]. split.
  - intros H. cbn in H. inversion H as [|? ? _ H1]; subst.
    inversion H1 as [|? ? Hn _]; subst. apply Hn. cbn. tauto.
  - split; [reflexivity|]. split; [|vm_compute; reflexivity].
    intros H. cbn in H. inversion H as [|? ? Hn _]; subst. apply Hn. cbn. tauto.
Qed.

(** ** Laws of the effect layer *)

Create HintDb effects.

Section EffectLaws.

Context {A B : Type}.

Lemma noThrow_ret (a : A) : noThrow (ret a).
Proof. intros w e. discriminate. Qed.

Lemma noDiverge_ret (a : A) : noDiverge (ret a).
Proof. intros w. discriminate. Qed.

Lemma noDiverge_throw (e : string) : noDiverge (@throw A e).
Proof. intros w. discriminate. Qed.

Lemma noThrow_bind (m : M A) (k : A -> M B) :
  noThrow m -> (forall a, noThrow (k a)) -> noThrow (bind m k).
Proof.
  intros Hm Hk w e. unfold bind.
  specialize (Hm w). destruct (m w) as [[a|e'|] w']; cbn in *.
  - apply Hk.
  - now destruct (Hm e').
  - discriminate.
Qed.

Lemma noDiverge_bind (m : M A) (k : A -> M B) :
  noDiverge m -> (forall a, noDiverge (k a)) -> noDiverge (bind m k).
Proof.
  intros Hm Hk w. unfold bind.
  specialize (Hm w). destruct (m w) as [[a|e'|] w']; cbn in *.
  - apply Hk.
  - discriminate.
  - now destruct Hm.
Qed.

Lemma noThrow_tryCatch (m : M A) (h : string -> M A) :
  (forall e, noThrow (h e)) -> noThrow (tryCatch m h).
Proof.
  intros Hh w e. unfold tryCatch.
  destruct (m w) as [[a|e'|] w'] eqn:E; cbn; try discriminate.
  apply Hh.
Qed.

Lemma noDiverge_tryCatch (m : M A) (h : string -> M A) :
  noDiverge m -> (forall e, noDiverge (h e)) -> noDiverge (tryCatch m h).
Proof.
  intros Hm Hh w. unfold tryCatch.
  specialize (Hm w). destruct (m w) as [[a|e'|] w']; cbn in *;
    try discriminate.
  - apply Hh.
  - now destruct Hm.
Qed.

Lemma total_of_safe (m : M A) : noThrow m -> noDiverge m -> total m.
Proof.
  intros Ht Hd w. specialize (Ht w). specialize (Hd w).
  destruct (m w) as [[a|e|] w']; cbn in *.
  - now exists a, w'.
  - now destruct (Ht e).
  - now destruct Hd.
Qed.

Lemma ensures_noThrow (Q : A -> Prop) (m : M A) : ensures Q m -> noThrow m.
Proof.
  intros H w e E. specialize (H w). rewrite E in H. exact H.
Qed.

Lemma noThrow_ensures (m : M A) : noThrow m -> ensures (fun _ => True) m.
Proof.
  intros H w. specialize (H w). destruct (fst (m w)) as [a|e|]; auto.
  now apply (H e).
Qed.

Lemma ensures_ret (Q : A -> Prop) (a : A) : Q a -> ensures Q (ret a).
Proof. intros H w. exact H. Qed.

Lemma ensures_bind (P : A -> Prop) (Q : B -> Prop) (m : M A) (k : A -> M B) :
  ensures P m -> (forall a, P a -> ensures Q (k a)) -> ensures Q (bind m k).
Proof.
  intros Hm Hk w. unfold bind.
  specialize (Hm w). destruct (m w) as [[a|e|] w']; cbn in *.
  - now apply Hk.
  - exact Hm.
  - exact I.
Qed.

Lemma keepsCalls_ret (op : Op) (a : A) : keepsCalls op (ret a).
Proof. intros w. reflexivity. Qed.

Lemma keepsCalls_throw (op : Op) (e : string) : keepsCalls op (@throw A e).
Proof. intros w. reflexivity. Qed.

Lemma keepsCalls_bind (op : Op) (m : M A) (k : A -> M B) :
  keepsCalls op m -> (forall a, keepsCalls op (k a)) -> keepsCalls op (bind m k).
Proof.
  intros Hm Hk w. unfold bind.
  specialize (Hm w). destruct (m w) as [[a|e|] w']; cbn in *; try exact Hm.
  rewrite Hk. exact Hm.
Qed.

Lemma keepsCalls_tryCatch (op : Op) (m : M A) (h : string -> M A) :
  keepsCalls op m -> (forall e, keepsCalls op (h e)) ->
  keepsCalls op (tryCatch m h).
Proof.
  intros Hm Hh w. unfold tryCatch.
  specialize (Hm w). destruct (m w) as [[a|e|] w']; cbn in *; try exact Hm.
  rewrite Hh. exact Hm.
Qed.

Lemma callsAtMost_bind (op : Op) (n1 n2 : nat) (m : M A) (k : A -> M B) :
  callsAtMost op n1 m -> (forall a, callsAtMost op n2 (k a)) ->
  callsAtMost op (n1 + n2) (bind m k).
Proof.
  intros Hm Hk w. unfold bind.
  specialize (Hm w). destruct (m w) as [[a|e|] w']; cbn in *; try lia.
  specialize (Hk a w'). lia.
Qed.

Lemma callsAtMost_keeps (op : Op) (m : M A) :
  keepsCalls op m -> callsAtMost op 0 m.
Proof. intros H w. rewrite H. lia. Qed.

End EffectLaws.

#[local] Hint Resolve noThrow_ret noDiverge_ret noDiverge_throw noThrow_bind
  noDiverge_bind noThrow_tryCatch noDiverge_tryCatch : effects.

Ltac effects :=
  repeat first
    [ progress intros
    | solve [auto with effects]
    | progress cbv zeta
    | apply noThrow_ret | apply noDiverge_ret | apply noDiverge_throw
    | apply keepsCalls_ret | apply keepsCalls_throw
    | apply noThrow_tryCatch | apply noDiverge_tryCatch
    | apply keepsCalls_tryCatch
    | apply noThrow_bind | apply noDiverge_bind | apply keepsCalls_bind
    | match goal with
      | |- noThrow (if ?b then _ else _) => destruct b
      | |- noDiverge (if ?b then _ else _) => destruct b
      | |- noThrow (match ?x with _ => _ end) => destruct x
      | |- noDiverge (match ?x with _ => _ end) => destruct x
      | |- keepsCalls _ (if ?b then _ else _) => destruct b
      | |- keepsCalls _ (match ?x with _ => _ end) => destruct x
      end ].

Section WorkerSafety.

Variable env : Env.

Lemma noThrow_emit e : noThrow (emit e).
Proof. intros w x. discriminate. Qed.
Lemma noDiverge_emit e : noDiverge (emit e).
Proof. intros w. discriminate. Qed.
Lemma noThrow_tick op : noThrow (tick op).
Proof. intros w x. discriminate. Qed.
Lemma noDiverge_tick op : noDiverge (tick op).
Proof. intros w. discriminate. Qed.
Lemma noThrow_dateNow : noThrow dateNow.
Proof. intros w x. discriminate. Qed.
Lemma noDiverge_dateNow : noDiverge dateNow.
Proof. intros w. discriminate. Qed.
Lemma noThrow_advance ms : noThrow (advance ms).
Proof. intros w x. discriminate. Qed.
Lemma noDiverge_advance ms : noDiverge (advance ms).
Proof. intros w. discriminate. Qed.
Lemma noThrow_wait ms : noThrow (wait ms).
Proof. intros w x. discriminate. Qed.
Lemma noDiverge_wait ms : noDiverge (wait ms).
Proof. intros w. discriminate. Qed.
Lemma noThrow_getPacing : noThrow getPacing.
Proof. intros w x. discriminate. Qed.
Lemma noDiverge_getPacing : noDiverge getPacing.
Proof. intros w. discriminate. Qed.
Lemma noThrow_modifyPacing f : noThrow (modifyPacing f).
Proof. intros w x. discriminate. Qed.
Lemma noDiverge_modifyPacing f : noDiverge (modifyPacing f).
Proof. intros w. discriminate. Qed.

Hint Resolve noThrow_emit noDiverge_emit noThrow_tick noDiverge_tick
  noThrow_dateNow noDiverge_dateNow noThrow_advance noDiverge_advance
  noThrow_wait noDiverge_wait noThrow_getPacing noDiverge_getPacing
  noThrow_modifyPacing noDiverge_modifyPacing : effects.

Lemma noDiverge_getSearchPoints site : noDiverge (getSearchPoints env site).
Proof. unfold getSearchPoints. effects. Qed.

Lemma noThrow_getSearchPoints site :
  pointsAlways env -> noThrow (getSearchPoints env site).
Proof.
  intros H. unfold getSearchPoints.
  apply noThrow_bind; [auto with effects|]. intros k.
  apply noThrow_bind; [auto with effects|]. intros _.
  specialize (H k). destruct (env_points env k); [effects | congruence].
Qed.

Lemma noThrow_getEmptySearchCounters : noThrow (getEmptySearchCounters env).
Proof. unfold getEmptySearchCounters. effects. Qed.

Lemma noDiverge_getEmptySearchCounters : noDiverge (getEmptySearchCounters env).
Proof.
  unfold getEmptySearchCounters. effects.
Qed.

Hint Resolve noDiverge_getSearchPoints noThrow_getEmptySearchCounters
  noDiverge_getEmptySearchCounters : effects.

Lemma noThrow_bingSearchTry i : noThrow (bingSearchTry env i).
Proof. unfold bingSearchTry. effects. Qed.

Lemma noDiverge_bingSearchTry i : noDiverge (bingSearchTry env i).
Proof. unfold bingSearchTry. effects. Qed.

Hint Resolve noThrow_bingSearchTry noDiverge_bingSearchTry : effects.

Lemma noThrow_bingSearchLoop remaining i :
  noThrow (bingSearchLoop env remaining i).
Proof.
  revert i. induction remaining as [|r IH]; intros i; cbn; effects.
Qed.

Lemma noDiverge_bingSearchLoop remaining i :
  noDiverge (bingSearchLoop env remaining i).
Proof.
  revert i. induction remaining as [|r IH]; intros i; cbn; effects.
Qed.

Hint Resolve noThrow_bingSearchLoop noDiverge_bingSearchLoop : effects.

Lemma noThrow_bingSearch query : noThrow (bingSearch env query).
Proof. unfold bingSearch. effects. Qed.

Lemma noDiverge_bingSearch query : noDiverge (bingSearch env query).
Proof. unfold bingSearch. effects. Qed.

Lemma total_bingSearch query : total (bingSearch env query).
Proof.
  apply total_of_safe; [apply noThrow_bingSearch | apply noDiverge_bingSearch].
Qed.

Lemma keepsCalls_emit op e : keepsCalls op (emit e).
Proof. intros w. reflexivity. Qed.
Lemma keepsCalls_dateNow op : keepsCalls op dateNow.
Proof. intros w. reflexivity. Qed.
Lemma keepsCalls_advance op ms : keepsCalls op (advance ms).
Proof. intros w. reflexivity. Qed.
Lemma keepsCalls_wait op ms : keepsCalls op (wait ms).
Proof. intros w. reflexivity. Qed.
Lemma keepsCalls_getPacing op : keepsCalls op getPacing.
Proof. intros w. reflexivity. Qed.
Lemma keepsCalls_modifyPacing op f : keepsCalls op (modifyPacing f).
Proof. intros w. reflexivity. Qed.

Lemma keepsCalls_tick op op' : Op_eqb op op' = false -> keepsCalls op (tick op').
Proof. intros H w. cbn. now rewrite H. Qed.

Hint Resolve keepsCalls_emit keepsCalls_dateNow keepsCalls_advance
  keepsCalls_wait keepsCalls_getPacing keepsCalls_modifyPacing : effects.

Lemma keepsCalls_tries_getSearchPoints site :
  keepsCalls OpTry (getSearchPoints env site).
Proof.
  unfold getSearchPoints. apply keepsCalls_bind.
  - now apply keepsCalls_tick.
  - effects.
Qed.

Hint Resolve keepsCalls_tries_getSearchPoints : effects.

Lemma keepsCalls_tries_getEmptySearchCounters :
  keepsCalls OpTry (getEmptySearchCounters env).
Proof. unfold getEmptySearchCounters. effects. Qed.

Hint Resolve keepsCalls_tries_getEmptySearchCounters : effects.

Lemma Op_eqb_refl op : Op_eqb op op = true.
Proof. destruct op; reflexivity. Qed.

Lemma callsAtMost_tick_bind {A} op (k : nat -> M A) :
  (forall n, keepsCalls op (k n)) -> callsAtMost op 1 (bind (tick op) k).
Proof.
  intros H w. unfold bind. cbn [tick]. rewrite H. cbn [calls].
  rewrite Op_eqb_refl. lia.
Qed.

Lemma callsAtMost_bingSearchTry i : callsAtMost OpTry 1 (bingSearchTry env i).
Proof.
  unfold bingSearchTry. apply callsAtMost_tick_bind. effects.
Qed.

Lemma callsAtMost_bingSearchLoop remaining i :
  callsAtMost OpTry remaining (bingSearchLoop env remaining i).
Proof.
  revert i. induction remaining as [|r IH]; intros i; cbn [bingSearchLoop].
  - apply callsAtMost_keeps. effects.
  - change (S r) with (1 + r)%nat. apply callsAtMost_bind.
    + apply callsAtMost_bingSearchTry.
    + intros [| |c]; [apply IH| |].
      * intros w. pose proof (keepsCalls_tries_getEmptySearchCounters w). lia.
      * intros w. cbn. lia.
Qed.

Lemma callsAtMost_bingSearch query : callsAtMost OpTry 5 (bingSearch env query).
Proof.
  unfold bingSearch. change 5%nat with (0 + (0 + 5))%nat.
  apply callsAtMost_bind; [apply callsAtMost_keeps; effects|]. intros t.
  apply callsAtMost_bind; [apply callsAtMost_keeps; effects|]. intros _.
  apply callsAtMost_bingSearchLoop.
Qed.

Hint Resolve noThrow_bingSearch noDiverge_bingSearch : effects.

Lemma noThrow_pickQuery planned L : noThrow (pickQuery env planned L).
Proof. unfold pickQuery. effects. Qed.

Lemma noThrow_forceCheck L : noThrow (forceCheck env L).
Proof. unfold forceCheck. effects. Qed.

Hint Resolve noThrow_pickQuery noThrow_forceCheck : effects.

Lemma noThrow_stallUpdate query newMissingPoints L :
  noThrow (stallUpdate env query newMissingPoints L).
Proof. unfold stallUpdate. effects. Qed.

Lemma noThrow_stallAbort L : noThrow (stallAbort env L).
Proof. unfold stallAbort. effects. Qed.

Hint Resolve noThrow_stallUpdate noThrow_stallAbort : effects.

Lemma noThrow_extraTerms terms L count :
  noThrow (extraTerms env terms L count).
Proof.
  revert L count. induction terms as [|term rest IH]; intros L count;
    cbn [extraTerms]; effects.
Qed.

Hint Resolve noThrow_extraTerms : effects.

Section FetchNeverFails.

Hypothesis Hpoints : pointsAlways env.

Lemma noThrow_afterAttempt query searchCounters L :
  noThrow (afterAttempt env query searchCounters L).
Proof.
  pose proof (fun site => noThrow_getSearchPoints site Hpoints) as Hfetch.
  unfold afterAttempt. effects.
Qed.

Lemma noThrow_searchIteration start planned L :
  noThrow (searchIteration env start planned L).
Proof.
  pose proof noThrow_afterAttempt as Hafter.
  unfold searchIteration. effects.
Qed.

Lemma noThrow_searchLoop start queries L :
  noThrow (searchLoop env start queries L).
Proof.
  pose proof noThrow_searchIteration as Hiter.
  revert L. induction queries as [|planned rest IH]; intros L;
    cbn [searchLoop]; effects.
Qed.

Hypothesis Hadditional : additionalNonEmpty env.

Lemma ensures_extraIteration x :
  extraIndexOk x ->
  ensures (fun r => extraIndexOk (snd r)) (extraIteration env x).
Proof.
  intros Hx. unfold extraIteration.
  apply ensures_bind
    with (P := fun all => (extraIndex x < List.length all)%nat).
  - destruct (List.length (extraQueries x) <=? extraIndex x)%nat eqn:E.
    + apply ensures_bind with (P := fun _ => True);
        [apply noThrow_ensures; effects|].
      intros k _. apply ensures_ret.
      specialize (Hadditional k). rewrite length_app.
      destruct (env_additional env k); [congruence|].
      unfold extraIndexOk in Hx. cbn. lia.
    + apply ensures_ret. apply Nat.leb_gt in E. exact E.
  - intros all Hall.
    destruct (nth_error all (extraIndex x)) as [query|] eqn:En.
    2:{ apply nth_error_None in En. lia. }
    apply ensures_bind with (P := fun _ => True);
      [apply noThrow_ensures; effects|].
    intros k _.
    apply ensures_bind with (P := fun _ => True).
    + apply noThrow_ensures. effects.
    + intros [ctl [L count]] _.
      assert (Hok : extraIndexOk (mkExtra L count (S (extraIndex x)) all))
        by (unfold extraIndexOk; cbn; lia).
      destruct ctl; [destruct (missingPoints L =? 0)| destruct (missingPoints L =? 0) |];
        apply ensures_ret; exact Hok.
Qed.

Lemma noThrow_extraLoop fuel x :
  extraIndexOk x -> noThrow (extraLoop env fuel x).
Proof.
  revert x. induction fuel as [|fuel IH]; intros x Hx; cbn [extraLoop].
  - intros w e. discriminate.
  - destruct ((missingPoints (extraLocals x) >? 0)
              && (extraSearchCount x <? maxExtraSearches env)); [|effects].
    apply ensures_noThrow with (Q := fun _ => True).
    eapply ensures_bind; [apply ensures_extraIteration; exact Hx|].
    intros [ctl x'] Hx'. cbn in Hx'.
    apply noThrow_ensures. destruct ctl; [now apply IH | effects | effects].
Qed.

Lemma noThrow_extraSearches fuel allSearchQueries L :
  noThrow (extraSearches env fuel allSearchQueries L).
Proof.
  pose proof (fun site => noThrow_getSearchPoints site Hpoints) as Hfetch.
  unfold extraSearches.
  destruct (missingPoints L >? 0); [|effects].
  apply noThrow_bind.
  - apply noThrow_extraLoop. unfold extraIndexOk. cbn. lia.
  - effects.
Qed.

Lemma noThrow_doSearch fuel :
  env_entryTabOk env = true -> env_plan env <> None ->
  env_gotoOk env = true -> noThrow (doSearch env fuel).
Proof.
  intros Htab Hplan Hgoto.
  pose proof (fun site => noThrow_getSearchPoints site Hpoints) as Hfetch.
  pose proof noThrow_searchLoop as Hloop.
  pose proof noThrow_extraSearches as Hextra.
  unfold doSearch, getLatestTab. rewrite Htab, Hgoto.
  destruct (env_plan env) as [qs|]; [|congruence].
  effects.
Qed.

End FetchNeverFails.

End WorkerSafety.


(** ** Error handling of the campaign *)




(** ** The body of the main loop *)

Lemma calculatePoints_empty (isMobile : bool) (c : Counters) :
  allArraysEmpty c -> calculatePoints isMobile c = 0.
Proof.
  intros [Hpc [Hmob _]].
  unfold calculatePoints. rewrite Hpc, Hmob. cbn. now destruct isMobile.
Qed.

Section MainLoopBody.

Variable env : Env.

Local Opaque getSmartSearchDelay Qfloor calculatePoints.

(** An attempt that changed the deficit to a non-zero value. *)
Lemma afterAttempt_changed (query : string) (c : Counters) (L : Locals) (w : State) :
  let new := calculatePoints (bot_isMobile env) c in
  new <> missingPoints L -> new <> 0 ->
  exists w' L',
    afterAttempt env query c L w = (Ok (Continue, L'), w')
    /\ missingPoints L' = new
    /\ maxLoop L' = 0
    /\ lastSuccessfulQuery L' = Some query
    /\ earnedPoints L' = earnedPoints L + Z.max 0 (missingPoints L - new)
    /\ extendsTrace (fun e => exists ms, e = EvWait ms) w w'.
Proof.
  intros new Hne H0. unfold afterAttempt. fold new.
  unfold stallUpdate.
  destruct (missingPoints L - new >? 0) eqn:Eg;
    cbn [missingPoints setEarnedPoints];
    (destruct (Z.eqb_spec new (missingPoints L)) as [|_]; [contradiction|]);
    unfold bind at 1; cbn [ret];
    cbn [setMissingPoints setMaxLoop setLastSuccessfulQuery missingPoints maxLoop];
    (destruct (Z.eqb_spec new 0) as [|_]; [contradiction|]);
    cbn [Z.gtb Z.compare andb];
    destruct (bot_isMobile env); cbn [Z.gtb Z.compare];
    do 2 eexists; (split; [reflexivity|]); cbn;
    repeat split; try lia;
    try (rewrite Z.gtb_ltb in Eg; first [apply Z.ltb_lt in Eg | apply Z.ltb_ge in Eg]; lia);
    try (eexists [_]; split; [reflexivity|]; repeat constructor; eexists; reflexivity).
Qed.

Lemma eventsSince_app (evs : list Event) (w w' : State) :
  trace w' = evs ++ trace w -> eventsSince w w' = evs.
Proof.
  intros E. unfold eventsSince. rewrite E, length_app.
  replace (List.length evs + List.length (trace w) - List.length (trace w))%nat
    with (List.length evs + 0)%nat by lia.
  rewrite firstn_app_2. cbn. apply app_nil_r.
Qed.

(** Symbolic execution of the loop body: unfold the effect layer, split on
    every test, and turn the boolean facts into arithmetic ones. *)
Ltac unfoldBody :=
  unfold afterAttempt, stallUpdate, forceCheck, stallAbort, getSearchPoints,
    tryCatch, bind, ret, throw, emit, tick, wait, getPacing.

Ltac splitTests :=
  repeat (cbn [fst snd now pacing calls trace missingPoints maxLoop
               earnedPoints completedSearches lastSuccessfulQuery
               contextSearchCount setMissingPoints setMaxLoop setEarnedPoints
               setLastSuccessfulQuery negb andb Op_eqb];
          match goal with
          | |- context [match env_points ?e ?k with _ => _ end] =>
              destruct (env_points e k) eqn:?
          | |- context [if ?b then _ else _] => destruct b eqn:?
          end).

Ltac arith :=
  repeat match goal with
  | H : (_ =? _) = true |- _ => apply Z.eqb_eq in H
  | H : (_ =? _) = false |- _ => apply Z.eqb_neq in H
  | H : (_ >? _) = true |- _ => rewrite Z.gtb_ltb in H; apply Z.ltb_lt in H
  | H : (_ >? _) = false |- _ => rewrite Z.gtb_ltb in H; apply Z.ltb_ge in H
  | H : (_ <? _) = true |- _ => apply Z.ltb_lt in H
  | H : (_ <? _) = false |- _ => apply Z.ltb_ge in H
  | H : negb _ = true |- _ => apply negb_true_iff in H
  | H : negb _ = false |- _ => apply negb_false_iff in H
  | H : (_ && _) = true |- _ => apply andb_true_iff in H; destruct H
  end.

Ltac prefixOf t base :=
  lazymatch t with
  | base => constr:(@nil Event)
  | ?e :: ?r => let p := prefixOf r base in constr:(e :: p)
  end.

Ltac sinceTrace :=
  match goal with
  | |- context [eventsSince ?w ?w'] =>
      let t := eval cbn [trace] in (trace w') in
      let p := prefixOf t (trace w) in
      rewrite (eventsSince_app p w w') by reflexivity
  end.

Ltac closeTrace :=
  cbn [snd fst]; sinceTrace; cbn [In]; auto 10.

Ltac notInTrace :=
  cbn [snd fst]; sinceTrace; cbn [In]; intuition discriminate.

Ltac runNoChange Hsame :=
  unfoldBody; rewrite Hsame, Z.sub_diag; cbn [Z.gtb Z.compare];
  splitTests; arith; try lia; try discriminate.

Ltac runNoChangeOn Hsame Hdevice :=
  unfoldBody; rewrite Hsame, Z.sub_diag; rewrite ?Hdevice;
  cbn [Z.gtb Z.compare];
  splitTests; arith; try lia; try discriminate.

(** C4, amended: after an attempt that left a non-zero deficit unchanged,
    the stall counter is raised by one; when it reaches 3 the progress
    counters are fetched again out of band, when it reaches 5 a fixed wait
    of 30 s is added.  On desktop the loop is left (final check, then
    [break]) when the counter exceeds 15 and goes on otherwise.  On mobile
    the loop is never left for a stall: when the counter exceeds 5 the
    User-Agent is refreshed, the counter is reset to 0 and the loop goes
    on, so the mobile limit of 10 is never reached. *)
Theorem stall_thresholds (query : string) (c : Counters) (L : Locals) (w : State) :
  calculatePoints (bot_isMobile env) c = missingPoints L ->
  missingPoints L <> 0 ->
  let r := afterAttempt env query c L w in
  let since := eventsSince w (snd r) in
  let stall := maxLoop L + 1 in
  (stall = 3 -> In (EvFetch SiteForceCheck) since)
  /\ (stall = 5 -> In (EvWait 30000) since)
  /\ (bot_isMobile env = false -> 15 < stall ->
      In EvStallAbort since /\ exists L', fst r = Ok (Break, L'))
  /\ (bot_isMobile env = false -> stall <= 15 ->
      ~ In EvStallAbort since /\ exists L', fst r = Ok (Continue, L'))
  /\ (bot_isMobile env = true -> 5 < stall ->
      In EvUserAgentRefresh since /\ ~ In EvStallAbort since
      /\ exists L', fst r = Ok (Continue, L') /\ maxLoop L' = 0)
  /\ (bot_isMobile env = true -> stall <= 5 ->
      ~ In EvStallAbort since /\ exists L', fst r = Ok (Continue, L')).
Proof.
  intros Hsame Hnz r since stall. subst r since stall.
  split; [|split; [|split; [|split; [|split]]]].
  - intros Hn. runNoChange Hsame. all: closeTrace.
  - intros Hn. runNoChange Hsame. all: closeTrace.
  - intros Hd Hn. split.
    + runNoChangeOn Hsame Hd. all: closeTrace.
    + runNoChangeOn Hsame Hd. all: cbn [fst]; eexists; reflexivity.
  - intros Hd Hn. split.
    + runNoChangeOn Hsame Hd. all: notInTrace.
    + runNoChangeOn Hsame Hd. all: cbn [fst]; eexists; reflexivity.
  - intros Hm Hn. split; [|split].
    + runNoChangeOn Hsame Hm. all: closeTrace.
    + runNoChangeOn Hsame Hm. all: notInTrace.
    + runNoChangeOn Hsame Hm. all: cbn [fst]; eexists; split; reflexivity.
  - intros Hm Hn. split.
    + runNoChangeOn Hsame Hm. all: notInTrace.
    + runNoChangeOn Hsame Hm. all: cbn [fst]; eexists; reflexivity.
Qed.


(** C5, amended: the tracked deficit is overwritten with the deficit of
    the latest snapshot after every attempt.  A snapshot with a larger
    (non-zero) deficit is a change like any other: the deficit is raised to
    it, the stall counter is reset to 0, the query is recorded as the last
    successful one and the loop goes on; only [earnedPoints] is left as it
    was. *)
Theorem deficit_follows_latest_snapshot (query : string) (c : Counters)
    (L : Locals) (w : State) :
  let new := calculatePoints (bot_isMobile env) c in
  missingPoints L < new -> new <> 0 ->
  exists w' L',
    afterAttempt env query c L w = (Ok (Continue, L'), w')
    /\ missingPoints L' = new
    /\ maxLoop L' = 0
    /\ lastSuccessfulQuery L' = Some query
    /\ earnedPoints L' = earnedPoints L.
Proof.
  intros new Hup H0.
  destruct (afterAttempt_changed query c L w) as [w' [L' [E [H1 [H2 [H3 [H4 _]]]]]]];
    fold new; [lia | exact H0 |].
  exists w', L'. fold new in H1, H4.
  repeat split; try assumption. lia.
Qed.

Lemma getEmptySearchCounters_run (w : State) :
  exists w',
    getEmptySearchCounters env w
    = (Ok (match env_points env (calls w OpGetSearchPoints) with
           | Some c => c
           | None => emptyCounters
           end), w').
Proof.
  unfold getEmptySearchCounters, getSearchPoints, tryCatch, bind, tick, emit,
    ret, throw.
  cbn [fst snd]. destruct (env_points env (calls w OpGetSearchPoints));
    eexists; reflexivity.
Qed.

Lemma bingSearch_browser_closed (query : string) (w : State) (f : Failure) :
  outcome (env_try env (calls w OpTry)) = Raised f ->
  browserClosed f = true ->
  exists w',
    bingSearch env query w
    = (Ok (match env_points env (calls w OpGetSearchPoints) with
           | Some c => c
           | None => emptyCounters
           end), w').
Proof.
  intros Hout Hclosed. unfold browserClosed in Hclosed.
  unfold bingSearch, bingSearchLoop, bingSearchTry.
  unfold bind at 1. cbn [dateNow].
  unfold bind at 1. cbn [emit].
  unfold bind at 1. unfold bind at 1. cbn [tick calls].
  rewrite Hout. unfold bind at 1. cbn [advance].
  unfold bind at 1. cbn [modifyPacing]. cbv zeta. rewrite Hclosed.
  unfold bind at 1.
  match goal with
  | |- context [getEmptySearchCounters env ?w0] =>
      destruct (getEmptySearchCounters_run w0) as [w' E]; rewrite E
  end.
  cbn. eexists. reflexivity.
Qed.

Lemma bingSearch_fetch_failed (query : string) (w : State) :
  outcome (env_try env (calls w OpTry)) = ReachedPointsFetch ->
  env_points env (calls w OpGetSearchPoints) = None ->
  exists w',
    bingSearch env query w
    = (Ok (match env_points env (S (calls w OpGetSearchPoints)) with
           | Some c => c
           | None => emptyCounters
           end), w').
Proof.
  intros Hout Hnone.
  unfold bingSearch, bingSearchLoop, bingSearchTry.
  unfold bind at 1. cbn [dateNow].
  unfold bind at 1. cbn [emit].
  unfold bind at 1. unfold bind at 1. cbn [tick calls].
  rewrite Hout. unfold bind at 1. cbn [advance].
  unfold tryCatch at 1. unfold bind at 1. unfold getSearchPoints at 1.
  unfold bind at 1. cbn [tick calls]. unfold bind at 1. cbn [emit].
  cbn [Op_eqb]. rewrite Hnone. cbn [throw].
  unfold bind at 1.
  match goal with
  | |- context [getEmptySearchCounters env ?w0] =>
      destruct (getEmptySearchCounters_run w0) as [w' E]; rewrite E
  end.
  cbn. eexists. reflexivity.
Qed.

Lemma afterAttempt_on_empty (query : string) (c : Counters) (L : Locals) (w : State) :
  allArraysEmpty c -> missingPoints L <> 0 ->
  let r := afterAttempt env query c L w in
  In EvComplete (eventsSince w (snd r))
  /\ ((exists L', fst r = Ok (Break, L') /\ missingPoints L' = 0
         /\ earnedPoints L' = earnedPoints L + Z.max 0 (missingPoints L))
      \/ exists e, fst r = Throw e).
Proof.
  intros Hempty Hnz r. subst r.
  pose proof (calculatePoints_empty (bot_isMobile env) c Hempty) as Hzero.
  unfoldBody. rewrite Hzero, Z.sub_0_r.
  destruct (missingPoints L >? 0) eqn:Eg.
  - splitTests; arith; try lia; try discriminate; cbn [fst snd]; split;
      try closeTrace.
    + left. eexists. split; [reflexivity|]. cbn. split; lia.
    + right. eexists. reflexivity.
  - splitTests; arith; try lia; try discriminate; cbn [fst snd]; split;
      try closeTrace.
    + left. eexists. split; [reflexivity|]. cbn. split; lia.
    + right. eexists. reflexivity.
Qed.


End MainLoopBody.

(** C4, as stated, fails on mobile: fourteen attempts in a row leave the
    points unchanged, yet the loop neither aborts nor times out; it runs
    through all fourteen queries. *)
Lemma mobile_stall_never_aborts :
  let r := searchLoop envMobileStuck 0 fourteenQueries (initialLocals 60)
                      initialState in
  (exists L', fst r = Ok L' /\ missingPoints L' = 60)
  /\ searchCount (trace (snd r)) = 14%nat
  /\ existsb isStallAbort (trace (snd r)) = false
  /\ existsb isTimeout (trace (snd r)) = false.
Proof.
  cbv zeta. split; [|split; [|split]].
  - eexists. split; vm_compute; reflexivity.
  - vm_compute. reflexivity.
  - vm_compute. reflexivity.
  - vm_compute. reflexivity.
Qed.

Lemma stall_thresholds_witness :
  calculatePoints (bot_isMobile envQuiet) desktopInProgress
  = missingPoints (setMaxLoop (initialLocals 60) 15)
  /\ In EvStallAbort
        (eventsSince initialState
           (snd (afterAttempt envQuiet "q" desktopInProgress
                   (setMaxLoop (initialLocals 60) 15) initialState))).
Proof.
  assert (H1 : calculatePoints (bot_isMobile envQuiet) desktopInProgress
               = missingPoints (setMaxLoop (initialLocals 60) 15))
    by reflexivity.
  assert (H2 : missingPoints (setMaxLoop (initialLocals 60) 15) <> 0)
    by discriminate.
  split; [exact H1|].
  destruct (stall_thresholds envQuiet "q" desktopInProgress
              (setMaxLoop (initialLocals 60) 15) initialState H1 H2)
    as [_ [_ [H _]]].
  apply H; reflexivity.
Defined.

(** C5, as stated, fails: a snapshot with deficit 60 after a tracked
    deficit of 10 raises the tracked deficit to 60 and resets the stall
    counter from 2 to 0. *)
Lemma larger_snapshot_raises_deficit :
  fst (afterAttempt envQuiet "q" desktopInProgress
         (setMaxLoop (initialLocals 10) 2) initialState)
  = Ok (Continue, mkLocals 60 0 0 0 (Some "q") 0)
  /\ missingPoints (setMaxLoop (initialLocals 10) 2)
     < calculatePoints (bot_isMobile envQuiet) desktopInProgress.
Proof. split; vm_compute; reflexivity. Qed.

Lemma deficit_follows_latest_snapshot_witness :
  missingPoints (initialLocals 10)
  < calculatePoints (bot_isMobile envQuiet) desktopInProgress
  /\ exists w' L',
       afterAttempt envQuiet "q" desktopInProgress (initialLocals 10)
                    initialState = (Ok (Continue, L'), w')
       /\ missingPoints L' = calculatePoints (bot_isMobile envQuiet) desktopInProgress
       /\ maxLoop L' = 0
       /\ lastSuccessfulQuery L' = Some "q"
       /\ earnedPoints L' = earnedPoints (initialLocals 10).
Proof.
  split; [reflexivity|].
  apply (deficit_follows_latest_snapshot envQuiet "q" desktopInProgress
           (initialLocals 10) initialState).
  - reflexivity.
  - discriminate.
Defined.





(** ** The wall-clock budget *)

(** The main loop honours the budget: an iteration that begins after the
    deadline starts no attempt and leaves the loop. *)
Lemma searchIteration_after_deadline (env : Env) (start : Z) (planned : string)
    (L : Locals) (w : State) :
  searchTimeoutMs < now w - start ->
  searchIteration env start planned L w
  = (Ok (Break, L),
     mkState (now w) (pacing w) (calls w) (EvTimeout :: trace w)).
Proof.
  intros H. unfold searchIteration, bind, dateNow, emit, ret.
  rewrite Z.gtb_ltb. apply Z.ltb_lt in H. rewrite H. reflexivity.
Qed.

Lemma searchLoop_after_deadline (env : Env) (start : Z) (planned : string)
    (rest : list string) (L : Locals) (w : State) :
  searchTimeoutMs < now w - start ->
  searchLoop env start (planned :: rest) L w
  = (Ok L, mkState (now w) (pacing w) (calls w) (EvTimeout :: trace w)).
Proof.
  intros H. cbn [searchLoop]. unfold bind at 1.
  rewrite searchIteration_after_deadline by exact H. reflexivity.
Qed.

(** C7, the code at the failing input: the first attempt of a desktop run
    hangs for 21 minutes, so the check at the top of the second iteration
    of the main loop finds the 20-minute budget spent and leaves the loop.
    The deficit is still 60, so the extra-search phase follows; its loop has
    no check of the clock and starts five more attempts, all of them later
    than the deadline, before the stall counter ends the run. *)
Theorem extra_searches_start_after_timeout :
  let r := doSearch envSlowFirst 10 initialState in
  fst r = Ok (Some (mkLocals 60 6 0 1 None 0))
  /\ existsb isTimeout (trace (snd r)) = true
  /\ searchesAfterTimeout (trace (snd r)) = 5%nat
  /\ searchesStartedAfter (3000 + searchTimeoutMs) (trace (snd r)) = 5%nat.
Proof.
  cbv zeta. repeat split; vm_compute; reflexivity.
Qed.

(** ** The extra-search phase *)

Section SearchCounting.

Context {A B : Type}.

Lemma keepsSearches_ret (a : A) : keepsSearches (ret a).
Proof. intros w. reflexivity. Qed.

Lemma keepsSearches_throw (e : string) : keepsSearches (@throw A e).
Proof. intros w. reflexivity. Qed.

Lemma keepsSearches_bind (m : M A) (k : A -> M B) :
  keepsSearches m -> (forall a, keepsSearches (k a)) -> keepsSearches (bind m k).
Proof.
  intros Hm Hk w. unfold bind.
  specialize (Hm w). destruct (m w) as [[a|e|] w']; cbn in *; try exact Hm.
  rewrite Hk. exact Hm.
Qed.

Lemma keepsSearches_tryCatch (m : M A) (h : string -> M A) :
  keepsSearches m -> (forall e, keepsSearches (h e)) ->
  keepsSearches (tryCatch m h).
Proof.
  intros Hm Hh w. unfold tryCatch.
  specialize (Hm w). destruct (m w) as [[a|e|] w']; cbn in *; try exact Hm.
  rewrite Hh. exact Hm.
Qed.

End SearchCounting.

Ltac counting :=
  repeat first
    [ progress intros
    | solve [auto with effects]
    | progress cbv zeta
    | apply keepsSearches_ret | apply keepsSearches_throw
    | apply keepsSearches_tryCatch | apply keepsSearches_bind
    | match goal with
      | |- keepsSearches (if ?b then _ else _) => destruct b
      | |- keepsSearches (match ?x with _ => _ end) => destruct x
      end ].

Section ExtraSearch.

Variable env : Env.

Lemma keepsSearches_emit e : isSearch e = false -> keepsSearches (emit e).
Proof. intros H w. unfold searchCount. cbn. now rewrite H. Qed.
Lemma keepsSearches_tick op : keepsSearches (tick op).
Proof. intros w. reflexivity. Qed.
Lemma keepsSearches_advance ms : keepsSearches (advance ms).
Proof. intros w. reflexivity. Qed.
Lemma keepsSearches_wait ms : keepsSearches (wait ms).
Proof. intros w. reflexivity. Qed.
Lemma keepsSearches_modifyPacing f : keepsSearches (modifyPacing f).
Proof. intros w. reflexivity. Qed.

Hint Resolve keepsSearches_tick keepsSearches_advance keepsSearches_wait
  keepsSearches_modifyPacing : effects.

Lemma keepsSearches_getSearchPoints site :
  keepsSearches (getSearchPoints env site).
Proof.
  unfold getSearchPoints. counting. now apply keepsSearches_emit.
Qed.

Hint Resolve keepsSearches_getSearchPoints : effects.

Lemma keepsSearches_getEmptySearchCounters :
  keepsSearches (getEmptySearchCounters env).
Proof. unfold getEmptySearchCounters. counting. Qed.

Hint Resolve keepsSearches_getEmptySearchCounters : effects.

Lemma keepsSearches_bingSearchTry i : keepsSearches (bingSearchTry env i).
Proof. unfold bingSearchTry. counting. Qed.

Hint Resolve keepsSearches_bingSearchTry : effects.

Lemma keepsSearches_bingSearchLoop remaining i :
  keepsSearches (bingSearchLoop env remaining i).
Proof.
  revert i. induction remaining as [|r IH]; intros i; cbn [bingSearchLoop];
    counting.
Qed.

(** Every call of [bingSearch] is one attempt, and it returns. *)
Lemma bingSearch_one_search (query : string) (w : State) :
  exists c w',
    bingSearch env query w = (Ok c, w')
    /\ searchCount (trace w') = S (searchCount (trace w)).
Proof.
  destruct (total_bingSearch env query w) as [c [w' E]].
  exists c, w'. split; [exact E|].
  assert (H : w' = snd (bingSearch env query w)) by now rewrite E.
  rewrite H. unfold bingSearch, bind at 1. cbn [dateNow].
  unfold bind at 1. cbn [emit].
  rewrite keepsSearches_bingSearchLoop. reflexivity.
Qed.

(** What the inner [for] of the extra-search phase does to the counters. *)
Lemma extraTerms_run (terms : list string) (L : Locals) (count : Z) (w : State) :
  exists ctl L' count' w',
    extraTerms env terms L count w = (Ok (ctl, (L', count')), w')
    /\ count <= count'
    /\ (count' <= maxExtraSearches env \/ count' = count)
    /\ searchCount (trace w')
       = (searchCount (trace w) + Z.to_nat (count' - count))%nat
    /\ (ctl = Return -> 5 < maxLoop L')
    /\ (terms <> [] -> count < maxExtraSearches env -> count < count').
Proof.
  revert L count w. induction terms as [|term rest IH]; intros L count w.
  - exists Continue, L, count, w. rewrite Z.sub_diag.
    cbn. repeat split; try lia; try discriminate. congruence.
  - cbn [extraTerms].
    destruct (count >=? maxExtraSearches env) eqn:Ecap.
    + exists Break, L, count, w. rewrite Z.sub_diag. cbn.
      rewrite Z.geb_leb in Ecap. apply Z.leb_le in Ecap.
      repeat split; try lia; try discriminate.
    + rewrite Z.geb_leb in Ecap. apply Z.leb_gt in Ecap.
      destruct (bingSearch_one_search term w) as [c [w1 [E Hs]]].
      unfold bind at 1. rewrite E. cbv zeta.
      set (new := calculatePoints (bot_isMobile env) c).
      set (L1 := if new =? missingPoints L
                 then setMaxLoop L (maxLoop L + 1) else setMaxLoop L 0).
      destruct (missingPoints (setMissingPoints L1 new) =? 0) eqn:E0.
      * exists Break, (setMissingPoints L1 new), (count + 1), w1.
        replace (count + 1 - count) with 1 by lia. cbn.
        repeat split; try lia; try discriminate.
      * destruct (maxLoop (setMissingPoints L1 new) >? 5) eqn:E5.
        -- exists Return, (setMissingPoints L1 new), (count + 1), w1.
           replace (count + 1 - count) with 1 by lia. cbn.
           rewrite Z.gtb_ltb in E5. apply Z.ltb_lt in E5.
           repeat split; try lia; try discriminate.
           intros _. exact E5.
        -- destruct (IH (setMissingPoints L1 new) (count + 1) w1)
             as [ctl [L' [count' [w' [E' [H1 [H2 [H3 [H4 H5]]]]]]]]].
           exists ctl, L', count', w'.
           repeat split; try assumption; try lia.
Qed.

Lemma related_slice_nonempty (terms : list string) :
  (3 < List.length terms)%nat -> firstn 2 (skipn 1 terms) <> [].
Proof.
  destruct terms as [|a [|b rest]]; cbn; try lia. discriminate.
Qed.

(** One pass of the [while] loop, as far as the counters go. *)
Lemma extraIteration_run (x : Extra) (w : State) :
  0 <= extraSearchCount x ->
  match extraIteration env x w with
  | (Ok (ctl, x'), w') =>
      extraSearchCount x <= extraSearchCount x'
      /\ (extraSearchCount x' <= maxExtraSearches env
          \/ extraSearchCount x' = extraSearchCount x)
      /\ searchCount (trace w')
         = (searchCount (trace w)
            + Z.to_nat (extraSearchCount x' - extraSearchCount x))%nat
      /\ (ctl = Return -> 5 < maxLoop (extraLocals x'))
      /\ (ctl = Break -> missingPoints (extraLocals x') = 0)
      /\ (relatedAlways env -> extraSearchCount x < maxExtraSearches env ->
          extraSearchCount x < extraSearchCount x')
  | (Throw _, w') => searchCount (trace w') = searchCount (trace w)
  | (OutOfFuel, _) => False
  end.
Proof.
  intros Hcount. unfold extraIteration.
  unfold bind at 1.
  set (first := if (List.length (extraQueries x) <=? extraIndex x)%nat
                then _ else _).
  assert (Hfirst : exists all w1, first w = (Ok all, w1)
                                  /\ searchCount (trace w1) = searchCount (trace w)).
  { subst first. destruct (List.length (extraQueries x) <=? extraIndex x)%nat.
    - do 2 eexists. split; reflexivity.
    - do 2 eexists. split; reflexivity. }
  destruct Hfirst as [all [w1 [E1 Hs1]]]. rewrite E1.
  destruct (nth_error all (extraIndex x)) as [query|]; [|exact Hs1].
  unfold bind at 1. cbn [tick].
  set (w2 := mkState _ _ _ _).
  assert (Hs2 : searchCount (trace w2) = searchCount (trace w))
    by (subst w2; cbn [trace]; exact Hs1).
  set (term := match query with PlainQuery s => s | TrendQuery _ g => topic g end).
  cbv zeta.
  set (relatedTerms := env_related env (calls w1 OpRelated) term).
  unfold bind at 1.
  destruct (3 <? List.length relatedTerms)%nat eqn:Elen.
  - destruct (extraTerms_run (firstn 2 (skipn 1 relatedTerms))
                (extraLocals x) (extraSearchCount x) w2)
      as [ctl [L' [count' [w' [E [H1 [H2 [H3 [H4 H5]]]]]]]]].
    rewrite E.
    assert (Hprog : relatedAlways env ->
                    extraSearchCount x < maxExtraSearches env ->
                    extraSearchCount x < count').
    { intros Hrel Hlt. apply H5; [|exact Hlt].
      apply related_slice_nonempty. apply Hrel. }
    destruct ctl; [destruct (missingPoints L' =? 0) eqn:E0
                  |destruct (missingPoints L' =? 0) eqn:E0|];
      cbn; rewrite ?H3, ?Hs2;
      (repeat split; try lia; try discriminate; try assumption);
      try (intros _; apply Z.eqb_eq in E0; exact E0);
      try (intros _; exact (H4 eq_refl)).
    (* a [break] of the inner loop with a non-zero deficit is a pass that
       goes on *)
  - cbn [ret].
    assert (Hshort : relatedAlways env -> False).
    { intros Hrel. specialize (Hrel (calls w1 OpRelated) term).
      apply Nat.ltb_ge in Elen. fold relatedTerms in Hrel. lia. }
    destruct (missingPoints (extraLocals x) =? 0) eqn:E0;
      cbn; rewrite ?Hs2, Z.sub_diag; cbn;
      (repeat split; try lia; try discriminate);
      try (intros _; apply Z.eqb_eq in E0; exact E0);
      try (intros Hrel; destruct (Hshort Hrel));
      unfold searchCount in *; lia.
Qed.

Lemma extraLoop_condition (x : Extra) :
  (missingPoints (extraLocals x) >? 0)
  && (extraSearchCount x <? maxExtraSearches env) = true ->
  0 < missingPoints (extraLocals x)
  /\ extraSearchCount x < maxExtraSearches env.
Proof.
  intros H. apply andb_true_iff in H. destruct H as [H1 H2].
  rewrite Z.gtb_ltb in H1. apply Z.ltb_lt in H1. apply Z.ltb_lt in H2. lia.
Qed.

Lemma extraLoop_condition_off (x : Extra) :
  (missingPoints (extraLocals x) >? 0)
  && (extraSearchCount x <? maxExtraSearches env) = false ->
  missingPoints (extraLocals x) <= 0
  \/ maxExtraSearches env <= extraSearchCount x.
Proof.
  intros H. apply andb_false_iff in H. destruct H as [H|H].
  - rewrite Z.gtb_ltb in H. apply Z.ltb_ge in H. lia.
  - apply Z.ltb_ge in H. lia.
Qed.

Lemma extraLoop_searches (fuel : nat) (x : Extra) (w : State) :
  0 <= extraSearchCount x ->
  (searchCount (trace (snd (extraLoop env fuel x w)))
   <= searchCount (trace w)
      + Z.to_nat (maxExtraSearches env - extraSearchCount x))%nat.
Proof.
  revert x w. induction fuel as [|fuel IH]; intros x w Hcount;
    cbn [extraLoop]; [cbn; lia|].
  destruct ((missingPoints (extraLocals x) >? 0)
            && (extraSearchCount x <? maxExtraSearches env)) eqn:Econd;
    [|cbn; lia].
  apply extraLoop_condition in Econd. destruct Econd as [_ Hlt].
  unfold bind at 1. pose proof (extraIteration_run x w Hcount) as Hrun.
  destruct (extraIteration env x w) as [[[ctl x']|e|] w'];
    [|cbn; lia|contradiction].
  destruct Hrun as [H1 [H2 [H3 _]]].
  destruct ctl; cbn [ret snd]; [|lia|lia].
  specialize (IH x' w' ltac:(lia)). lia.
Qed.

Lemma extraLoop_exit (fuel : nat) (x : Extra) (w : State) (ctl : Ctl) (x' : Extra) :
  0 <= extraSearchCount x ->
  fst (extraLoop env fuel x w) = Ok (ctl, x') ->
  missingPoints (extraLocals x') <= 0
  \/ maxExtraSearches env <= extraSearchCount x'
  \/ 5 < maxLoop (extraLocals x').
Proof.
  revert x w. induction fuel as [|fuel IH]; intros x w Hcount;
    cbn [extraLoop]; [discriminate|].
  destruct ((missingPoints (extraLocals x) >? 0)
            && (extraSearchCount x <? maxExtraSearches env)) eqn:Econd.
  - unfold bind at 1. pose proof (extraIteration_run x w Hcount) as Hrun.
    destruct (extraIteration env x w) as [[[ctl1 x1]|e|] w1];
      [|discriminate|contradiction].
    destruct Hrun as [H1 [_ [_ [H4 [H5 _]]]]].
    destruct ctl1; cbn [ret fst].
    + apply IH. lia.
    + intros E. injection E as <- <-. left. rewrite H5; [lia | reflexivity].
    + intros E. injection E as <- <-. right. right. now apply H4.
  - cbn. intros E. injection E as <- <-.
    destruct (extraLoop_condition_off x Econd); tauto.
Qed.

Lemma extraLoop_terminates (fuel : nat) (x : Extra) (w : State) :
  relatedAlways env -> 0 <= extraSearchCount x ->
  (Z.to_nat (maxExtraSearches env - extraSearchCount x) < fuel)%nat ->
  fst (extraLoop env fuel x w) <> OutOfFuel.
Proof.
  intros Hrel. revert x w. induction fuel as [|fuel IH]; intros x w Hcount Hfuel;
    cbn [extraLoop]; [lia|].
  destruct ((missingPoints (extraLocals x) >? 0)
            && (extraSearchCount x <? maxExtraSearches env)) eqn:Econd;
    [|discriminate].
  apply extraLoop_condition in Econd. destruct Econd as [_ Hlt].
  unfold bind at 1. pose proof (extraIteration_run x w Hcount) as Hrun.
  destruct (extraIteration env x w) as [[[ctl x']|e|] w'];
    [|discriminate|contradiction].
  destruct Hrun as [H1 [H2 [_ [_ [_ H6]]]]]. specialize (H6 Hrel Hlt).
  destruct ctl; cbn [ret fst]; try discriminate.
  apply IH; lia.
Qed.

End ExtraSearch.



Lemma extraIteration_noRelated (x : Extra) (w : State) :
  extraIndexOk x ->
  missingPoints (extraLocals x) = 60 ->
  exists x' w',
    extraIteration envNoRelated x w = (Ok (Continue, x'), w')
    /\ extraIndexOk x'
    /\ extraLocals x' = extraLocals x
    /\ extraSearchCount x' = extraSearchCount x
    /\ trace w' = trace w.
Proof.
  intros Hidx Hmiss. unfold extraIndexOk in Hidx. unfold extraIteration.
  unfold bind at 1.
  destruct (List.length (extraQueries x) <=? extraIndex x)%nat eqn:Elen.
  - apply Nat.leb_le in Elen. unfold bind at 1. cbn [tick ret].
    cbn [env_additional envNoRelated].
    destruct (nth_error (extraQueries x ++ [PlainQuery "x"; PlainQuery "y"])
                        (extraIndex x)) as [query|] eqn:En.
    2:{ apply nth_error_None in En. rewrite length_app in En. cbn in En. lia. }
    unfold bind at 1. cbn [tick]. unfold bind at 1.
    cbn [env_related envNoRelated List.length Nat.ltb Nat.leb ret].
    rewrite Hmiss. cbn.
    do 2 eexists. split; [reflexivity|]. unfold extraIndexOk. cbn.
    rewrite length_app. cbn. repeat split; lia.
  - apply Nat.leb_gt in Elen. cbn [ret].
    destruct (nth_error (extraQueries x) (extraIndex x)) as [query|] eqn:En.
    2:{ apply nth_error_None in En. lia. }
    unfold bind at 1. cbn [tick]. unfold bind at 1.
    cbn [env_related envNoRelated List.length Nat.ltb Nat.leb ret].
    rewrite Hmiss. cbn.
    do 2 eexists. split; [reflexivity|]. unfold extraIndexOk. cbn.
    repeat split; lia.
Qed.

Lemma extraLoop_noRelated (fuel : nat) (x : Extra) (w : State) :
  extraIndexOk x ->
  missingPoints (extraLocals x) = 60 -> extraSearchCount x = 0 ->
  fst (extraLoop envNoRelated fuel x w) = OutOfFuel
  /\ trace (snd (extraLoop envNoRelated fuel x w)) = trace w.
Proof.
  revert x w. induction fuel as [|fuel IH]; intros x w Hidx Hmiss Hcount;
    cbn [extraLoop]; [split; reflexivity|].
  rewrite Hmiss, Hcount. cbn [Z.gtb Z.compare Z.ltb andb maxExtraSearches
                               bot_isMobile envNoRelated].
  destruct (extraIteration_noRelated x w Hidx Hmiss)
    as [x' [w' [E [Hidx' [HL [Hc Ht]]]]]].
  unfold bind at 1. unfold bind at 1. rewrite E.
  destruct (IH x' w' Hidx') as [H1 H2]; [congruence | congruence |].
  split; [exact H1 | congruence].
Qed.


(** * Further properties *)

(** ** Enhanced pacing *)

Section EnhancedPacing.

Local Open Scope Q_scope.

Lemma profileMultiplier_pos (style : SearchStyle) : 0 < profileMultiplier style.
Proof. destruct style; reflexivity. Qed.

Lemma timeMultiplier_pos (hour : Z) : 0 < timeMultiplier hour.
Proof.
  unfold timeMultiplier.
  destruct ((9 <=? hour)%Z && (hour <=? 17)%Z); [reflexivity|].
  destruct ((22 <=? hour)%Z || (hour <=? 6)%Z); reflexivity.
Qed.



Lemma totalBreakProbability_mono (c1 c2 i : Z) (profile : UserProfile) :
  (c1 <= c2)%Z ->
  totalBreakProbability c1 i profile <= totalBreakProbability c2 i profile.
Proof.
  intros Hc. unfold totalBreakProbability. cbv zeta.
  assert (Hq : inject_Z c1 <= inject_Z c2) by (rewrite <- Zle_Qle; exact Hc).
  assert (Hq' : inject_Z (c1 - i * 8 - 15) <= inject_Z (c2 - i * 8 - 15))
    by (rewrite <- Zle_Qle; lia).
  destruct (Q.min_spec (inject_Z c1 * (2 # 100)) (3 # 10)) as [[? E1]|[? E1]];
  destruct (Q.min_spec (inject_Z c2 * (2 # 100)) (3 # 10)) as [[? E2]|[? E2]];
  destruct (Q.max_spec 0 (inject_Z (c1 - i * 8 - 15) * (5 # 100)))
    as [[? E3]|[? E3]];
  destruct (Q.max_spec 0 (inject_Z (c2 - i * 8 - 15) * (5 # 100)))
    as [[? E4]|[? E4]];
  apply Q.min_le_compat_r; rewrite E1, E2, E3, E4; lra.
Qed.

Lemma totalBreakProbability_cap (c i : Z) (profile : UserProfile) :
  totalBreakProbability c i profile <= 7 # 10.
Proof. unfold totalBreakProbability. cbv zeta. apply Q.le_min_r. Qed.

(** X2: the break probability of [shouldTakeSessionBreak] never exceeds
    0.7, so a value of [Math.random()] of 0.7 or more never leads to a
    break; and for the same profile, number of interruptions and random
    value, a break decided after [c1] completed searches is also decided
    after any larger number [c2]. *)
Theorem shouldTakeSessionBreak_capped_monotone (c1 c2 i : Z)
    (profile : UserProfile) (rnd : Q) :
  (c1 <= c2)%Z ->
  totalBreakProbability c1 i profile <= 7 # 10
  /\ (7 # 10 <= rnd -> shouldTakeSessionBreak c1 i profile rnd = false)
  /\ (shouldTakeSessionBreak c1 i profile rnd = true ->
      shouldTakeSessionBreak c2 i profile rnd = true).
Proof.
  intros Hc. split; [apply totalBreakProbability_cap|]. split.
  - intros Hr. unfold shouldTakeSessionBreak.
    pose proof (totalBreakProbability_cap c1 i profile).
    destruct (Qlt_le_dec rnd (totalBreakProbability c1 i profile)); [lra|reflexivity].
  - unfold shouldTakeSessionBreak.
    pose proof (totalBreakProbability_mono c1 c2 i profile Hc).
    destruct (Qlt_le_dec rnd (totalBreakProbability c1 i profile));
      [|discriminate].
    destruct (Qlt_le_dec rnd (totalBreakProbability c2 i profile));
      [reflexivity | lra].
Qed.

Lemma shouldTakeSessionBreak_capped_monotone_witness :
  (10 <= 30)%Z
  /\ shouldTakeSessionBreak 10 0
       (mkUserProfile Leisurely (3 # 10) LowMultitasking) (45 # 100) = true
  /\ shouldTakeSessionBreak 30 0
       (mkUserProfile Leisurely (3 # 10) LowMultitasking) (45 # 100) = true.
Proof.
  assert (H : (10 <= 30)%Z) by lia.
  split; [exact H|]. split; [reflexivity|].
  apply (proj2 (proj2 (shouldTakeSessionBreak_capped_monotone 10 30 0
           (mkUserProfile Leisurely (3 # 10) LowMultitasking) (45 # 100) H))).
  reflexivity.
Defined.

End EnhancedPacing.

(** ** Query generators *)

Lemma sliceTo_nonneg {A : Type} (n : Z) (xs : list A) :
  0 <= n -> sliceTo n xs = firstn (Z.to_nat n) xs.
Proof.
  intros H. unfold sliceTo. destruct (Z.ltb_spec n 0); [lia | reflexivity].
Qed.

Lemma In_firstn {A : Type} (n : nat) (xs : list A) (x : A) :
  In x (firstn n xs) -> In x xs.
Proof.
  intros H. rewrite <- (firstn_skipn n xs). apply in_or_app. now left.
Qed.

Lemma NoDup_firstn {A : Type} (n : nat) (xs : list A) :
  NoDup xs -> NoDup (firstn n xs).
Proof.
  intros H. rewrite <- (firstn_skipn n xs) in H.
  now apply NoDup_app_remove_r in H.
Qed.

(** [count + Math.floor(Math.random() * spread)] stays within
    [count .. count + spread - 1]. *)
Lemma random_count (count spread : Z) (rnd : Q) :
  (0 <= rnd)%Q -> (rnd < 1)%Q -> 1 <= spread ->
  count <= count + Qfloor (rnd * inject_Z spread)%Q <= count + spread - 1.
Proof.
  intros H0 H1 Hs.
  pose proof (floor_of_scaled_random rnd spread H0 H1 Hs). lia.
Qed.

(** What shuffling and slicing a pool gives. *)
Lemma shuffled_slice (shuffleArray : list string -> list string)
    (pool : list string) (count spread : Z) (rnd : Q) :
  (forall xs, Permutation xs (shuffleArray xs)) ->
  (0 <= rnd)%Q -> (rnd < 1)%Q -> 0 <= count -> 1 <= spread ->
  count + spread - 1 <= Z.of_nat (List.length pool) ->
  let picked :=
    sliceTo (count + Qfloor (rnd * inject_Z spread)%Q) (shuffleArray pool) in
  count <= Z.of_nat (List.length picked) <= count + spread - 1
  /\ (forall q, In q picked -> In q pool)
  /\ (NoDup pool -> NoDup picked).
Proof.
  intros Hperm H0 H1 Hc Hs Hlen picked. subst picked.
  pose proof (random_count count spread rnd H0 H1 Hs) as Hn.
  rewrite sliceTo_nonneg by lia.
  pose proof (Permutation_length (Hperm pool)) as Hl.
  split; [|split].
  - rewrite length_firstn. lia.
  - intros q Hq. apply In_firstn in Hq.
    eapply Permutation_in; [apply Permutation_sym, Hperm | exact Hq].
  - intros Hnd. apply NoDup_firstn.
    eapply Permutation_NoDup; [apply Hperm | exact Hnd].
Qed.

Lemma prefix_append (b s : string) : String.prefix b (b ++ s) = true.
Proof.
  induction b as [|a b IH]; cbn; [now destruct s|].
  destruct (Ascii.ascii_dec a a); [exact IH | congruence].
Qed.

Lemma includes_prefix (b s : string) :
  String.prefix b s = true -> includes b s = true.
Proof. intros H. destruct s; cbn [includes]; rewrite H; reflexivity. Qed.

Lemma includes_append_left (b p s : string) :
  includes b s = true -> includes b (p ++ s) = true.
Proof.
  intros H. induction p as [|a p IH]; [exact H|].
  change (String a p ++ s)%string with (String a (p ++ s)).
  cbn [includes]. rewrite IH. apply orb_true_r.
Qed.

Lemma includes_self_append (b s : string) : includes b (b ++ s) = true.
Proof. apply includes_prefix, prefix_append. Qed.

Lemma append_nil_right (b : string) : (b ++ "")%string = b.
Proof. induction b as [|a b IH]; cbn; [reflexivity | now rewrite IH]. Qed.

Lemma includes_self (b : string) : includes b b = true.
Proof.
  rewrite <- (append_nil_right b) at 2. apply includes_self_append.
Qed.

Lemma append_inj_l (b s t : string) : (b ++ s = b ++ t)%string -> s = t.
Proof.
  induction b as [|a b IH]; cbn; intros H; [exact H|].
  injection H as H. now apply IH.
Qed.

Lemma chineseRelatedPatterns_nodup (b : string) :
  NoDup (chineseRelatedPatterns b).
Proof.
  unfold chineseRelatedPatterns.
  repeat (constructor;
          [cbn [In]; intros H;
           repeat (destruct H as [H|H];
                   [apply append_inj_l in H; discriminate|]); exact H|]).
  constructor.
Qed.

(** What [generateChineseRelatedTerms] hands back. *)
Lemma chineseRelatedTerms_selection
    (shuffleArray : list string -> list string) (rnd : Q) (baseQuery : string) :
  (forall xs, Permutation xs (shuffleArray xs)) ->
  (0 <= rnd)%Q -> (rnd < 1)%Q ->
  let terms := generateChineseRelatedTerms shuffleArray rnd baseQuery in
  3 <= Z.of_nat (List.length terms) <= 5
  /\ NoDup terms
  /\ (forall t, In t terms ->
        String.prefix baseQuery t = true /\ t <> baseQuery).
Proof.
  intros Hperm H0 H1 terms. subst terms. unfold generateChineseRelatedTerms.
  cbv zeta.
  destruct (shuffled_slice shuffleArray (chineseRelatedPatterns baseQuery)
              3 3 rnd Hperm H0 H1) as [Hlen [Hin Hnd]];
    [lia | lia | cbn; lia |].
  change (inject_Z 3) with 3%Q in *.
  split; [lia|]. split; [apply Hnd, chineseRelatedPatterns_nodup|].
  intros t Ht. apply Hin in Ht. unfold chineseRelatedPatterns in Ht.
  cbn [In] in Ht.
  repeat (destruct Ht as [Ht|Ht];
          [subst t; split;
           [apply prefix_append
           |intros E; rewrite <- (append_nil_right baseQuery) in E at 2;
            apply append_inj_l in E; discriminate]|]).
  contradiction.
Qed.

(** X3: with a shuffle that permutes its argument and [Math.random()] in
    [[0,1)], [generateChineseRelatedTerms] returns three to five terms, no
    term twice, each of them the base query followed by a non-empty
    suffix. *)
Theorem generateChineseRelatedTerms_selection
    (shuffleArray : list string -> list string) (rnd : Q) (baseQuery : string) :
  (forall xs, Permutation xs (shuffleArray xs)) ->
  (0 <= rnd)%Q -> (rnd < 1)%Q ->
  let terms := generateChineseRelatedTerms shuffleArray rnd baseQuery in
  3 <= Z.of_nat (List.length terms) <= 5
  /\ NoDup terms
  /\ (forall t, In t terms ->
        String.prefix baseQuery t = true /\ t <> baseQuery).
Proof. exact (chineseRelatedTerms_selection shuffleArray rnd baseQuery). Qed.

Lemma generateChineseRelatedTerms_selection_witness :
  (0 <= 1 # 2)%Q /\ (1 # 2 < 1)%Q
  /\ generateChineseRelatedTerms (fun xs => xs) (1 # 2) "天气"
     = ["天气 最新消息"; "天气 是什么"; "天气 怎么样"; "天气 详情"]
  /\ NoDup (generateChineseRelatedTerms (fun xs => xs) (1 # 2) "天气").
Proof.
  assert (Hp : forall xs : list string, Permutation xs ((fun ys => ys) xs))
    by (intros xs; apply Permutation_refl).
  assert (H0 : (0 <= 1 # 2)%Q) by (unfold Qle; cbn; lia).
  assert (H1 : (1 # 2 < 1)%Q) by (unfold Qlt; cbn; lia).
  split; [exact H0|]. split; [exact H1|]. split; [reflexivity|].
  exact (proj1 (proj2 (generateChineseRelatedTerms_selection
                         (fun xs => xs) (1 # 2) "天气" Hp H0 H1))).
Defined.

Lemma includes_cons (b s : string) (a : Ascii.ascii) :
  includes b s = true -> includes b (String a s) = true.
Proof. intros H. cbn [includes]. rewrite H. apply orb_true_r. Qed.

(** The patterns of [generateContextualSearches] all contain the base
    query, whatever the language. *)
Lemma contextual_patterns_include (language baseQuery : string) (ps : list string) :
  contextualPatterns language baseQuery = Some ps ->
  (7 <= List.length ps <= 8)%nat
  /\ forall q, In q ps -> includes baseQuery q = true.
Proof.
  unfold contextualPatterns. intros H.
  repeat match type of H with
         | (if ?c then _ else _) = _ => destruct c
         end;
    try discriminate; injection H as <-;
    (split; [cbn; lia|]);
    intros q Hq; cbn [In] in Hq;
    repeat (destruct Hq as [Hq|Hq];
            [subst q;
             first [ apply includes_self
                   | apply includes_self_append
                   | apply includes_append_left, includes_self
                   | repeat apply includes_cons; apply includes_self ]|]);
    contradiction.
Qed.

(** What [generateContextualSearches] hands back. *)
Lemma contextualSearches_selection
    (shuffleArray : list string -> list string) (rnd : Q)
    (baseQuery language : string) :
  (forall xs, Permutation xs (shuffleArray xs)) ->
  (0 <= rnd)%Q -> (rnd < 1)%Q ->
  let found := generateContextualSearches shuffleArray rnd baseQuery language in
  2 <= Z.of_nat (List.length found) <= 3
  /\ (forall q, In q found -> includes baseQuery q = true)
  /\ (baseQuery <> "" -> forall q, In q found -> truthy (Some q) = true).
Proof.
  intros Hperm H0 H1 found. subst found. unfold generateContextualSearches.
  cbv zeta.
  set (patterns := match contextualPatterns language baseQuery with
                   | Some ps => ps
                   | None => match contextualPatterns "en" baseQuery with
                             | Some ps => ps
                             | None => []
                             end
                   end).
  assert (Hpat : (7 <= List.length patterns <= 8)%nat
                 /\ forall q, In q patterns -> includes baseQuery q = true).
  { subst patterns.
    destruct (contextualPatterns language baseQuery) as [ps|] eqn:E.
    - exact (contextual_patterns_include _ _ _ E).
    - exact (contextual_patterns_include "en" baseQuery _ eq_refl). }
  destruct Hpat as [Hlen Hinc].
  destruct (shuffled_slice shuffleArray patterns 2 2 rnd Hperm H0 H1)
    as [Hn [Hin _]]; [lia | lia | lia |].
  change (inject_Z 2) with 2%Q in *.
  split; [lia|]. split.
  - intros q Hq. apply Hinc, Hin, Hq.
  - intros Hne q Hq. pose proof (Hinc q (Hin q Hq)) as Hi.
    destruct q as [|a q]; [|reflexivity].
    destruct baseQuery; [congruence | discriminate Hi].
Qed.

(** X4: with a shuffle that permutes its argument and [Math.random()] in
    [[0,1)], [generateContextualSearches] returns two or three queries in
    each language [doSearch] asks for (Japanese for the country JP, Chinese
    for CN, English otherwise), each of them containing the base query;
    when the base query is not empty no returned query is empty. *)
Theorem generateContextualSearches_follow_up
    (shuffleArray : list string -> list string) (rnd : Q)
    (baseQuery : string) (country : option string) :
  (forall xs, Permutation xs (shuffleArray xs)) ->
  (0 <= rnd)%Q -> (rnd < 1)%Q ->
  let found :=
    generateContextualSearches shuffleArray rnd baseQuery
      (contextLanguage country) in
  2 <= Z.of_nat (List.length found) <= 3
  /\ (forall q, In q found -> includes baseQuery q = true)
  /\ (baseQuery <> "" -> forall q, In q found -> truthy (Some q) = true).
Proof.
  exact (contextualSearches_selection shuffleArray rnd baseQuery
           (contextLanguage country)).
Qed.

Lemma generateContextualSearches_follow_up_witness :
  (0 <= 1 # 2)%Q /\ (1 # 2 < 1)%Q
  /\ generateContextualSearches (fun xs => xs) (1 # 2) "rocq prover"
       (contextLanguage (Some "US"))
     = ["rocq prover"; "what is rocq prover"; "rocq prover meaning"]
  /\ (2 <= Z.of_nat (List.length
                       (generateContextualSearches (fun xs => xs) (1 # 2)
                          "rocq prover" (contextLanguage (Some "US")))) <= 3).
Proof.
  assert (Hp : forall xs : list string, Permutation xs ((fun ys => ys) xs))
    by (intros xs; apply Permutation_refl).
  assert (H0 : (0 <= 1 # 2)%Q) by (unfold Qle; cbn; lia).
  assert (H1 : (1 # 2 < 1)%Q) by (unfold Qlt; cbn; lia).
  split; [exact H0|]. split; [exact H1|]. split; [reflexivity|].
  exact (proj1 (generateContextualSearches_follow_up
                  (fun xs => xs) (1 # 2) "rocq prover" (Some "US") Hp H0 H1)).
Defined.

(** With [Math.random()] in its range, [pickRandom] reads an element of a
    non-empty array. *)
Lemma pickRandom_in (xs : list string) (rnd : Q) :
  (0 <= rnd)%Q -> (rnd < 1)%Q -> xs <> [] -> In (pickRandom xs rnd) xs.
Proof.
  intros H0 H1 Hne. unfold pickRandom. cbv zeta.
  assert (Hlen : 1 <= Z.of_nat (List.length xs))
    by (destruct xs; [congruence | cbn [List.length]; lia]).
  pose proof (floor_of_scaled_random rnd _ H0 H1 Hlen) as Hi.
  destruct (Z.ltb_spec (Qfloor (rnd * inject_Z (Z.of_nat (List.length xs)))) 0);
    [lia|].
  apply nth_In. lia.
Qed.

Lemma append_nonempty_r (s t : string) : t <> "" -> (s ++ t)%string <> "".
Proof. intros H. destruct s; cbn; [exact H | discriminate]. Qed.

Lemma append_nonempty_l (s t : string) : s <> "" -> (s ++ t)%string <> "".
Proof. intros H. destruct s; cbn; [congruence | discriminate]. Qed.

Lemma generateAdditionalQueries_length (year month day : Z) (rnd : nat -> Q) :
  List.length (generateAdditionalQueries year month day rnd) = 26%nat.
Proof. reflexivity. Qed.

(** X5: with [Math.random()] in [[0,1)], [generateAdditionalQueries] returns
    26 queries, none of them empty: 8 dated ones, then 10 of the form
    [subject modifier] with both words from the lists of the function, then
    the 8 question patterns in their order, each followed by a topic of the
    list; a word is never [undefined]. *)
Theorem generateAdditionalQueries_shape (year month day : Z) (rnd : nat -> Q) :
  (forall k, (0 <= rnd k)%Q /\ (rnd k < 1)%Q) ->
  let generated := generateAdditionalQueries year month day rnd in
  List.length generated = 26%nat
  /\ (forall q, In q generated -> q <> "")
  /\ (forall i, (i < 10)%nat ->
        exists subject modifier,
          In subject additionalSubjects /\ In modifier additionalModifiers
          /\ nth_error generated (8 + i)
             = Some (subject ++ " " ++ modifier)%string)
  /\ (forall j, (j < 8)%nat ->
        exists pattern topic,
          nth_error additionalPatterns j = Some pattern
          /\ In topic additionalTopics
          /\ nth_error generated (18 + j) = Some (pattern ++ topic)%string).
Proof.
  intros Hrnd generated. subst generated.
  split; [reflexivity|]. split; [|split].
  - intros q Hq. unfold generateAdditionalQueries in Hq. cbv zeta in Hq.
    cbn [map seq combine fst snd app In] in Hq.
    repeat (destruct Hq as [Hq|Hq];
            [subst q;
             first [ discriminate
                   | apply append_nonempty_r; discriminate
                   | apply append_nonempty_l; discriminate ]|]).
    contradiction.
  - intros i Hi.
    exists (pickRandom additionalSubjects (rnd (2 * i)%nat)),
           (pickRandom additionalModifiers (rnd (2 * i + 1)%nat)).
    split; [apply pickRandom_in; try apply Hrnd; discriminate|].
    split; [apply pickRandom_in; try apply Hrnd; discriminate|].
    do 10 (destruct i as [|i]; [reflexivity|]). lia.
  - intros j Hj.
    exists (nth j additionalPatterns ""),
           (pickRandom additionalTopics (rnd (20 + j)%nat)).
    split; [do 8 (destruct j as [|j]; [reflexivity|]); lia|].
    split; [apply pickRandom_in; try apply Hrnd; discriminate|].
    do 8 (destruct j as [|j]; [reflexivity|]). lia.
Qed.

Lemma generateAdditionalQueries_shape_witness :
  (forall k : nat, (0 <= (fun _ => 1 # 2) k)%Q /\ ((fun _ => 1 # 2) k < 1)%Q)
  /\ nth_error (generateAdditionalQueries 2025 7 14 (fun _ => 1 # 2)) 8
     = Some "健康 レビュー"
  /\ List.length (generateAdditionalQueries 2025 7 14 (fun _ => 1 # 2)) = 26%nat.
Proof.
  assert (H : forall k : nat,
             (0 <= (fun _ => 1 # 2) k)%Q /\ ((fun _ => 1 # 2) k < 1)%Q)
    by (intros k; split; [unfold Qle | unfold Qlt]; cbn; lia).
  split; [exact H|]. split; [reflexivity|].
  exact (proj1 (generateAdditionalQueries_shape 2025 7 14 (fun _ => 1 # 2) H)).
Defined.

(** ** Invariants of a run *)

Section StepLaws.

Context {A B : Type}.
Variable R : State -> State -> Prop.
Hypothesis R_refl : forall w, R w w.
Hypothesis R_trans : forall a b c, R a b -> R b c -> R a c.

Lemma respects_ret (a : A) : respects R (ret a).
Proof. intros w. apply R_refl. Qed.

Lemma respects_throw (e : string) : respects R (@throw A e).
Proof. intros w. apply R_refl. Qed.

Lemma respects_outOfFuel : respects R (@outOfFuel A).
Proof. intros w. apply R_refl. Qed.

Lemma respects_bind (m : M A) (k : A -> M B) :
  respects R m -> (forall a, respects R (k a)) -> respects R (bind m k).
Proof.
  intros Hm Hk w. unfold bind. specialize (Hm w).
  destruct (m w) as [[a|e|] w']; cbn in *; try exact Hm.
  eapply R_trans; [exact Hm | apply Hk].
Qed.

Lemma respects_tryCatch (m : M A) (h : string -> M A) :
  respects R m -> (forall e, respects R (h e)) -> respects R (tryCatch m h).
Proof.
  intros Hm Hh w. unfold tryCatch. specialize (Hm w).
  destruct (m w) as [[a|e|] w']; cbn in *; try exact Hm.
  eapply R_trans; [exact Hm | apply Hh].
Qed.

End StepLaws.

Lemma extendsTrace_refl (P : Event -> Prop) (w : State) : extendsTrace P w w.
Proof. exists []. split; [reflexivity | constructor]. Qed.

Lemma extendsTrace_trans (P : Event -> Prop) (a b c : State) :
  extendsTrace P a b -> extendsTrace P b c -> extendsTrace P a c.
Proof.
  intros [e1 [H1 F1]] [e2 [H2 F2]]. exists (e2 ++ e1).
  split; [rewrite H2, H1; apply app_assoc | apply Forall_app; now split].
Qed.

(** The delay between two attempts, once rounded down, for a controller
    state the worker can be in. *)
Lemma smartDelay_floor_bounds (isMobile : bool) (p : Pacing) (rnd : Q) :
  pacingReachable p -> (0 <= rnd)%Q -> (rnd < 1)%Q ->
  baseMin isMobile <= Qfloor (getSmartSearchDelay isMobile p rnd)
                   <= baseMax isMobile * 6.
Proof.
  intros Hreach Hr0 Hr1.
  destruct (pacing_invariant p Hreach) as [Hcf [k [Hk Ham]]].
  destruct (failureMultiplier_halves p Hcf) as [m [Hm Hfm]].
  assert (Hd : (inject_Z (baseMin isMobile) * 1
                <= getSmartSearchDelay isMobile p rnd)%Q
               /\ (getSmartSearchDelay isMobile p rnd
                   <= inject_Z (baseMax isMobile) * 3 * 2)%Q).
  { unfold getSmartSearchDelay. cbv zeta.
    destruct isMobile; cbn [baseMin baseMax].
    - apply (delay_between 60000 150000 3000 7500 _ _ rnd m k);
        try assumption; lia.
    - apply (delay_between 45000 120000 2250 6000 _ _ rnd m k);
        try assumption; lia. }
  destruct Hd as [Hlo Hhi]. split.
  - rewrite <- (Qfloor_Z (baseMin isMobile)). apply Qfloor_resp_le.
    rewrite Qmult_1_r in Hlo. exact Hlo.
  - rewrite <- (Qfloor_Z (baseMax isMobile * 6)). apply Qfloor_resp_le.
    rewrite inject_Z_mult. change (inject_Z 6) with 6%Q.
    eapply Qle_trans; [exact Hhi|]. rewrite <- Qmult_assoc.
    apply Qle_refl.
Qed.

Section WaitBounds.

Variable env : Env.
Hypothesis Hrandom : randomInRange env.

Lemma paced_refl (w : State) : paced env w w.
Proof. intros H. split; [exact H | apply extendsTrace_refl]. Qed.

Lemma paced_trans (a b c : State) :
  paced env a b -> paced env b c -> paced env a c.
Proof.
  intros Hab Hbc Ha. destruct (Hab Ha) as [Hb Eab].
  destruct (Hbc Hb) as [Hc Ebc]. split; [exact Hc|].
  eapply extendsTrace_trans; eassumption.
Qed.

Lemma paced_ret {A} (a : A) : respects (paced env) (ret a).
Proof. apply respects_ret, paced_refl. Qed.

Lemma paced_throw {A} (e : string) : respects (paced env) (@throw A e).
Proof. apply respects_throw, paced_refl. Qed.

Lemma paced_outOfFuel {A} : respects (paced env) (@outOfFuel A).
Proof. apply respects_outOfFuel, paced_refl. Qed.

Lemma paced_bind {A B} (m : M A) (k : A -> M B) :
  respects (paced env) m -> (forall a, respects (paced env) (k a)) ->
  respects (paced env) (bind m k).
Proof. apply respects_bind, paced_trans. Qed.

Lemma paced_tryCatch {A} (m : M A) (h : string -> M A) :
  respects (paced env) m -> (forall e, respects (paced env) (h e)) ->
  respects (paced env) (tryCatch m h).
Proof. apply respects_tryCatch, paced_trans. Qed.

Lemma paced_silent (w w' : State) :
  pacing w' = pacing w -> trace w' = trace w -> paced env w w'.
Proof.
  intros Hp Ht H. rewrite Hp. split; [exact H|].
  exists []. split; [exact Ht | constructor].
Qed.

Lemma paced_tick op : respects (paced env) (tick op).
Proof. intros w. now apply paced_silent. Qed.

Lemma paced_dateNow : respects (paced env) dateNow.
Proof. intros w. now apply paced_silent. Qed.

Lemma paced_advance ms : respects (paced env) (advance ms).
Proof. intros w. now apply paced_silent. Qed.

Lemma paced_getPacing : respects (paced env) getPacing.
Proof. intros w. now apply paced_silent. Qed.

Lemma paced_emit e : isWait e = false -> respects (paced env) (emit e).
Proof.
  intros He w H. split; [exact H|]. exists [e]. split; [reflexivity|].
  constructor; [|constructor]. destruct e; try exact I. discriminate.
Qed.

Lemma paced_wait ms : 1000 <= ms <= 720000 -> respects (paced env) (wait ms).
Proof.
  intros Hms w H. split; [exact H|]. exists [EvWait ms].
  split; [reflexivity|]. constructor; [|constructor].
  cbn. destruct (bot_isMobile env); cbn; lia.
Qed.

Lemma paced_refresh_wait :
  bot_isMobile env = true -> respects (paced env) (wait 180000).
Proof.
  intros Hm w H. split; [exact H|]. exists [EvWait 180000].
  split; [reflexivity|]. constructor; [|constructor].
  cbn. rewrite Hm. cbn. lia.
Qed.

Lemma paced_success : respects (paced env) (modifyPacing handleSearchSuccess).
Proof.
  intros w H. split; [now apply reach_success|].
  exists []. split; [reflexivity | constructor].
Qed.

Lemma paced_failure : respects (paced env) (modifyPacing handleSearchFailure).
Proof.
  intros w H. split; [now apply reach_failure|].
  exists []. split; [reflexivity | constructor].
Qed.

Local Opaque getSmartSearchDelay Qfloor calculatePoints.

(** The wait between two attempts. *)
Lemma paced_smartDelay {A} (k : nat) (a : A) :
  respects (paced env)
    (bind getPacing (fun p =>
       bind (wait (Qfloor (getSmartSearchDelay (bot_isMobile env) p
                             (env_random env k))))
            (fun _ => ret a))).
Proof.
  intros w H. split; [exact H|].
  exists [EvWait (Qfloor (getSmartSearchDelay (bot_isMobile env) (pacing w)
                            (env_random env k)))].
  split; [reflexivity|]. constructor; [|constructor].
  destruct (Hrandom k) as [H0 H1].
  pose proof (smartDelay_floor_bounds (bot_isMobile env) (pacing w)
                (env_random env k) H H0 H1) as Hb.
  cbn [waitWithin]. destruct (bot_isMobile env); cbn [baseMin baseMax] in *; lia.
Qed.

Create HintDb paced.

#[local] Hint Resolve paced_tick paced_dateNow paced_advance paced_getPacing
  paced_success paced_failure paced_ret paced_throw paced_outOfFuel : paced.

Ltac pacedStep :=
  repeat first
    [ progress intros
    | solve [auto with paced]
    | progress cbv zeta
    | match goal with
      | |- respects _ (bind getPacing _) => apply paced_smartDelay
      end
    | apply paced_ret | apply paced_throw
    | apply paced_wait; lia
    | apply paced_emit; reflexivity
    | apply paced_tryCatch | apply paced_bind
    | match goal with
      | |- respects _ (if ?b then _ else _) => destruct b
      | |- respects _ (match ?x with _ => _ end) => destruct x
      end ].

Lemma paced_getSearchPoints site : respects (paced env) (getSearchPoints env site).
Proof. unfold getSearchPoints. pacedStep. Qed.

Lemma paced_getLatestTab ok : respects (paced env) (getLatestTab ok).
Proof. unfold getLatestTab. pacedStep. Qed.

#[local] Hint Resolve paced_getSearchPoints paced_getLatestTab : paced.

Lemma paced_getEmptySearchCounters :
  respects (paced env) (getEmptySearchCounters env).
Proof. unfold getEmptySearchCounters. pacedStep. Qed.

#[local] Hint Resolve paced_getEmptySearchCounters : paced.

Lemma paced_bingSearchTry i : respects (paced env) (bingSearchTry env i).
Proof. unfold bingSearchTry. pacedStep. Qed.

#[local] Hint Resolve paced_bingSearchTry : paced.

Lemma paced_bingSearchLoop remaining i :
  respects (paced env) (bingSearchLoop env remaining i).
Proof.
  revert i. induction remaining as [|r IH]; intros i; cbn [bingSearchLoop];
    pacedStep.
Qed.

#[local] Hint Resolve paced_bingSearchLoop : paced.

Lemma paced_bingSearch query : respects (paced env) (bingSearch env query).
Proof. unfold bingSearch. pacedStep. Qed.

#[local] Hint Resolve paced_bingSearch : paced.

Lemma paced_pickQuery planned L : respects (paced env) (pickQuery env planned L).
Proof. unfold pickQuery. pacedStep. Qed.

Lemma paced_forceCheck L : respects (paced env) (forceCheck env L).
Proof. unfold forceCheck. pacedStep. Qed.

#[local] Hint Resolve paced_pickQuery paced_forceCheck : paced.

Lemma paced_stallUpdate query newMissingPoints L :
  respects (paced env) (stallUpdate env query newMissingPoints L).
Proof. unfold stallUpdate. pacedStep. Qed.

Lemma paced_stallAbort L : respects (paced env) (stallAbort env L).
Proof. unfold stallAbort. pacedStep. Qed.

#[local] Hint Resolve paced_stallUpdate paced_stallAbort : paced.

Lemma paced_afterAttempt query searchCounters L :
  respects (paced env) (afterAttempt env query searchCounters L).
Proof.
  unfold afterAttempt. cbv zeta.
  apply paced_bind; [pacedStep|]. intros [skip L1].
  destruct skip; [pacedStep|].
  destruct (missingPoints (setMissingPoints L1
              (calculatePoints (bot_isMobile env) searchCounters)) =? 0);
    [pacedStep|].
  match goal with
  | |- respects _ (if ?b then _ else _) => destruct b eqn:Erefresh
  end.
  - apply andb_true_iff in Erefresh. destruct Erefresh as [_ Hm].
    pose proof (paced_refresh_wait Hm) as Hlong. pacedStep.
  - pacedStep.
Qed.

#[local] Hint Resolve paced_afterAttempt : paced.

Lemma paced_searchIteration start planned L :
  respects (paced env) (searchIteration env start planned L).
Proof. unfold searchIteration. pacedStep. Qed.

#[local] Hint Resolve paced_searchIteration : paced.

Lemma paced_searchLoop start queries L :
  respects (paced env) (searchLoop env start queries L).
Proof.
  revert L. induction queries as [|planned rest IH]; intros L;
    cbn [searchLoop]; pacedStep.
Qed.

Lemma paced_extraTerms terms L count :
  respects (paced env) (extraTerms env terms L count).
Proof.
  revert L count. induction terms as [|term rest IH]; intros L count;
    cbn [extraTerms]; pacedStep.
Qed.

#[local] Hint Resolve paced_searchLoop paced_extraTerms : paced.

Lemma paced_extraIteration x : respects (paced env) (extraIteration env x).
Proof. unfold extraIteration. pacedStep. Qed.

#[local] Hint Resolve paced_extraIteration : paced.

Lemma paced_extraLoop fuel x : respects (paced env) (extraLoop env fuel x).
Proof.
  revert x. induction fuel as [|fuel IH]; intros x; cbn [extraLoop];
    pacedStep.
Qed.

#[local] Hint Resolve paced_extraLoop : paced.

Lemma paced_extraSearches fuel allSearchQueries L :
  respects (paced env) (extraSearches env fuel allSearchQueries L).
Proof. unfold extraSearches. pacedStep. Qed.

#[local] Hint Resolve paced_extraSearches : paced.

Lemma paced_doSearch fuel : respects (paced env) (doSearch env fuel).
Proof. unfold doSearch. pacedStep. Qed.

End WaitBounds.



(** ** Attempts of a run *)

Section AttemptBounds.

Variable env : Env.

Lemma searchesAtMost_keeps {A} (m : M A) :
  keepsSearches m -> searchesAtMost 0 m.
Proof. intros H w. rewrite H. lia. Qed.

Lemma searchesAtMost_weaken {A} (n n' : nat) (m : M A) :
  (n <= n')%nat -> searchesAtMost n m -> searchesAtMost n' m.
Proof. intros Hn H w. specialize (H w). lia. Qed.

Lemma searchesAtMost_bind {A B} (n1 n2 : nat) (m : M A) (k : A -> M B) :
  searchesAtMost n1 m -> (forall a, searchesAtMost n2 (k a)) ->
  searchesAtMost (n1 + n2) (bind m k).
Proof.
  intros Hm Hk w. unfold bind. specialize (Hm w).
  destruct (m w) as [[a|e|] w']; cbn in *; try lia.
  specialize (Hk a w'). lia.
Qed.

Lemma searchesAtMost_bind_ret {A B} (n : nat) (a : A) (k : A -> M B) :
  searchesAtMost n (k a) -> searchesAtMost n (bind (ret a) k).
Proof. intros H w. exact (H w). Qed.

Lemma searchesAtMost_bingSearch query :
  searchesAtMost 1 (bingSearch env query).
Proof.
  intros w. destruct (bingSearch_one_search env query w) as [c [w' [E Hs]]].
  rewrite E. cbn [snd]. lia.
Qed.

#[local] Hint Resolve keepsSearches_tick keepsSearches_advance
  keepsSearches_wait keepsSearches_modifyPacing keepsSearches_getSearchPoints
  keepsSearches_getEmptySearchCounters : effects.

Lemma keepsSearches_dateNow : keepsSearches dateNow.
Proof. intros w. reflexivity. Qed.

Lemma keepsSearches_getPacing : keepsSearches getPacing.
Proof. intros w. reflexivity. Qed.

Lemma keepsSearches_quiet e : isSearch e = false -> keepsSearches (emit e).
Proof. intros H w. unfold searchCount. cbn. now rewrite H. Qed.

#[local] Hint Resolve keepsSearches_dateNow keepsSearches_getPacing : effects.

Ltac quiet :=
  repeat first
    [ progress counting
    | apply keepsSearches_quiet; reflexivity ].

Lemma keepsSearches_getLatestTab ok : keepsSearches (getLatestTab ok).
Proof. unfold getLatestTab. quiet. Qed.

Lemma keepsSearches_pickQuery planned L :
  keepsSearches (pickQuery env planned L).
Proof. unfold pickQuery. quiet. Qed.

Lemma keepsSearches_forceCheck L : keepsSearches (forceCheck env L).
Proof. unfold forceCheck. quiet. Qed.

#[local] Hint Resolve keepsSearches_getLatestTab keepsSearches_pickQuery
  keepsSearches_forceCheck : effects.

Lemma keepsSearches_stallUpdate query newMissingPoints L :
  keepsSearches (stallUpdate env query newMissingPoints L).
Proof. unfold stallUpdate. quiet. Qed.

Lemma keepsSearches_stallAbort L : keepsSearches (stallAbort env L).
Proof. unfold stallAbort. quiet. Qed.

#[local] Hint Resolve keepsSearches_stallUpdate keepsSearches_stallAbort
  : effects.

Lemma keepsSearches_afterAttempt query searchCounters L :
  keepsSearches (afterAttempt env query searchCounters L).
Proof. unfold afterAttempt. quiet. Qed.

Lemma searchesAtMost_searchIteration start planned L :
  searchesAtMost 1 (searchIteration env start planned L).
Proof.
  unfold searchIteration.
  apply (searchesAtMost_bind 0 1); [apply searchesAtMost_keeps; quiet|].
  intros t. destruct (t - start >? searchTimeoutMs).
  - apply (searchesAtMost_weaken 0); [lia|]. apply searchesAtMost_keeps. quiet.
  - apply (searchesAtMost_bind 0 1);
      [apply searchesAtMost_keeps, keepsSearches_pickQuery|].
    intros [query L1]. cbv zeta.
    apply (searchesAtMost_bind 1 0); [apply searchesAtMost_bingSearch|].
    intros c. apply searchesAtMost_keeps, keepsSearches_afterAttempt.
Qed.

Lemma searchesAtMost_searchLoop start queries L :
  searchesAtMost (List.length queries) (searchLoop env start queries L).
Proof.
  revert L. induction queries as [|planned rest IH]; intros L;
    cbn [searchLoop List.length].
  - apply searchesAtMost_keeps. quiet.
  - apply (searchesAtMost_bind 1 (List.length rest));
      [apply searchesAtMost_searchIteration|].
    intros [ctl L']. destruct ctl; [apply IH | |];
      (apply (searchesAtMost_weaken 0); [lia|];
       apply searchesAtMost_keeps; quiet).
Qed.

Lemma searchCount_grows_extraLoop fuel x w :
  0 <= extraSearchCount x ->
  (searchCount (trace w)
   <= searchCount (trace (snd (extraLoop env fuel x w))))%nat.
Proof.
  revert x w. induction fuel as [|fuel IH]; intros x w Hcount;
    cbn [extraLoop]; [cbn; lia|].
  destruct ((missingPoints (extraLocals x) >? 0)
            && (extraSearchCount x <? maxExtraSearches env)); [|cbn; lia].
  unfold bind at 1. pose proof (extraIteration_run env x w Hcount) as Hrun.
  destruct (extraIteration env x w) as [[[ctl x']|e|] w'];
    [|cbn; lia|contradiction].
  destruct Hrun as [H1 [_ [H3 _]]].
  destruct ctl; cbn [ret snd]; [|lia|lia].
  specialize (IH x' w' ltac:(lia)). lia.
Qed.

Lemma searchesAtMost_extraSearches fuel allSearchQueries L :
  searchesAtMost (Z.to_nat (maxExtraSearches env))
                 (extraSearches env fuel allSearchQueries L).
Proof.
  unfold extraSearches. destruct (missingPoints L >? 0).
  - replace (Z.to_nat (maxExtraSearches env))
      with (Z.to_nat (maxExtraSearches env) + 0)%nat by lia.
    apply searchesAtMost_bind.
    + intros w.
      pose proof (extraLoop_searches env fuel
                    (mkExtra L 0 O allSearchQueries) w) as Hup.
      pose proof (searchCount_grows_extraLoop fuel
                    (mkExtra L 0 O allSearchQueries) w) as Hlow.
      cbn [extraSearchCount] in Hup, Hlow.
      rewrite Z.sub_0_r in Hup. specialize (Hup ltac:(lia)).
      specialize (Hlow ltac:(lia)). lia.
    + intros [ctl x]. apply searchesAtMost_keeps. quiet.
  - apply (searchesAtMost_weaken 0); [lia|]. apply searchesAtMost_keeps. quiet.
Qed.

End AttemptBounds.

(** X7: whatever the environment does, a run of [doSearch] calls
    [bingSearch] at most once per planned query plus 20 times on mobile and
    50 times on desktop, where the planned queries are the shuffled,
    de-duplicated and flattened batch of [generateDiversifiedQueries]. *)
Theorem doSearch_attempts_bounded (env : Env) (fuel : nat) (w : State)
    (generated : list SearchItem) :
  env_plan env = Some generated ->
  let planned :=
    planQueries (env_shuffle env) (bot_isMobile env) generated in
  let w' := snd (doSearch env fuel w) in
  (searchCount (trace w) <= searchCount (trace w')
   <= searchCount (trace w) + List.length planned
      + (if bot_isMobile env then 20 else 50))%nat.
Proof.
  intros Hplan planned w'. subst planned w'.
  assert (H : searchesAtMost
                (0 + (0 + (0 + (0 + (0 +
                  (List.length (planQueries (env_shuffle env)
                                  (bot_isMobile env) generated)
                   + (Z.to_nat (maxExtraSearches env) + 0)))))))
                (doSearch env fuel)).
  { unfold doSearch. rewrite Hplan.
    apply searchesAtMost_bind;
      [apply searchesAtMost_keeps, keepsSearches_getLatestTab|]. intros _.
    apply searchesAtMost_bind;
      [apply searchesAtMost_keeps, keepsSearches_getSearchPoints|].
    intros c. cbv zeta.
    destruct (calculatePoints (bot_isMobile env) c =? 0).
    { eapply searchesAtMost_weaken; [apply Nat.le_0_l|].
      apply searchesAtMost_keeps, keepsSearches_ret. }
    apply searchesAtMost_bind_ret.
    apply searchesAtMost_bind.
    { apply searchesAtMost_keeps.
      destruct (env_gotoOk env);
        [apply keepsSearches_ret | apply keepsSearches_throw]. }
    intros _.
    apply searchesAtMost_bind;
      [apply searchesAtMost_keeps, keepsSearches_wait|]. intros _.
    apply searchesAtMost_bind;
      [apply searchesAtMost_keeps; intros w0; reflexivity|].
    intros start.
    apply searchesAtMost_bind; [apply searchesAtMost_searchLoop|].
    intros L.
    apply searchesAtMost_bind; [apply searchesAtMost_extraSearches|].
    intros L'. apply searchesAtMost_keeps, keepsSearches_ret. }
  specialize (H w). unfold maxExtraSearches in H.
  destruct (bot_isMobile env); cbn [Z.to_nat] in H; lia.
Qed.

Lemma doSearch_attempts_bounded_witness :
  env_plan envQuiet = Some plainPlan
  /\ (searchCount (trace (snd (doSearch envQuiet 60 initialState)))
      <= searchCount (trace initialState)
         + List.length (planQueries (env_shuffle envQuiet)
                          (bot_isMobile envQuiet) plainPlan)
         + 50)%nat.
Proof.
  assert (H : env_plan envQuiet = Some plainPlan) by reflexivity.
  split; [exact H|].
  exact (proj2 (doSearch_attempts_bounded envQuiet 60 initialState plainPlan H)).
Defined.

(** ** What an attempt reads *)

Section AttemptReads.

Variable env : Env.

Lemma getEmptySearchCounters_lastFetch (w : State) :
  exists c w',
    getEmptySearchCounters env w = (Ok c, w')
    /\ calls w' OpGetSearchPoints = S (calls w OpGetSearchPoints)
    /\ c = match env_points env (calls w OpGetSearchPoints) with
           | Some fetched => fetched
           | None => emptyCounters
           end.
Proof.
  unfold getEmptySearchCounters, getSearchPoints, tryCatch, bind, tick, emit,
    ret, throw.
  cbn [fst snd]. destruct (env_points env (calls w OpGetSearchPoints));
    do 2 eexists; (split; [reflexivity|]); cbn; split; reflexivity.
Qed.

(** One pass either hands back counters of the last fetch, or asks for
    another pass without having fetched anything. *)
Lemma bingSearchTry_reads (i : Z) (w : State) :
  match bingSearchTry env i w with
  | (Ok (TryReturn c), w') => lastFetch env w w' c
  | (Ok _, w') => calls w' OpGetSearchPoints = calls w OpGetSearchPoints
  | (_, _) => False
  end.
Proof.
  unfold bingSearchTry. unfold bind at 1. cbn [tick]. unfold bind at 1.
  cbn [advance].
  set (w1 := mkState _ _ _ _).
  assert (Hw1 : calls w1 OpGetSearchPoints = calls w OpGetSearchPoints)
    by reflexivity.
  clearbody w1.
  assert (Hempty : forall w2,
             calls w2 OpGetSearchPoints = calls w OpGetSearchPoints ->
             match (c <- getEmptySearchCounters env ;; ret (TryReturn c))%monad w2
             with
             | (Ok (TryReturn c), w') => lastFetch env w w' c
             | (Ok _, w') =>
                 calls w' OpGetSearchPoints = calls w OpGetSearchPoints
             | (_, _) => False
             end).
  { intros w2 H2. unfold bind.
    destruct (getEmptySearchCounters_lastFetch w2) as [c [w' [E [Hc Hv]]]].
    rewrite E. cbn [ret]. unfold lastFetch. rewrite Hc, H2. cbn [pred].
    rewrite <- H2. split; [lia | exact Hv]. }
  destruct (outcome (env_try env (calls w OpTry))) as [recovered| |f].
  - destruct recovered; [cbn; exact Hw1 | now apply Hempty].
  - unfold tryCatch, bind at 1, getSearchPoints, bind at 1. cbn [tick].
    unfold bind at 1. cbn [emit]. cbn [calls Op_eqb].
    destruct (env_points env (calls w1 OpGetSearchPoints)) as [c|] eqn:E.
    + cbn. unfold lastFetch. cbn. rewrite Hw1 in *. rewrite E.
      split; [lia | reflexivity].
    + cbn [throw]. unfold bind at 1.
      match goal with
      | |- context [getEmptySearchCounters env ?w0] =>
          destruct (getEmptySearchCounters_lastFetch w0) as [c [w' [E' [Hc Hv]]]];
          rewrite E'
      end.
      cbn [ret]. unfold lastFetch. rewrite Hc. cbn [calls Op_eqb pred] in *.
      rewrite Hw1 in *. split; [lia | exact Hv].
  - unfold bind at 1. cbn [modifyPacing]. cbv zeta.
    set (w2 := mkState _ _ _ _).
    assert (Hw2 : calls w2 OpGetSearchPoints = calls w OpGetSearchPoints)
      by exact Hw1.
    clearbody w2.
    destruct (includes "Target page, context or browser has been closed"
                (errorMessage f)
              || includes "page.reload: Target page" (errorMessage f)
              || pageIsClosed f); [now apply Hempty|].
    destruct ((includes "Target crashed" (errorMessage f)
               || includes "page.evaluate: Target crashed" (errorMessage f)
               || includes "Protocol error" (errorMessage f)
               || (includes "out of memory" (errorMessage f)
                   || includes "memory" (errorMessage f)
                   || includes "OOM" (errorMessage f))) && (i <? 4)).
    { destruct (newPageOk f); [cbn; exact Hw2 | now apply Hempty]. }
    destruct (i =? 4); [cbn; exact Hw2|].
    unfold bind at 1, tryCatch, getLatestTab, bind at 1. cbn [wait].
    destruct (latestTabOk f).
    + cbn. exact Hw2.
    + cbn [throw ret bind]. apply Hempty. exact Hw2.
Qed.

Lemma bingSearchLoop_reads (remaining : nat) (i : Z) (w : State) :
  exists c w',
    bingSearchLoop env remaining i w = (Ok c, w') /\ lastFetch env w w' c.
Proof.
  revert i w. induction remaining as [|r IH]; intros i w;
    cbn [bingSearchLoop].
  - destruct (getEmptySearchCounters_lastFetch w) as [c [w' [E [Hc Hv]]]].
    exists c, w'. split; [exact E|]. unfold lastFetch. rewrite Hc. cbn [pred].
    split; [lia | exact Hv].
  - unfold bind at 1. pose proof (bingSearchTry_reads i w) as Htry.
    destruct (bingSearchTry env i w) as [[[ | |c]|e|] w1]; try contradiction.
    + destruct (IH (i + 1) w1) as [c [w' [E [Hn Hv]]]].
      exists c, w'. split; [exact E|]. unfold lastFetch.
      rewrite <- Htry. split; [exact Hn | exact Hv].
    + destruct (getEmptySearchCounters_lastFetch w1) as [c [w' [E [Hc Hv]]]].
      exists c, w'. split; [exact E|]. unfold lastFetch. rewrite Hc.
      cbn [pred]. rewrite <- Htry. split; [lia | exact Hv].
    + exists c, w1. split; [reflexivity | exact Htry].
Qed.

#[local] Hint Resolve keepsCalls_emit keepsCalls_dateNow keepsCalls_advance
  keepsCalls_wait keepsCalls_getPacing keepsCalls_modifyPacing
  keepsCalls_tries_getSearchPoints keepsCalls_tries_getEmptySearchCounters
  : effects.

(** Every pass counts as one try. *)
Lemma bingSearchTry_counts (i : Z) (w : State) :
  calls (snd (bingSearchTry env i w)) OpTry = S (calls w OpTry).
Proof.
  unfold bingSearchTry.
  match goal with
  | |- context [bind (tick OpTry) ?k] =>
      assert (Hk : forall n, keepsCalls OpTry (k n)) by effects
  end.
  unfold bind at 1. cbn [tick]. rewrite Hk. reflexivity.
Qed.

Lemma bingSearchLoop_tries (remaining : nat) (i : Z) (w : State) :
  (0 < remaining)%nat ->
  (calls w OpTry < calls (snd (bingSearchLoop env remaining i w)) OpTry
   <= calls w OpTry + remaining)%nat.
Proof.
  intros Hpos. pose proof (callsAtMost_bingSearchLoop env remaining i w) as Hup.
  split; [|lia]. destruct remaining as [|r]; [lia|].
  cbn [bingSearchLoop]. unfold bind at 1.
  pose proof (bingSearchTry_counts i w) as H1.
  destruct (bingSearchTry env i w) as [[[ | |c]|e|] w1]; cbn [snd] in *;
    try lia.
  - pose proof (callsAtMost_bingSearchLoop env r (i + 1) w1). lia.
  - rewrite keepsCalls_tries_getEmptySearchCounters. lia.
  - cbn. lia.
Qed.

End AttemptReads.

(** X8: every call of [bingSearch] returns.  It makes between one and five
    passes of its retry loop and fetches the progress once or twice, and
    the counters it returns are the answer of its last fetch, or the empty
    counters when that fetch failed. *)
Theorem bingSearch_reads_last_fetch (env : Env) (query : string) (w : State) :
  exists c w',
    bingSearch env query w = (Ok c, w')
    /\ (calls w OpGetSearchPoints < calls w' OpGetSearchPoints
        <= calls w OpGetSearchPoints + 2)%nat
    /\ c = match env_points env (pred (calls w' OpGetSearchPoints)) with
           | Some fetched => fetched
           | None => emptyCounters
           end
    /\ (calls w OpTry < calls w' OpTry <= calls w OpTry + 5)%nat.
Proof.
  unfold bingSearch. unfold bind at 1. cbn [dateNow]. unfold bind at 1.
  cbn [emit].
  set (w1 := mkState _ _ _ _).
  destruct (bingSearchLoop_reads env 5 0 w1) as [c [w' [E [Hn Hv]]]].
  exists c, w'. split; [exact E|]. split; [exact Hn|]. split; [exact Hv|].
  pose proof (callsAtMost_bingSearchLoop env 5 0 w1) as Htries.
  rewrite E in Htries. cbn [snd] in Htries.
  change (calls w1 OpTry) with (calls w OpTry) in Htries.
  change (calls w OpTry) with (calls w1 OpTry).
  pose proof (bingSearchLoop_tries env 5 0 w1 ltac:(lia)) as Ht.
  rewrite E in Ht. exact Ht.
Qed.

(** ** Contextual follow-ups in the main loop *)

(** X9: let the contextual follow-ups of the main loop come from
    [generateContextualSearches], in the language [doSearch] derives from
    the country of the profile, with a permuting shuffle and
    [Math.random()] in [[0,1)].  An iteration that opts for a contextual
    search, has a non-empty last successful query and fewer than three
    follow-ups in a row behind it, submits a follow-up that contains that
    query and counts it (the count never passes 3); every other iteration
    submits the planned query and resets the count.  The fallbacks for an
    empty list of suggestions or an empty suggestion never decide. *)
Theorem pickQuery_contextual_follow_up (env : Env)
    (shuffleArray : list string -> list string) (rnd : nat -> Q)
    (country : option string) (planned : string) (L : Locals) (w : State) :
  (forall xs, Permutation xs (shuffleArray xs)) ->
  (forall k, (0 <= rnd k)%Q /\ (rnd k < 1)%Q) ->
  (forall k base,
     env_contextual env k base
     = generateContextualSearches shuffleArray (rnd k) base
         (contextLanguage country)) ->
  exists query L' w',
    pickQuery env planned L w = (Ok (query, L'), w')
    /\ if env_useContextual env (calls w OpContext)
          && truthy (lastSuccessfulQuery L) && (contextSearchCount L <? 3)
       then (exists base, lastSuccessfulQuery L = Some base
                          /\ includes base query = true)
            /\ contextSearchCount L' = contextSearchCount L + 1
            /\ contextSearchCount L' <= 3
       else query = planned /\ contextSearchCount L' = 0.
Proof.
  intros Hperm Hrnd Hctx. unfold pickQuery. unfold bind at 1. cbn [tick].
  destruct (env_useContextual env (calls w OpContext)
            && truthy (lastSuccessfulQuery L) && (contextSearchCount L <? 3))
    eqn:Econd.
  - apply andb_true_iff in Econd. destruct Econd as [Econd Hcount].
    apply andb_true_iff in Econd. destruct Econd as [_ Htruthy].
    apply Z.ltb_lt in Hcount.
    destruct (lastSuccessfulQuery L) as [base|] eqn:Elast; [|discriminate].
    assert (Hne : base <> "").
    { intros ->. discriminate Htruthy. }
    rewrite Hctx.
    destruct (Hrnd (calls w OpContext)) as [H0 H1].
    destruct (contextualSearches_selection shuffleArray
                (rnd (calls w OpContext)) base (contextLanguage country)
                Hperm H0 H1) as [Hlen [Hinc Htr]].
    destruct (generateContextualSearches shuffleArray
                (rnd (calls w OpContext)) base (contextLanguage country))
      as [|contextQuery rest]; [cbn in Hlen; lia|].
    rewrite (Htr Hne contextQuery (or_introl eq_refl)).
    do 3 eexists. split; [reflexivity|]. cbn.
    split; [|lia]. exists base. split; [reflexivity|].
    apply Hinc. now left.
  - do 3 eexists. split; [reflexivity|]. cbn. split; reflexivity.
Qed.

Lemma pickQuery_contextual_follow_up_witness :
  (forall k : nat, (0 <= (fun _ => 0) k)%Q /\ ((fun _ => 0) k < 1)%Q)
  /\ fst (pickQuery envFollowUp "planned"
            (mkLocals 60 0 5 1 (Some "天気") 0) initialState)
     = Ok ("天気", mkLocals 60 0 5 1 (Some "天気") 1)
  /\ exists query L' w',
       pickQuery envFollowUp "planned"
         (mkLocals 60 0 5 1 (Some "天気") 0) initialState
       = (Ok (query, L'), w')
       /\ (exists base, Some "天気" = Some base /\ includes base query = true)
       /\ contextSearchCount L' = 1.
Proof.
  assert (Hp : forall xs : list string, Permutation xs ((fun ys => ys) xs))
    by (intros xs; apply Permutation_refl).
  assert (Hr : forall k : nat,
             (0 <= (fun _ => 0) k)%Q /\ ((fun _ => 0) k < 1)%Q)
    by (intros k; split; [unfold Qle | unfold Qlt]; cbn; lia).
  split; [exact Hr|]. split; [reflexivity|].
  destruct (pickQuery_contextual_follow_up envFollowUp
              (fun xs => xs) (fun _ => 0%Q) (Some "JP") "planned"
              (mkLocals 60 0 5 1 (Some "天気") 0) initialState
              Hp Hr (fun _ _ => eq_refl))
    as [query [L' [w' [E [Hbase [Hcount _]]]]]].
  exists query, L', w'. split; [exact E|]. split; [exact Hbase | exact Hcount].
Defined.

(** ** Recovery of the pacing controller *)

Section PacingRecovery.

Local Open Scope Q_scope.

Lemma pacingAfter_reachable (history : list bool) (p : Pacing) :
  pacingReachable p -> pacingReachable (pacingAfter history p).
Proof.
  revert p. induction history as [|[|] rest IH]; intros p H; cbn [pacingAfter].
  - exact H.
  - apply IH. now apply reach_success.
  - apply IH. now apply reach_failure.
Qed.

Lemma success_tenths (p : Pacing) (k : Z) :
  (10 <= k <= 20)%Z -> adaptiveDelayMultiplier p * 10 == inject_Z k ->
  adaptiveDelayMultiplier (handleSearchSuccess p) * 10
  == inject_Z (Z.max 10 (k - 1)).
Proof.
  intros Hk Ham. cbn [handleSearchSuccess adaptiveDelayMultiplier].
  destruct (Qlt_le_dec 1 (adaptiveDelayMultiplier p)) as [Hgt|Hle].
  - assert (H11 : inject_Z 10 < inject_Z k)
      by (change (inject_Z 10) with 10; lra).
    rewrite <- Zlt_Qlt in H11. rewrite Z.max_r by lia.
    destruct (Q.max_spec 1 (adaptiveDelayMultiplier p - (1 # 10)))
      as [[Hlt Heq]|[Hle Heq]]; rewrite Heq.
    + unfold Z.sub. rewrite inject_Z_plus.
      change (inject_Z (- (1))) with (- (1)). lra.
    + assert (H11' : inject_Z k <= inject_Z 11)
        by (change (inject_Z 11) with 11; lra).
      rewrite <- Zle_Qle in H11'. assert (k = 11%Z) by lia. subst k.
      reflexivity.
  - assert (H10 : inject_Z k <= inject_Z 10)
      by (change (inject_Z 10) with 10; lra).
    rewrite <- Zle_Qle in H10. assert (k = 10%Z) by lia. subst k.
    rewrite Z.max_l by lia. exact Ham.
Qed.

Lemma failure_tenths (p : Pacing) (k : Z) :
  (10 <= k <= 20)%Z -> adaptiveDelayMultiplier p * 10 == inject_Z k ->
  adaptiveDelayMultiplier (handleSearchFailure p) * 10
  == inject_Z (Z.min 20 (k + 2)).
Proof.
  intros Hk Ham. cbn [handleSearchFailure adaptiveDelayMultiplier].
  destruct (Q.min_spec 2 (adaptiveDelayMultiplier p + (2 # 10)))
    as [[Hlt Heq]|[Hle Heq]]; rewrite Heq.
  - assert (H18 : inject_Z 18 < inject_Z k)
      by (change (inject_Z 18) with 18; lra).
    rewrite <- Zlt_Qlt in H18. rewrite Z.min_l by lia. reflexivity.
  - assert (H18 : inject_Z k <= inject_Z 18)
      by (change (inject_Z 18) with 18; lra).
    rewrite <- Zle_Qle in H18. rewrite Z.min_r by lia.
    rewrite inject_Z_plus. change (inject_Z 2) with 2. lra.
Qed.

Lemma successes_tenths (n : nat) (p : Pacing) (k : Z) :
  (10 <= k <= 20)%Z -> adaptiveDelayMultiplier p * 10 == inject_Z k ->
  adaptiveDelayMultiplier (pacingAfter (repeat true n) p) * 10
  == inject_Z (Z.max 10 (k - Z.of_nat n)).
Proof.
  revert p k. induction n as [|n IH]; intros p k Hk Ham.
  - cbn [repeat pacingAfter]. rewrite Z.max_r by lia.
    rewrite Z.sub_0_r. exact Ham.
  - cbn [repeat pacingAfter].
    rewrite (IH (handleSearchSuccess p) (Z.max 10 (k - 1)));
      [|lia|now apply success_tenths].
    replace (Z.max 10 (Z.max 10 (k - 1) - Z.of_nat n))
      with (Z.max 10 (k - Z.of_nat (S n))) by lia.
    reflexivity.
Qed.

Lemma failures_tenths (n : nat) (p : Pacing) (k : Z) :
  (10 <= k <= 20)%Z -> adaptiveDelayMultiplier p * 10 == inject_Z k ->
  adaptiveDelayMultiplier (pacingAfter (repeat false n) p) * 10
  == inject_Z (Z.min 20 (k + 2 * Z.of_nat n)).
Proof.
  revert p k. induction n as [|n IH]; intros p k Hk Ham.
  - cbn [repeat pacingAfter]. rewrite Z.min_r by lia.
    rewrite Z.add_0_r. exact Ham.
  - cbn [repeat pacingAfter].
    rewrite (IH (handleSearchFailure p) (Z.min 20 (k + 2)));
      [|lia|now apply failure_tenths].
    replace (Z.min 20 (Z.min 20 (k + 2) + 2 * Z.of_nat n))
      with (Z.min 20 (k + 2 * Z.of_nat (S n))) by lia.
    reflexivity.
Qed.

Lemma failures_count (n : nat) (p : Pacing) :
  consecutiveFailures (pacingAfter (repeat false n) p)
  = (consecutiveFailures p + Z.of_nat n)%Z.
Proof.
  revert p. induction n as [|n IH]; intros p; cbn [repeat pacingAfter];
    [lia|].
  rewrite IH. cbn [handleSearchFailure consecutiveFailures]. lia.
Qed.

Lemma successes_count (n : nat) (p : Pacing) :
  (0 < n)%nat -> consecutiveFailures (pacingAfter (repeat true n) p) = 0%Z.
Proof.
  revert p. induction n as [|n IH]; intros p Hn; [lia|].
  cbn [repeat pacingAfter]. destruct n as [|n]; [reflexivity|].
  apply IH. lia.
Qed.

End PacingRecovery.



(** ** Trend sources *)

Section TrendProperties.

Variable feeds : Feeds.

Lemma sliceTo_length {A : Type} (n : Z) (xs : list A) :
  0 <= n -> (List.length (sliceTo n xs) <= Z.to_nat n)%nat.
Proof.
  intros Hn. rewrite sliceTo_nonneg by exact Hn. rewrite length_firstn. lia.
Qed.

Lemma trendsOf_length (k : nat) (topics : list string) :
  List.length (trendsOf feeds k topics) = List.length topics.
Proof.
  revert k. induction topics as [|t rest IH]; intros k; cbn; [reflexivity|].
  now rewrite IH.
Qed.

Lemma collectTrends_length (k : nat) (items : list HotItem) :
  (List.length (collectTrends feeds k items) <= List.length items)%nat.
Proof.
  revert k. induction items as [|[|[t|]] rest IH]; intros k;
    cbn [collectTrends List.length]; try lia.
  - destruct (truthy (Some t)); cbn [List.length];
      [specialize (IH (S k)) | specialize (IH k)]; lia.
  - specialize (IH k). lia.
Qed.

Lemma getChineseFallbackQueries_length (k : nat) :
  List.length (getChineseFallbackQueries feeds k) = 61%nat.
Proof. unfold getChineseFallbackQueries. now rewrite trendsOf_length. Qed.

Lemma getBaiduTrends_length (k : nat) :
  (List.length (getBaiduTrends feeds k) <= 30)%nat.
Proof.
  unfold getBaiduTrends. destruct (feed_baidu feeds) as [data|]; [|cbn; lia].
  pose proof (collectTrends_length k (sliceTo 30 data)).
  pose proof (sliceTo_length 30 data ltac:(lia)). lia.
Qed.

Lemma getWeiboTrends_length (k : nat) :
  (List.length (getWeiboTrends feeds k) <= 30)%nat.
Proof.
  unfold getWeiboTrends. destruct (feed_weibo feeds) as [data|]; [|cbn; lia].
  pose proof (collectTrends_length k (sliceTo 30 data)).
  pose proof (sliceTo_length 30 data ltac:(lia)). lia.
Qed.

Hypothesis Hfair : feedsFair feeds.

Lemma chineseTrend_wellFormed (k : nat) (w : string) :
  w <> "" -> wellFormedTrend (chineseTrend feeds k w).
Proof.
  intros Hw. destruct Hfair as [Hperm Hrnd]. destruct (Hrnd k) as [H0 H1].
  destruct (chineseRelatedTerms_selection (feed_shuffle feeds)
              (feed_random feeds k) w Hperm H0 H1) as [Hlen [Hnd Hext]].
  unfold wellFormedTrend, chineseTrend. cbn [topic related].
  split; [exact Hw|]. split; [lia|]. split; [exact Hnd | exact Hext].
Qed.

Lemma trendsOf_wellFormed (k : nat) (topics : list string) :
  Forall (fun t => t <> "") topics ->
  Forall wellFormedTrend (trendsOf feeds k topics).
Proof.
  intros H. revert k. induction H as [|t rest Ht _ IH]; intros k; cbn.
  - constructor.
  - constructor; [now apply chineseTrend_wellFormed | apply IH].
Qed.

Lemma chineseFallbackTopics_nonempty (year month : Z) :
  Forall (fun t => t <> "") (chineseFallbackTopics year month).
Proof.
  unfold chineseFallbackTopics. constructor.
  - apply append_nonempty_r. discriminate.
  - repeat (constructor; [discriminate|]). constructor.
Qed.

Lemma getChineseFallbackQueries_wellFormed (k : nat) :
  Forall wellFormedTrend (getChineseFallbackQueries feeds k).
Proof.
  apply trendsOf_wellFormed, chineseFallbackTopics_nonempty.
Qed.

Lemma collectTrends_wellFormed (k : nat) (items : list HotItem) :
  Forall wellFormedTrend (collectTrends feeds k items).
Proof.
  revert k. induction items as [|[|[t|]] rest IH]; intros k;
    cbn [collectTrends]; try constructor; try apply IH.
  destruct (truthy (Some t)) eqn:Et; [|apply IH].
  constructor; [|apply IH]. apply chineseTrend_wellFormed.
  intros ->. discriminate Et.
Qed.

Lemma getChinaTrends_wellFormed (k : nat) :
  Forall wellFormedTrend (getChinaTrends feeds k).
Proof.
  unfold getChinaTrends.
  destruct (feed_china feeds) as [c|];
    [|apply getChineseFallbackQueries_wellFormed].
  destruct (enabled c); cbn [negb];
    [|apply getChineseFallbackQueries_wellFormed].
  cbv zeta.
  assert (Hq : Forall wellFormedTrend
                 ((if useBaiduTrends c then getBaiduTrends feeds k else [])
                  ++ (if useWeiboTrends c
                      then getWeiboTrends feeds
                             (k + List.length
                                    (if useBaiduTrends c
                                     then getBaiduTrends feeds k else []))
                      else []))).
  { apply Forall_app. split.
    - destruct (useBaiduTrends c); [|constructor]. unfold getBaiduTrends.
      destruct (feed_baidu feeds); [apply collectTrends_wellFormed|constructor].
    - destruct (useWeiboTrends c); [|constructor]. unfold getWeiboTrends.
      destruct (feed_weibo feeds); [apply collectTrends_wellFormed|constructor]. }
  match goal with
  | |- Forall _ (if ?b then _ else _) => destruct b
  end; [|exact Hq].
  apply Forall_app. split; [exact Hq|].
  apply getChineseFallbackQueries_wellFormed.
Qed.

End TrendProperties.

(** X11: with a permuting shuffle and [Math.random()] in [[0,1)],
    [getChinaTrends] returns at most 110 trends, each with a non-empty
    topic and three to five distinct related terms that extend the topic.
    It returns at least 50 when the adaptation is missing, disabled or
    configured with the local fallback, and exactly the 61 fallback topics
    when the adaptation is missing or disabled. *)
Theorem getChinaTrends_sizes (feeds : Feeds) (k : nat) :
  feedsFair feeds ->
  let found := getChinaTrends feeds k in
  (List.length found <= 110)%nat
  /\ Forall wellFormedTrend found
  /\ ((forall c, feed_china feeds = Some c ->
         enabled c = false \/ fallbackToLocalQueries c = true) ->
      (50 <= List.length found)%nat)
  /\ ((forall c, feed_china feeds = Some c -> enabled c = false) ->
      found = getChineseFallbackQueries feeds k
      /\ List.length found = 61%nat).
Proof.
  intros Hfair found. subst found.
  split; [|split; [now apply getChinaTrends_wellFormed|split]].
  - unfold getChinaTrends.
    destruct (feed_china feeds) as [c|];
      [|rewrite getChineseFallbackQueries_length; lia].
    destruct (enabled c); cbn [negb];
      [|rewrite getChineseFallbackQueries_length; lia].
    cbv zeta.
    set (b := if useBaiduTrends c then getBaiduTrends feeds k else []).
    set (wb := if useWeiboTrends c
               then getWeiboTrends feeds (k + List.length b) else []).
    assert (Hb : (List.length b <= 30)%nat).
    { subst b. destruct (useBaiduTrends c);
        [apply getBaiduTrends_length | cbn; lia]. }
    assert (Hw : (List.length wb <= 30)%nat).
    { subst wb. destruct (useWeiboTrends c);
        [apply getWeiboTrends_length | cbn; lia]. }
    destruct (fallbackToLocalQueries c); cbn [andb].
    + destruct (Z.ltb_spec (Z.of_nat (List.length (b ++ wb))) 50) as [Hlt|Hge].
      * rewrite length_app, getChineseFallbackQueries_length. lia.
      * rewrite length_app. lia.
    + rewrite length_app. lia.
  - intros Hcfg. unfold getChinaTrends.
    destruct (feed_china feeds) as [c|];
      [|rewrite getChineseFallbackQueries_length; lia].
    destruct (Hcfg c eq_refl) as [Hoff|Hfall].
    + rewrite Hoff. cbn [negb]. rewrite getChineseFallbackQueries_length. lia.
    + destruct (enabled c); cbn [negb];
        [|rewrite getChineseFallbackQueries_length; lia].
      cbv zeta. rewrite Hfall. cbn [andb].
      match goal with
      | |- context [Z.of_nat (List.length ?q) <? 50] =>
          destruct (Z.ltb_spec (Z.of_nat (List.length q)) 50) as [Hlt|Hge]
      end.
      * rewrite length_app, getChineseFallbackQueries_length. lia.
      * lia.
  - intros Hcfg. unfold getChinaTrends.
    destruct (feed_china feeds) as [c|].
    + rewrite (Hcfg c eq_refl). cbn [negb].
      split; [reflexivity | apply getChineseFallbackQueries_length].
    + split; [reflexivity | apply getChineseFallbackQueries_length].
Qed.

Lemma getChinaTrends_sizes_witness :
  feedsFair feedsDown
  /\ List.length (getChinaTrends feedsDown 0) = 61%nat
  /\ Forall wellFormedTrend (getChinaTrends feedsDown 0).
Proof.
  assert (Hfair : feedsFair feedsDown).
  { split; [intros xs; apply Permutation_refl|].
    intros k; split; [unfold Qle | unfold Qlt]; cbn; lia. }
  split; [exact Hfair|]. split; [reflexivity|].
  exact (proj1 (proj2 (getChinaTrends_sizes feedsDown 0 Hfair))).
Defined.

Section GoogleTrends.

Variable feeds : Feeds.

Lemma trendsRequest_next (geoUpper : string) (i : nat) :
  trendsRequest "JP" i = trendsRequest geoUpper (S i).
Proof. destruct i; reflexivity. Qed.

Lemma getGoogleTrends_answers (d : nat) :
  forall (fuel n : nat) (geoUpper : string),
    String.eqb geoUpper "CN" || String.eqb geoUpper "ZH-CN" = false ->
    (forall i, (i < d)%nat ->
       shortReply (feed_google feeds (n + i) (trendsRequest geoUpper i)) = true) ->
    shortReply (feed_google feeds (n + d) (trendsRequest geoUpper d)) = false ->
    (d < fuel)%nat ->
    exists found,
      getGoogleTrends feeds fuel n geoUpper = Some found
      /\ (found = []
          \/ ((90 <= List.length found)%nat
              /\ exists trendsData,
                   feed_google feeds (n + d) (trendsRequest geoUpper d)
                   = ReplyParsed trendsData
                   /\ mapTrends trendsData = Some found)).
Proof.
  induction d as [|d IH]; intros fuel n geoUpper Hgeo Hshort Hlast Hfuel;
    (destruct fuel as [|fuel]; [lia|]); cbn [getGoogleTrends]; rewrite Hgeo.
  - rewrite Nat.add_0_r in Hlast. cbn [trendsRequest] in Hlast.
    unfold shortReply in Hlast.
    destruct (feed_google feeds n geoUpper) as [|trendsData] eqn:E.
    + exists []. split; [reflexivity | now left].
    + destruct (mapTrends trendsData) as [mapped|] eqn:Em.
      * rewrite Hlast. exists mapped. split; [reflexivity|]. right.
        apply Z.ltb_ge in Hlast. split; [lia|].
        exists trendsData. rewrite Nat.add_0_r. cbn [trendsRequest].
        split; [exact E | exact Em].
      * exists []. split; [reflexivity | now left].
  - pose proof (Hshort O ltac:(lia)) as H0. rewrite Nat.add_0_r in H0.
    cbn [trendsRequest] in H0. unfold shortReply in H0.
    destruct (feed_google feeds n geoUpper) as [|trendsData]; [discriminate|].
    destruct (mapTrends trendsData) as [mapped|]; [|discriminate].
    rewrite H0.
    destruct (IH fuel (S n) "JP") as [found [E Hfound]].
    + reflexivity.
    + intros i Hi. rewrite trendsRequest_next with (geoUpper := geoUpper).
      replace (S n + i)%nat with (n + S i)%nat by lia. apply Hshort. lia.
    + rewrite trendsRequest_next with (geoUpper := geoUpper).
      replace (S n + d)%nat with (n + S d)%nat by lia. exact Hlast.
    + lia.
    + exists found. split; [exact E|].
      destruct Hfound as [Hnil|[Hlen [td [Etd Emap]]]]; [now left|right].
      split; [exact Hlen|]. exists td.
      rewrite trendsRequest_next with (geoUpper := geoUpper) in Etd.
      replace (S n + d)%nat with (n + S d)%nat in Etd by lia.
      split; [exact Etd | exact Emap].
Qed.

Lemma getGoogleTrends_short_forever (fuel : nat) :
  forall (n : nat) (geoUpper : string),
    String.eqb geoUpper "CN" || String.eqb geoUpper "ZH-CN" = false ->
    (forall i,
       shortReply (feed_google feeds (n + i) (trendsRequest geoUpper i)) = true) ->
    getGoogleTrends feeds fuel n geoUpper = None.
Proof.
  induction fuel as [|fuel IH]; intros n geoUpper Hgeo Hshort;
    cbn [getGoogleTrends]; [reflexivity|]. rewrite Hgeo.
  pose proof (Hshort O) as H0. rewrite Nat.add_0_r in H0.
  cbn [trendsRequest] in H0. unfold shortReply in H0.
  destruct (feed_google feeds n geoUpper) as [|trendsData]; [discriminate|].
  destruct (mapTrends trendsData) as [mapped|]; [|discriminate].
  rewrite H0. apply IH; [reflexivity|].
  intros i. rewrite trendsRequest_next with (geoUpper := geoUpper).
  replace (S n + i)%nat with (n + S i)%nat by lia. apply Hshort.
Qed.

End GoogleTrends.

(** X12: for a locale other than CN and ZH-CN, when the first [d] replies
    (the first for the locale asked for, the later ones for JP) are
    readable lists of fewer than 90 entries and the reply after them is
    not, [getGoogleTrends] returns after [d + 1] requests; its result is
    empty (the last request failed or could not be read) or it is the
    mapped list of the last reply, with 90 entries or more. *)
Theorem getGoogleTrends_all_or_nothing (feeds : Feeds) (d fuel n : nat)
    (geoUpper : string) :
  String.eqb geoUpper "CN" || String.eqb geoUpper "ZH-CN" = false ->
  (forall i, (i < d)%nat ->
     shortReply (feed_google feeds (n + i) (trendsRequest geoUpper i)) = true) ->
  shortReply (feed_google feeds (n + d) (trendsRequest geoUpper d)) = false ->
  (d < fuel)%nat ->
  exists found,
    getGoogleTrends feeds fuel n geoUpper = Some found
    /\ (found = []
        \/ ((90 <= List.length found)%nat
            /\ exists trendsData,
                 feed_google feeds (n + d) (trendsRequest geoUpper d)
                 = ReplyParsed trendsData
                 /\ mapTrends trendsData = Some found)).
Proof. exact (getGoogleTrends_answers feeds d fuel n geoUpper). Qed.

Lemma getGoogleTrends_all_or_nothing_witness :
  String.eqb "US" "CN" || String.eqb "US" "ZH-CN" = false
  /\ shortReply (feed_google feedsShortOnce (0 + 0) (trendsRequest "US" 0))
     = true
  /\ shortReply (feed_google feedsShortOnce (0 + 1) (trendsRequest "US" 1))
     = false
  /\ exists found,
       getGoogleTrends feedsShortOnce 2 0 "US" = Some found
       /\ (found = []
           \/ ((90 <= List.length found)%nat
               /\ exists trendsData,
                    feed_google feedsShortOnce (0 + 1) (trendsRequest "US" 1)
                    = ReplyParsed trendsData
                    /\ mapTrends trendsData = Some found)).
Proof.
  assert (Hgeo : String.eqb "US" "CN" || String.eqb "US" "ZH-CN" = false)
    by reflexivity.
  assert (Hfirst : shortReply
                     (feed_google feedsShortOnce (0 + 0) (trendsRequest "US" 0))
                   = true) by reflexivity.
  assert (Hlast : shortReply
                    (feed_google feedsShortOnce (0 + 1) (trendsRequest "US" 1))
                  = false) by reflexivity.
  split; [exact Hgeo|]. split; [exact Hfirst|]. split; [exact Hlast|].
  apply (getGoogleTrends_all_or_nothing feedsShortOnce 1 2 0 "US" Hgeo);
    [|exact Hlast | lia].
  intros i Hi. assert (i = O) by lia. subst i. exact Hfirst.
Defined.

(** X13: for a locale other than CN and ZH-CN, as long as every reply is a
    readable list of fewer than 90 entries (the first for the locale asked
    for, the later ones for JP), [getGoogleTrends] asks again and never
    returns: no depth of the recursion yields a result. *)
Theorem getGoogleTrends_never_returns_on_short_lists (feeds : Feeds)
    (n : nat) (geoUpper : string) :
  String.eqb geoUpper "CN" || String.eqb geoUpper "ZH-CN" = false ->
  (forall i,
     shortReply (feed_google feeds (n + i) (trendsRequest geoUpper i)) = true) ->
  forall fuel, getGoogleTrends feeds fuel n geoUpper = None.
Proof.
  intros Hgeo Hshort fuel. now apply getGoogleTrends_short_forever.
Qed.

Lemma getGoogleTrends_never_returns_on_short_lists_witness :
  String.eqb "US" "CN" || String.eqb "US" "ZH-CN" = false
  /\ (forall i,
        shortReply (feed_google feedsShort (0 + i) (trendsRequest "US" i))
        = true)
  /\ getGoogleTrends feedsShort 1000 0 "US" = None.
Proof.
  assert (Hgeo : String.eqb "US" "CN" || String.eqb "US" "ZH-CN" = false)
    by reflexivity.
  assert (Hshort : forall i,
             shortReply (feed_google feedsShort (0 + i) (trendsRequest "US" i))
             = true) by (intros i; reflexivity).
  split; [exact Hgeo|]. split; [exact Hshort|].
  exact (getGoogleTrends_never_returns_on_short_lists feedsShort 0 "US"
           Hgeo Hshort 1000).
Defined.

(** ** The fallback query mix *)

Lemma trendItems_length (i : nat) (gs : list GoogleSearch) :
  List.length (trendItems i gs) = List.length gs.
Proof.
  revert i. induction gs as [|g rest IH]; intros i; cbn; [reflexivity|].
  now rewrite IH.
Qed.

Lemma trendItems_not_plain (i : nat) (gs : list GoogleSearch) :
  plainTexts (trendItems i gs) = [].
Proof.
  revert i. induction gs as [|g rest IH]; intros i; cbn; [reflexivity|].
  apply IH.
Qed.

Lemma plainTexts_app (xs ys : list SearchItem) :
  plainTexts (xs ++ ys) = plainTexts xs ++ plainTexts ys.
Proof. unfold plainTexts. apply flat_map_app. Qed.

Lemma plainTexts_plain (qs : list string) :
  plainTexts (map PlainQuery qs) = qs.
Proof.
  induction qs as [|q rest IH]; cbn; [reflexivity|]. f_equal. exact IH.
Qed.

Lemma half_floor (n : nat) :
  Qfloor (inject_Z (Z.of_nat n) * (5 # 10))%Q = Z.of_nat n / 2.
Proof.
  assert (E : (inject_Z (Z.of_nat n) * (5 # 10) == Z.of_nat n # 2)%Q).
  { unfold Qeq, inject_Z. cbn. lia. }
  rewrite (Qfloor_comp _ _ E). unfold Qfloor. reflexivity.
Qed.

Lemma getGoogleTrends_sound (feeds : Feeds) (fuel : nat) :
  forall (n : nat) (geoUpper : string) (found : list GoogleSearch),
    String.eqb geoUpper "CN" || String.eqb geoUpper "ZH-CN" = false ->
    getGoogleTrends feeds fuel n geoUpper = Some found ->
    found = [] \/ (90 <= List.length found)%nat.
Proof.
  induction fuel as [|fuel IH]; intros n geoUpper found Hgeo E;
    cbn [getGoogleTrends] in E; [discriminate|].
  rewrite Hgeo in E.
  destruct (feed_google feeds n geoUpper) as [|trendsData];
    [injection E as <-; now left|].
  destruct (mapTrends trendsData) as [mapped|];
    [|injection E as <-; now left].
  destruct (Z.ltb_spec (Z.of_nat (List.length mapped)) 90) as [Hlt|Hge].
  - apply (IH (S n) "JP" found); [reflexivity | exact E].
  - injection E as <-. right. lia.
Qed.



(** ** The enhanced search loop *)

Lemma enhancedStep_accounting (isMobile : bool) (st : Enhanced) (d : Z) :
  let '(st', _, exit) := enhancedStep isMobile st d in
  enhMissingPoints st' = d
  /\ enhEarnedPoints st <= enhEarnedPoints st'
  /\ enhEarnedPoints st + enhMissingPoints st
     <= enhEarnedPoints st' + enhMissingPoints st'
  /\ (enhMissingPoints st <= d -> enhEarnedPoints st' = enhEarnedPoints st)
  /\ (exit = Some EnhancedComplete <-> d = 0)
  /\ (exit = Some EnhancedRecovery -> enhMaxLoop st' = 0 /\ d <> 0)
  /\ exit <> Some EnhancedExhausted.
Proof.
  unfold enhancedStep. cbv zeta.
  destruct (Z.gtb_spec (enhMissingPoints st - d) 0) as [Hgain|Hnone];
    destruct (Z.eqb_spec d 0) as [Hd|Hd];
    try (destruct (enhMaxLoop st + 1 >? enhancedMaxLoopLimit isMobile));
    try (destruct (0 >? enhancedMaxLoopLimit isMobile));
    cbn [enhMissingPoints enhEarnedPoints enhMaxLoop];
    repeat split; intros; try lia; try congruence; try discriminate.
Qed.


Lemma enhancedLoop_stalled (isMobile : bool) (extra : nat) :
  forall (left : nat) (missing earned maxLoop : Z),
    missing <> 0 -> 0 <= maxLoop ->
    maxLoop + Z.of_nat left = enhancedMaxLoopLimit isMobile + 1 ->
    (0 < left)%nat ->
    enhancedLoop isMobile (repeat missing (left + extra))
      (mkEnhanced missing earned maxLoop)
    = (mkEnhanced missing earned 0, EnhancedRecovery, left,
       if maxLoop <? 3 then 1%nat else O).
Proof.
  induction left as [|left IH]; intros missing earned maxLoop Hm H0 Hsum Hpos;
    [lia|].
  cbn [repeat Nat.add enhancedLoop]. unfold enhancedStep. cbv zeta.
  cbn [enhMissingPoints enhEarnedPoints enhMaxLoop].
  rewrite Z.sub_diag. cbn [Z.gtb Z.compare negb andb].
  destruct (Z.eqb_spec missing 0) as [|_]; [contradiction|].
  destruct left as [|left].
  - assert (Hlast : (maxLoop + 1 >? enhancedMaxLoopLimit isMobile) = true)
      by (rewrite Z.gtb_ltb; apply Z.ltb_lt; lia).
    rewrite Hlast.
    assert (H3 : (maxLoop + 1 =? 3) = false).
    { apply Z.eqb_neq. unfold enhancedMaxLoopLimit in Hsum.
      destruct isMobile; lia. }
    rewrite H3.
    assert (Hlt : (maxLoop <? 3) = false).
    { apply Z.ltb_ge. unfold enhancedMaxLoopLimit in Hsum.
      destruct isMobile; lia. }
    rewrite Hlt. reflexivity.
  - assert (Hgo : (maxLoop + 1 >? enhancedMaxLoopLimit isMobile) = false)
      by (rewrite Z.gtb_ltb; apply Z.ltb_ge; lia).
    rewrite Hgo.
    rewrite (IH missing earned (maxLoop + 1)) by lia.
    f_equal.
    destruct (Z.eqb_spec (maxLoop + 1) 3) as [E3|E3];
      destruct (Z.ltb_spec (maxLoop + 1) 3) as [L3|L3];
      destruct (Z.ltb_spec maxLoop 3) as [L|L]; try lia; reflexivity.
Qed.



(** ** The passkey loop of the login *)

Lemma passkeyLoop_run (driver : Z -> PasskeyPass) (maxAttempts : Z) :
  forall (fuel : nat) (attempts : Z),
    0 <= attempts ->
    (Z.to_nat (maxAttempts - attempts) < fuel)%nat ->
    exists result final,
      passkeyLoop driver fuel maxAttempts attempts = Some (result, final)
      /\ attempts <= final <= Z.max attempts maxAttempts
      /\ (forall i, attempts < i < final -> passkeyPass (driver i) = None)
      /\ (result = true -> passkeyPass (driver final) = Some true)
      /\ (result = false ->
          (attempts < final /\ passkeyPass (driver final) = Some false)
          \/ (final = Z.max attempts maxAttempts
              /\ (attempts < final -> passkeyPass (driver final) = None))).
Proof.
  induction fuel as [|fuel IH]; intros attempts H0 Hfuel; [lia|].
  cbn [passkeyLoop].
  destruct (Z.ltb_spec attempts maxAttempts) as [Hlt|Hge].
  - cbv zeta.
    destruct (passkeyPass (driver (attempts + 1))) as [result|] eqn:Epass.
    + exists result, (attempts + 1). split; [reflexivity|].
      split; [lia|]. split; [intros i Hi; lia|]. split.
      * intros ->. exact Epass.
      * intros ->. left. split; [lia | exact Epass].
    + destruct (IH (attempts + 1)) as [result [final [E [Hb [Hnone [Ht Hf]]]]]];
        [lia | lia |].
      exists result, final. split; [exact E|]. split; [lia|]. split.
      * intros i Hi. destruct (Z.eq_dec i (attempts + 1)) as [->|Hne];
          [exact Epass | apply Hnone; lia].
      * split; [exact Ht|]. intros Hr.
        destruct (Hf Hr) as [[Hlt' Hp]|[Hend Hlast]].
        -- left. split; [lia | exact Hp].
        -- right. split; [lia|]. intros _.
           destruct (Z.eq_dec final (attempts + 1)) as [->|Hne];
             [exact Epass | apply Hlast; lia].
  - exists false, attempts. split; [reflexivity|]. split; [lia|].
    split; [intros i Hi; lia|]. split; [discriminate|].
    intros _. right. split; [lia | lia].
Qed.

(** X17: [handlePasskeySetupLoop] returns after at most [maxAttempts]
    passes, where a configured value of 0 (like a missing one) stands for
    5; with [enabled: false] it returns [false] without a pass; it returns
    [true] only from a pass in which the skip succeeded and the passkey
    page was gone, every earlier pass having asked for another try. *)
Theorem handlePasskeySetupLoop_bounded (config : PasskeyHandling)
    (driver : Z -> PasskeyPass) (fuel : nat) :
  (Z.to_nat (passkeyMaxAttemptsOr5 config) < fuel)%nat ->
  exists result attempts,
    handlePasskeySetupLoop config driver fuel = Some (result, attempts)
    /\ 0 <= attempts <= Z.max 0 (passkeyMaxAttemptsOr5 config)
    /\ (passkeyEnabled config = Some false -> result = false /\ attempts = 0)
    /\ (forall i, 0 < i < attempts -> passkeyPass (driver i) = None)
    /\ (result = true -> passkeyPass (driver attempts) = Some true)
    /\ (passkeyMaxAttempts config = Some 0 \/ passkeyMaxAttempts config = None ->
        passkeyMaxAttemptsOr5 config = 5).
Proof.
  intros Hfuel. unfold handlePasskeySetupLoop.
  assert (Hdefault : passkeyMaxAttempts config = Some 0
                     \/ passkeyMaxAttempts config = None ->
                     passkeyMaxAttemptsOr5 config = 5).
  { unfold passkeyMaxAttemptsOr5. intros [-> | ->]; reflexivity. }
  assert (Hloop : exists result attempts,
             passkeyLoop driver fuel (passkeyMaxAttemptsOr5 config) 0
             = Some (result, attempts)
             /\ 0 <= attempts <= Z.max 0 (passkeyMaxAttemptsOr5 config)
             /\ (forall i, 0 < i < attempts -> passkeyPass (driver i) = None)
             /\ (result = true -> passkeyPass (driver attempts) = Some true)).
  { destruct (passkeyLoop_run driver (passkeyMaxAttemptsOr5 config) fuel 0)
      as [result [final [E [Hb [Hnone [Ht _]]]]]];
      [lia | rewrite Z.sub_0_r; exact Hfuel |].
    exists result, final. split; [exact E|]. split; [exact Hb|].
    split; [exact Hnone | exact Ht]. }
  destruct (passkeyEnabled config) as [[|]|] eqn:Een.
  - destruct Hloop as [result [attempts [E [Hb [Hnone Ht]]]]].
    exists result, attempts. split; [exact E|]. split; [exact Hb|].
    split; [discriminate|]. split; [exact Hnone|]. split; [exact Ht|].
    exact Hdefault.
  - exists false, 0. split; [reflexivity|]. split; [lia|].
    split; [intros _; split; reflexivity|]. split; [intros i Hi; lia|].
    split; [discriminate | exact Hdefault].
  - destruct Hloop as [result [attempts [E [Hb [Hnone Ht]]]]].
    exists result, attempts. split; [exact E|]. split; [exact Hb|].
    split; [discriminate|]. split; [exact Hnone|]. split; [exact Ht|].
    exact Hdefault.
Qed.

Lemma handlePasskeySetupLoop_bounded_witness :
  (Z.to_nat (passkeyMaxAttemptsOr5 (mkPasskeyHandling None (Some 0%Z))) < 6)%nat
  /\ handlePasskeySetupLoop (mkPasskeyHandling None (Some 0%Z)) passkeyStuck 6
     = Some (false, 5)
  /\ exists result attempts,
       handlePasskeySetupLoop (mkPasskeyHandling None (Some 0%Z)) passkeyStuck 6
       = Some (result, attempts)
       /\ 0 <= attempts
          <= Z.max 0 (passkeyMaxAttemptsOr5 (mkPasskeyHandling None (Some 0%Z))).
Proof.
  assert (Hfuel : (Z.to_nat (passkeyMaxAttemptsOr5
                               (mkPasskeyHandling None (Some 0%Z))) < 6)%nat)
    by (cbn; lia).
  split; [exact Hfuel|]. split; [reflexivity|].
  destruct (handlePasskeySetupLoop_bounded (mkPasskeyHandling None (Some 0%Z))
              passkeyStuck 6 Hfuel) as [result [attempts [E [Hb _]]]].
  exists result, attempts. split; [exact E | exact Hb].
Defined.

(** ** The task runner of the desktop run *)

Lemma noThrow_runTasks (tasks : list (bool * M unit)) :
  noThrow (runTasks tasks).
Proof.
  induction tasks as [|[enabled task] rest IH]; cbn [runTasks].
  - apply noThrow_ret.
  - apply noThrow_bind; [|intros _; exact IH].
    destruct enabled; [|apply noThrow_ret].
    apply noThrow_tryCatch. intros e. apply noThrow_ret.
Qed.

Lemma runTasks_app (tasks1 tasks2 : list (bool * M unit)) (w : State) :
  (forall t, In t tasks1 -> noDiverge (snd t)) ->
  runTasks (tasks1 ++ tasks2) w = runTasks tasks2 (snd (runTasks tasks1 w)).
Proof.
  revert w. induction tasks1 as [|[enabled task] rest IH]; intros w Hnd;
    cbn [app runTasks]; [reflexivity|].
  assert (Hrest : forall t, In t rest -> noDiverge (snd t))
    by (intros t Ht; apply Hnd; now right).
  pose proof (Hnd (enabled, task) (or_introl eq_refl)) as Htask.
  cbn [snd] in Htask. unfold bind.
  destruct enabled.
  - unfold tryCatch. specialize (Htask w).
    destruct (task w) as [[[]|e|] w1]; cbn [fst snd ret] in *;
      [apply IH, Hrest | apply IH, Hrest | congruence].
  - cbn [ret]. apply IH, Hrest.
Qed.

(** X18: [executeDesktopTasks] never throws, whatever its tasks do.  When
    the three tasks before the search return or throw (rather than hang),
    an enabled desktop search runs [doSearch] from the state they left,
    also after exceptions of theirs, and an exception of [doSearch] itself
    is absorbed; a disabled search leaves that state as it is. *)
Theorem executeDesktopTasks_isolates_failures (env : Env) (fuel : nat)
    (workers : Workers) (dailySet morePromotions punchCard : M unit)
    (w : State) :
  noDiverge dailySet -> noDiverge morePromotions -> noDiverge punchCard ->
  let earlier := runTasks [ (doDailySet workers, dailySet);
                            (doMorePromotions workers, morePromotions);
                            (doPunchCards workers, punchCard) ] in
  let run := executeDesktopTasks env fuel workers
               dailySet morePromotions punchCard w in
  (forall e, fst run <> Throw e)
  /\ fst (earlier w) = Ok tt
  /\ (doDesktopSearch workers = true ->
      snd run = snd (doSearch env fuel (snd (earlier w)))
      /\ (fst run = OutOfFuel <->
          fst (doSearch env fuel (snd (earlier w))) = OutOfFuel))
  /\ (doDesktopSearch workers = false -> run = (Ok tt, snd (earlier w))).
Proof.
  intros H1 H2 H3 earlier run. subst earlier run.
  set (three := [ (doDailySet workers, dailySet);
                  (doMorePromotions workers, morePromotions);
                  (doPunchCards workers, punchCard) ]).
  assert (Hnd : forall t, In t three -> noDiverge (snd t)).
  { intros t [<-|[<-|[<-|[]]]]; assumption. }
  assert (Hthrow : forall tasks w0 e, fst (runTasks tasks w0) <> Throw e)
    by (intros tasks w0 e; apply noThrow_runTasks).
  assert (Hearlier : fst (runTasks three w) = Ok tt).
  { pose proof (runTasks_app three [] w Hnd) as E.
    rewrite app_nil_r in E. cbn [runTasks ret] in E.
    rewrite E. reflexivity. }
  split; [intros e; apply Hthrow|]. split; [exact Hearlier|].
  unfold executeDesktopTasks.
  change [ (doDailySet workers, dailySet);
           (doMorePromotions workers, morePromotions);
           (doPunchCards workers, punchCard);
           (doDesktopSearch workers,
            bind (doSearch env fuel) (fun _ => ret tt)) ]
    with (three ++ [ (doDesktopSearch workers,
                      bind (doSearch env fuel) (fun _ => ret tt)) ]).
  rewrite (runTasks_app three _ w Hnd).
  set (w0 := snd (runTasks three w)).
  split.
  - intros ->. cbn [runTasks]. unfold bind, tryCatch.
    destruct (doSearch env fuel w0) as [[a|e|] w1]; cbn [fst snd ret];
      (split; [reflexivity|]); split; intros; congruence.
  - intros ->. reflexivity.
Qed.

Lemma executeDesktopTasks_isolates_failures_witness :
  noDiverge (@throw unit "Daily Set failed")
  /\ fst (doSearch envFetchDown 60 initialState)
     = Throw "getSearchPoints failed"
  /\ forall e,
       fst (executeDesktopTasks envFetchDown 60 (mkWorkers true true true true)
              (throw "Daily Set failed") (ret tt) (ret tt) initialState)
       <> Throw e.
Proof.
  assert (Hthrow : noDiverge (@throw unit "Daily Set failed"))
    by (intros w; discriminate).
  assert (Hret : noDiverge (ret tt)) by (intros w; discriminate).
  split; [exact Hthrow|]. split; [reflexivity|].
  exact (proj1 (executeDesktopTasks_isolates_failures envFetchDown 60
                  (mkWorkers true true true true)
                  (throw "Daily Set failed") (ret tt) (ret tt) initialState
                  Hthrow Hret Hret)).
Defined.

(** ** The mobile run and its retries *)

Section MobileProperties.

Variable config : MobileConfig.
Variable runs : Z -> MobileRun.

Lemma countEvents_app (p : MobileEvent -> bool) (xs ys : list MobileEvent) :
  countEvents p (xs ++ ys) = (countEvents p xs + countEvents p ys)%nat.
Proof. unfold countEvents. now rewrite filter_app, length_app. Qed.

Lemma nested_nil : nested [].
Proof. exists [], []. cbn. repeat split; lia. Qed.

Lemma nested_search (attempt : Z) : nested [SearchStarted attempt].
Proof. exists [SearchStarted attempt], []. cbn. repeat split; lia. Qed.

Lemma nested_retry (attempt : Z) (events : list MobileEvent) :
  nested events -> nested (SearchStarted attempt :: RetryWait :: events).
Proof.
  intros [op [cl [E [H1 [H2 [H3 H4]]]]]].
  exists (SearchStarted attempt :: RetryWait :: op), cl.
  subst events. unfold countEvents in *.
  cbn [filter isBrowserClosed isBrowserOpened isSearchStarted List.length app]
    in *.
  repeat split; assumption.
Qed.

Lemma nested_browser (attempt : Z) (events closes : list MobileEvent) :
  nested events ->
  closes = [BrowserClosed attempt]
  \/ closes = [BrowserClosed attempt; BrowserClosed attempt] ->
  nested (BrowserOpened attempt :: events ++ closes).
Proof.
  intros [op [cl [E [H1 [H2 [H3 H4]]]]]] Hc.
  exists (BrowserOpened attempt :: op), (cl ++ closes).
  subst events. rewrite !countEvents_app.
  split; [cbn; now rewrite <- app_assoc|].
  unfold countEvents in *.
  destruct Hc as [-> | ->]; cbn [filter isBrowserClosed isBrowserOpened
                                 isSearchStarted List.length] in *;
    repeat split; lia.
Qed.

(** What [performMobileSearches] leaves, given what the retry leaves. *)
Lemma performMobileSearches_run
    (retry : Z -> option (bool * list MobileEvent)) (retryCount : Z) (n : nat) :
  (retryCount < maxRetries config ->
   exists returned events,
     retry (retryCount + 1) = Some (returned, events)
     /\ (countEvents isSearchStarted events <= n)%nat
     /\ (countEvents isBrowserOpened events <= n)%nat
     /\ nested events) ->
  exists returned events,
    performMobileSearches config runs retry retryCount
    = Some (returned, events)
    /\ (countEvents isSearchStarted events <= S n)%nat
    /\ (countEvents isBrowserOpened events <= n)%nat
    /\ nested events
    /\ (maxRetries config <= retryCount \/ maxRetries config = 0 ->
        (countEvents isSearchStarted events <= 1)%nat
        /\ countEvents isBrowserOpened events = O).
Proof.
  intros Hretry. unfold performMobileSearches. cbv zeta.
  assert (Hone : forall returned : bool,
             exists r events,
               Some (returned, [SearchStarted retryCount]) = Some (r, events)
               /\ (countEvents isSearchStarted events <= S n)%nat
               /\ (countEvents isBrowserOpened events <= n)%nat
               /\ nested events
               /\ (maxRetries config <= retryCount \/ maxRetries config = 0 ->
                   (countEvents isSearchStarted events <= 1)%nat
                   /\ countEvents isBrowserOpened events = O)).
  { intros returned. do 2 eexists. split; [reflexivity|]. cbn.
    repeat split; try lia. apply nested_search. }
  assert (Hnone : forall returned : bool,
             exists r events,
               Some (returned, @nil MobileEvent) = Some (r, events)
               /\ (countEvents isSearchStarted events <= S n)%nat
               /\ (countEvents isBrowserOpened events <= n)%nat
               /\ nested events
               /\ (maxRetries config <= retryCount \/ maxRetries config = 0 ->
                   (countEvents isSearchStarted events <= 1)%nat
                   /\ countEvents isBrowserOpened events = O)).
  { intros returned. do 2 eexists. split; [reflexivity|]. cbn.
    repeat split; try lia. apply nested_nil. }
  destruct (hasMobileSearch (runs retryCount)); cbn [negb]; [|apply Hnone].
  destruct (workerPageOk (runs retryCount)); cbn [negb]; [|apply Hnone].
  destruct (workerHomeOk (runs retryCount)); cbn [negb]; [|apply Hnone].
  destruct (doSearchOk (runs retryCount)); cbn [negb]; [|apply Hone].
  destruct (finalFetchOk (runs retryCount)); cbn [negb]; [|apply Hone].
  destruct (finalMobileSearch (runs retryCount)) as [points|]; [|apply Hone].
  destruct (pointProgressMax points - pointProgress points >? 0);
    [|apply Hone].
  destruct (Z.eqb_spec (maxRetries config) 0) as [Hzero|Hnz]; [apply Hone|].
  destruct (Z.ltb_spec retryCount (maxRetries config)) as [Hlt|Hge];
    [|apply Hone].
  destruct (Hretry Hlt) as [returned [events [E [Hs [Ho Hn]]]]].
  rewrite E. do 2 eexists. split; [reflexivity|].
  split; [cbn; unfold countEvents in Hs; lia|].
  split; [cbn; unfold countEvents in Ho; lia|].
  split; [now apply nested_retry|].
  intros [Hle|Hz]; lia.
Qed.

Lemma Mobile_run (fuel : nat) :
  forall retryCount,
    (Z.to_nat (maxRetries config - retryCount) < fuel)%nat ->
    exists returned events,
      Mobile config runs fuel retryCount = Some (returned, events)
      /\ returned = mobileOwnStepsOk config (runs retryCount)
      /\ (countEvents isSearchStarted events
          <= S (Z.to_nat (maxRetries config - retryCount)))%nat
      /\ (countEvents isBrowserOpened events
          <= S (Z.to_nat (maxRetries config - retryCount)))%nat
      /\ nested events
      /\ (maxRetries config = 0 ->
          (countEvents isSearchStarted events <= 1)%nat
          /\ (countEvents isBrowserOpened events <= 1)%nat).
Proof.
  induction fuel as [|fuel IH]; intros retryCount Hfuel; [lia|].
  cbn [Mobile]. cbv zeta. unfold mobileOwnStepsOk.
  destruct (createBrowserOk (runs retryCount)); cbn [negb andb].
  2:{ do 2 eexists. split; [reflexivity|]. cbn.
      repeat split; try lia. apply nested_nil. }
  destruct (setupOk (runs retryCount)); cbn [negb andb].
  2:{ do 2 eexists. split; [reflexivity|]. cbn.
      repeat split; try lia.
      apply (nested_browser retryCount [] [BrowserClosed retryCount]);
        [apply nested_nil | now left]. }
  destruct (negb (runOnZeroPoints config)
            && (pointsCanCollect (runs retryCount) =? 0)).
  { destruct (closeBrowserOk (runs retryCount));
      do 2 eexists; (split; [reflexivity|]); cbn; repeat split; try lia.
    - apply (nested_browser retryCount [] [BrowserClosed retryCount]);
        [apply nested_nil | now left].
    - apply (nested_browser retryCount []
               [BrowserClosed retryCount; BrowserClosed retryCount]);
        [apply nested_nil | now right]. }
  assert (Hsearch : exists returned events,
             (if doMobileSearch config
              then performMobileSearches config runs
                     (Mobile config runs fuel) retryCount
              else Some (true, [])) = Some (returned, events)
             /\ (countEvents isSearchStarted events
                 <= S (Z.to_nat (maxRetries config - retryCount)))%nat
             /\ (countEvents isBrowserOpened events
                 <= Z.to_nat (maxRetries config - retryCount))%nat
             /\ nested events
             /\ (maxRetries config = 0 ->
                 (countEvents isSearchStarted events <= 1)%nat
                 /\ countEvents isBrowserOpened events = O)).
  { destruct (doMobileSearch config).
    - destruct (performMobileSearches_run (Mobile config runs fuel) retryCount
                  (Z.to_nat (maxRetries config - retryCount)))
        as [returned [events [E [Hs [Ho [Hn Hz]]]]]].
      + intros Hlt.
        destruct (IH (retryCount + 1)) as [r [evs [E [_ [Hs [Ho [Hn _]]]]]]];
          [lia|].
        exists r, evs. split; [exact E|].
        split; [lia|]. split; [lia | exact Hn].
      + exists returned, events. split; [exact E|]. split; [exact Hs|].
        split; [exact Ho|]. split; [exact Hn|]. intros H0. apply Hz. now right.
    - exists true, []. split; [reflexivity|]. cbn.
      repeat split; try lia. apply nested_nil. }
  destruct Hsearch as [r [events [E [Hs [Ho [Hn Hz]]]]]]. rewrite E.
  destruct (currentPointsOk (runs retryCount));
    [destruct (closeBrowserOk (runs retryCount))|];
    do 2 eexists; (split; [reflexivity|]); cbn [andb];
    (split; [reflexivity|]);
    change (BrowserOpened retryCount :: events ++ ?c)
      with ([BrowserOpened retryCount] ++ events ++ c);
    rewrite !countEvents_app; cbn;
    (split; [lia|]); (split; [lia|]);
    (split; [apply nested_browser; [exact Hn | tauto]|]);
    intros H0; destruct (Hz H0); lia.
Qed.

End MobileProperties.

(** X19: a call of [Mobile] returns or throws after at most
    [maxRetries + 1] invocations: it opens at most that many browsers and
    runs [doSearch] at most that often; this is at most 3 runs when
    [retryMobileSearchAmount] is not configured and at most 1 when it is
    0. *)
Theorem Mobile_attempts_bounded (config : MobileConfig)
    (runs : Z -> MobileRun) (fuel : nat) :
  (Z.to_nat (maxRetries config) < fuel)%nat ->
  exists returned events,
    Mobile config runs fuel 0 = Some (returned, events)
    /\ (countEvents isSearchStarted events
        <= S (Z.to_nat (maxRetries config)))%nat
    /\ (countEvents isBrowserOpened events
        <= S (Z.to_nat (maxRetries config)))%nat
    /\ (retryMobileSearchAmount config = None ->
        (countEvents isSearchStarted events <= 3)%nat)
    /\ (retryMobileSearchAmount config = Some 0 ->
        (countEvents isSearchStarted events <= 1)%nat).
Proof.
  intros Hfuel.
  destruct (Mobile_run config runs fuel 0) as [r [events [E [_ [Hs [Ho [_ Hz]]]]]]];
    [rewrite Z.sub_0_r; exact Hfuel|].
  rewrite Z.sub_0_r in Hs, Ho.
  exists r, events. split; [exact E|]. split; [exact Hs|]. split; [exact Ho|].
  split.
  - intros Hcfg. unfold maxRetries in Hs. rewrite Hcfg in Hs. cbn in Hs. lia.
  - intros Hcfg. apply Hz. unfold maxRetries. now rewrite Hcfg.
Qed.

Lemma Mobile_attempts_bounded_witness :
  (Z.to_nat (maxRetries (mkMobileConfig None true true)) < 5)%nat
  /\ option_map (fun r => countEvents isSearchStarted (snd r))
       (Mobile (mkMobileConfig None true true) (fun _ => mobileRunStuck) 5 0)
     = Some 3%nat
  /\ exists returned events,
       Mobile (mkMobileConfig None true true) (fun _ => mobileRunStuck) 5 0
       = Some (returned, events)
       /\ (countEvents isSearchStarted events
           <= S (Z.to_nat (maxRetries (mkMobileConfig None true true))))%nat.
Proof.
  assert (H : (Z.to_nat (maxRetries (mkMobileConfig None true true)) < 5)%nat)
    by (cbn; lia).
  split; [exact H|]. split; [reflexivity|].
  destruct (Mobile_attempts_bounded (mkMobileConfig None true true)
              (fun _ => mobileRunStuck) 5 H)
    as [returned [events [E [Hs _]]]].
  exists returned, events. split; [exact E | exact Hs].
Defined.

(** X20: whether a call of [Mobile] returns depends on its own steps only,
    not on the searches or on the retries it starts (their exceptions are
    logged); and in the events of a call all browsers are opened, and all
    searches made, before the first browser is closed: a retry opens its
    browser while those of the earlier invocations are still open, and
    every browser opened has its call of [closeBrowser]. *)
Theorem Mobile_keeps_browsers_open_during_retries (config : MobileConfig)
    (runs : Z -> MobileRun) (fuel : nat) :
  (Z.to_nat (maxRetries config) < fuel)%nat ->
  exists returned events,
    Mobile config runs fuel 0 = Some (returned, events)
    /\ returned = mobileOwnStepsOk config (runs 0)
    /\ exists opening closing,
         events = opening ++ closing
         /\ countEvents isBrowserClosed opening = O
         /\ countEvents isBrowserOpened closing = O
         /\ countEvents isSearchStarted closing = O
         /\ (countEvents isBrowserOpened opening
             <= countEvents isBrowserClosed closing)%nat.
Proof.
  intros Hfuel.
  destruct (Mobile_run config runs fuel 0) as [r [events [E [Hr [_ [_ [Hn _]]]]]]];
    [rewrite Z.sub_0_r; exact Hfuel|].
  exists r, events. split; [exact E|]. split; [exact Hr | exact Hn].
Qed.

Lemma Mobile_keeps_browsers_open_during_retries_witness :
  (Z.to_nat (maxRetries (mkMobileConfig None true true)) < 5)%nat
  /\ Mobile (mkMobileConfig None true true) (fun _ => mobileRunStuck) 5 0
     = Some (true,
             [BrowserOpened 0; SearchStarted 0; RetryWait;
              BrowserOpened 1; SearchStarted 1; RetryWait;
              BrowserOpened 2; SearchStarted 2;
              BrowserClosed 2; BrowserClosed 1; BrowserClosed 0])
  /\ exists returned events,
       Mobile (mkMobileConfig None true true) (fun _ => mobileRunStuck) 5 0
       = Some (returned, events)
       /\ returned
          = mobileOwnStepsOk (mkMobileConfig None true true) mobileRunStuck.
Proof.
  assert (H : (Z.to_nat (maxRetries (mkMobileConfig None true true)) < 5)%nat)
    by (cbn; lia).
  split; [exact H|]. split; [reflexivity|].
  destruct (Mobile_keeps_browsers_open_during_retries
              (mkMobileConfig None true true) (fun _ => mobileRunStuck) 5 H)
    as [returned [events [E [Hr _]]]].
  exists returned, events. split; [exact E | exact Hr].
Defined.

(** ** Sizes of the query generators *)

Section GeneratorSizes.

Variable shuffleArray : list string -> list string.
Hypothesis shuffle_permutes : forall xs, Permutation xs (shuffleArray xs).

(** A slice of a shuffle, whatever the size of the pool. *)
Lemma shuffled_slice_any (pool : list string) (count spread : Z) (rnd : Q) :
  (0 <= rnd)%Q -> (rnd < 1)%Q -> 0 <= count -> 1 <= spread ->
  let picked :=
    sliceTo (count + Qfloor (rnd * inject_Z spread)%Q) (shuffleArray pool) in
  (List.length picked <= Z.to_nat (count + spread - 1))%nat
  /\ (List.length picked <= List.length pool)%nat
  /\ (Z.to_nat count <= List.length pool ->
      Z.to_nat count <= List.length picked)%nat
  /\ (forall q, In q picked -> In q pool)
  /\ (NoDup pool -> NoDup picked).
Proof.
  intros H0 H1 Hc Hs picked. subst picked.
  pose proof (random_count count spread rnd H0 H1 Hs) as Hn.
  rewrite sliceTo_nonneg by lia.
  pose proof (Permutation_length (shuffle_permutes pool)) as Hl.
  rewrite length_firstn.
  split; [lia|]. split; [lia|]. split; [lia|]. split.
  - intros q Hq. apply In_firstn in Hq.
    eapply Permutation_in; [apply Permutation_sym, shuffle_permutes | exact Hq].
  - intros Hnd. apply NoDup_firstn.
    eapply Permutation_NoDup; [apply shuffle_permutes | exact Hnd].
Qed.

Lemma commonTopics_nodup : NoDup commonTopics.
Proof.
  unfold commonTopics.
  repeat (constructor;
          [cbn [In]; intros H;
           repeat (destruct H as [H|H]; [discriminate|]); exact H|]).
  constructor.
Qed.

Lemma randomTopics_nodup : NoDup randomTopics.
Proof.
  unfold randomTopics.
  repeat (constructor;
          [cbn [In]; intros H;
           repeat (destruct H as [H|H]; [discriminate|]); exact H|]).
  constructor.
Qed.

End GeneratorSizes.

(** X21: with a permuting shuffle and [Math.random()] in [[0,1)],
    [generateNewsQueries] returns 3 to 5 queries of its pool,
    [generateCommonQueries] 2 to 4 of the common topics and
    [generateRandomTopicQueries] 2 or 3 of the random topics; the last two
    never return a topic twice. *)
Theorem fallback_generators_sizes
    (shuffleArray : list string -> list string) (rnd : Q) (year : Z)
    (monthName : string) :
  (forall xs, Permutation xs (shuffleArray xs)) ->
  (0 <= rnd)%Q -> (rnd < 1)%Q ->
  let news := generateNewsQueries shuffleArray rnd year monthName in
  let common := generateCommonQueries shuffleArray rnd in
  let topics := generateRandomTopicQueries shuffleArray rnd in
  (3 <= List.length news <= 5)%nat
  /\ (2 <= List.length common <= 4)%nat
  /\ (2 <= List.length topics <= 3)%nat
  /\ (forall q, In q news -> In q (newsQueryPool year monthName))
  /\ (forall q, In q common -> In q commonTopics)
  /\ (forall q, In q topics -> In q randomTopics)
  /\ NoDup common /\ NoDup topics.
Proof.
  intros Hperm H0 H1 news common topics. subst news common topics.
  unfold generateNewsQueries, generateCommonQueries,
    generateRandomTopicQueries. cbv zeta.
  destruct (shuffled_slice_any shuffleArray Hperm
              (newsQueryPool year monthName) 3 3 rnd H0 H1)
    as [Hn1 [_ [Hn2 [Hn3 _]]]]; [lia | lia |].
  destruct (shuffled_slice_any shuffleArray Hperm commonTopics 2 3 rnd H0 H1)
    as [Hc1 [_ [Hc2 [Hc3 Hc4]]]]; [lia | lia |].
  destruct (shuffled_slice_any shuffleArray Hperm randomTopics 2 2 rnd H0 H1)
    as [Ht1 [_ [Ht2 [Ht3 Ht4]]]]; [lia | lia |].
  change (inject_Z 3) with 3%Q in *. change (inject_Z 2) with 2%Q in *.
  cbn [List.length newsQueryPool commonTopics randomTopics] in Hn2, Hc2, Ht2.
  split; [lia|]. split; [lia|]. split; [lia|].
  split; [exact Hn3|]. split; [exact Hc3|]. split; [exact Ht3|].
  split; [apply Hc4, commonTopics_nodup | apply Ht4, randomTopics_nodup].
Qed.

Lemma fallback_generators_sizes_witness :
  (0 <= 9 # 10)%Q /\ (9 # 10 < 1)%Q
  /\ generateCommonQueries (fun xs => xs) (9 # 10)
     = ["how to cook pasta"; "best movies 2024"; "healthy recipes";
        "travel destinations"]
  /\ (3 <= List.length (generateNewsQueries (fun xs => xs) (9 # 10) 2025 "July")
      <= 5)%nat.
Proof.
  assert (Hp : forall xs : list string, Permutation xs ((fun ys => ys) xs))
    by (intros xs; apply Permutation_refl).
  assert (H0 : (0 <= 9 # 10)%Q) by (unfold Qle; cbn; lia).
  assert (H1 : (9 # 10 < 1)%Q) by (unfold Qlt; cbn; lia).
  split; [exact H0|]. split; [exact H1|]. split; [reflexivity|].
  exact (proj1 (fallback_generators_sizes (fun xs => xs) (9 # 10) 2025 "July"
                  Hp H0 H1)).
Defined.

(** X22: with a permuting shuffle and [Math.random()] in [[0,1)],
    [generateLocalizedCommonQueries] returns at most 5 queries, all from
    the common and food categories of the language (none when both are
    missing, at least 3 when they hold 3 between them);
    [generateLocalizedTechEntertainmentQueries] returns at most 6, all from
    the tech, entertainment and sports categories, and at least 3 when
    none of the three is empty; [generateLocalizedNewsQueries] returns at
    most 6, and exactly its 4 Japanese stand-ins when the time-based
    queries cannot be had. *)
Theorem localized_generators_sizes
    (shuffleArray : list string -> list string)
    (rnd rndTech rndShows rndSports : Q) (year : Z)
    (timeBased : option (list string)) (languageConfig : LanguageConfig) :
  (forall xs, Permutation xs (shuffleArray xs)) ->
  (0 <= rnd)%Q /\ (rnd < 1)%Q ->
  (0 <= rndTech)%Q /\ (rndTech < 1)%Q ->
  (0 <= rndShows)%Q /\ (rndShows < 1)%Q ->
  (0 <= rndSports)%Q /\ (rndSports < 1)%Q ->
  let queries := searchQueries languageConfig in
  let common := generateLocalizedCommonQueries shuffleArray rnd languageConfig in
  let mixed :=
    generateLocalizedTechEntertainmentQueries shuffleArray
      rndTech rndShows rndSports languageConfig in
  let news :=
    generateLocalizedNewsQueries shuffleArray rnd year timeBased languageConfig in
  (List.length common <= 5)%nat
  /\ (forall q, In q common ->
        In q (orEmpty (sq_common queries)) \/ In q (orEmpty (sq_food queries)))
  /\ (List.length mixed <= 6)%nat
  /\ (forall q, In q mixed ->
        In q (orEmpty (sq_tech queries))
        \/ In q (orEmpty (sq_entertainment queries))
        \/ In q (orEmpty (sq_sports queries)))
  /\ (List.length news <= 6)%nat
  /\ (timeBased = None -> List.length news = 4%nat)
  /\ (sq_common queries = None -> sq_food queries = None -> common = [])
  /\ ((3 <= List.length (orEmpty (sq_common queries)
                         ++ orEmpty (sq_food queries)))%nat ->
      (3 <= List.length common)%nat)
  /\ ((1 <= List.length (orEmpty (sq_tech queries)))%nat ->
      (1 <= List.length (orEmpty (sq_entertainment queries)))%nat ->
      (1 <= List.length (orEmpty (sq_sports queries)))%nat ->
      (3 <= List.length mixed)%nat).
Proof.
  intros Hperm [Hr0 Hr1] [Ht0 Ht1] [He0 He1] [Hs0 Hs1]
    queries common mixed news.
  subst queries common mixed news.
  unfold generateLocalizedCommonQueries,
    generateLocalizedTechEntertainmentQueries, generateLocalizedNewsQueries.
  cbv zeta.
  generalize (searchQueries languageConfig). intros sq.
  destruct (shuffled_slice_any shuffleArray Hperm
              (orEmpty (sq_common sq) ++ orEmpty (sq_food sq)) 3 3 rnd Hr0 Hr1)
    as [Hc1 [Hc2 [Hc3 [Hc4 _]]]]; [lia | lia |].
  destruct (shuffled_slice_any shuffleArray Hperm (orEmpty (sq_tech sq))
              1 2 rndTech Ht0 Ht1)
    as [Ht1' [Ht2 [Ht3 [Ht4 _]]]]; [lia | lia |].
  destruct (shuffled_slice_any shuffleArray Hperm
              (orEmpty (sq_entertainment sq)) 1 2 rndShows He0 He1)
    as [He1' [He2 [He3 [He4 _]]]]; [lia | lia |].
  destruct (shuffled_slice_any shuffleArray Hperm (orEmpty (sq_sports sq))
              1 2 rndSports Hs0 Hs1)
    as [Hs1' [Hs2 [Hs3 [Hs4 _]]]]; [lia | lia |].
  change (inject_Z 3) with 3%Q in *. change (inject_Z 2) with 2%Q in *.
  change (Z.to_nat (3 + 3 - 1)) with 5%nat in *.
  change (Z.to_nat (1 + 2 - 1)) with 2%nat in *.
  change (Z.to_nat 3) with 3%nat in *. change (Z.to_nat 1) with 1%nat in *.
  split; [exact Hc1|]. split.
  { intros q Hq. apply in_app_or. now apply Hc4. }
  split.
  { rewrite !length_app.
    exact (Nat.add_le_mono _ _ _ _ Ht1'
             (Nat.add_le_mono _ _ _ _ He1' Hs1')). }
  split.
  { intros q Hq. apply in_app_or in Hq. destruct Hq as [Hq|Hq];
      [left; now apply Ht4|].
    apply in_app_or in Hq. destruct Hq as [Hq|Hq];
      [right; left; now apply He4 | right; right; now apply Hs4]. }
  split.
  { destruct timeBased as [timeBasedQueries|]; [|cbn; lia].
    destruct (shuffled_slice_any shuffleArray Hperm
                (timeBasedQueries ++ orEmpty (sq_news sq)) 4 3 rnd Hr0 Hr1)
      as [Hn1 _]; [lia | lia |].
    change (inject_Z 3) with 3%Q in *.
    change (Z.to_nat (4 + 3 - 1)) with 6%nat in *. exact Hn1. }
  split; [intros ->; reflexivity|]. split.
  { intros E1 E2. rewrite E1, E2 in Hc2 |- *.
    cbn [orEmpty app List.length] in Hc2 |- *.
    apply length_zero_iff_nil. apply Nat.le_0_r. exact Hc2. }
  split; [exact Hc3|].
  intros H1 H2 H3. rewrite !length_app.
  exact (Nat.add_le_mono _ _ _ _ (Ht3 H1)
           (Nat.add_le_mono _ _ _ _ (He3 H2) (Hs3 H3))).
Qed.

Lemma localized_generators_sizes_witness :
  ((0 <= 1 # 2)%Q /\ (1 # 2 < 1)%Q)
  /\ generateLocalizedCommonQueries (fun xs => xs) (1 # 2)
       fallbackLanguageConfig
     = ["料理の作り方"; "おすすめレシピ"; "旅行先"; "レストランレビュー"]
  /\ generateLocalizedTechEntertainmentQueries (fun xs => xs)
       (1 # 2) (1 # 2) (1 # 2) fallbackLanguageConfig
     = ["人工知能"; "最新技術"; "新作映画"; "テレビ番組"; "サッカー結果";
        "バスケットボールニュース"]
  /\ (List.length (generateLocalizedCommonQueries (fun xs => xs) (1 # 2)
                     fallbackLanguageConfig) <= 5)%nat.
Proof.
  assert (Hp : forall xs : list string, Permutation xs ((fun ys => ys) xs))
    by (intros xs; apply Permutation_refl).
  assert (Hr : (0 <= 1 # 2)%Q /\ (1 # 2 < 1)%Q)
    by (split; [unfold Qle | unfold Qlt]; cbn; lia).
  split; [exact Hr|]. split; [reflexivity|]. split; [reflexivity|].
  exact (proj1 (localized_generators_sizes (fun xs => xs)
                  (1 # 2) (1 # 2) (1 # 2) (1 # 2) 2025 None
                  fallbackLanguageConfig Hp Hr Hr Hr Hr)).
Defined.

(** ** A desktop account whose points never move *)

Section DesktopStuck.

Variable env : Env.
Variable c : Counters.

Hypothesis Hdesktop : bot_isMobile env = false.
Hypothesis Hconst : forall k, env_points env k = Some c.
Hypothesis Hnz : calculatePoints false c <> 0.

Local Opaque getSmartSearchDelay Qfloor calculatePoints.

Lemma bingSearch_stuck (query : string) (w : State) :
  exists w',
    bingSearch env query w = (Ok c, w')
    /\ searchCount (trace w') = S (searchCount (trace w)).
Proof.
  destruct (bingSearch_one_search env query w) as [c0 [w' [E Hs]]].
  exists w'. split; [|exact Hs]. rewrite E. f_equal. f_equal.
  unfold bingSearch in E. unfold bind at 1 in E. cbn [dateNow] in E.
  unfold bind at 1 in E. cbn [emit] in E.
  match type of E with
  | bingSearchLoop env 5 0 ?w1 = _ =>
      destruct (bingSearchLoop_reads env 5 0 w1) as [c1 [w2 [E1 [_ Hv]]]];
      rewrite E1 in E
  end.
  injection E as <- <-. rewrite Hconst in Hv. exact Hv.
Qed.

Ltac stuckBody :=
  unfold afterAttempt, stallUpdate, forceCheck, stallAbort, getSearchPoints,
    tryCatch, bind, ret, throw, emit, tick, wait, getPacing.

Ltac stuckTests :=
  repeat (cbn [fst snd now pacing calls trace missingPoints maxLoop
               earnedPoints completedSearches lastSuccessfulQuery
               contextSearchCount setMissingPoints setMaxLoop setEarnedPoints
               setLastSuccessfulQuery negb andb Op_eqb];
          rewrite ?Hconst, ?Z.eqb_refl;
          match goal with
          | |- context [if ?b then _ else _] => destruct b eqn:?
          end).

Ltac stuckArith :=
  repeat match goal with
  | H : (_ =? _) = true |- _ => apply Z.eqb_eq in H
  | H : (_ =? _) = false |- _ => apply Z.eqb_neq in H
  | H : (_ >? _) = true |- _ => rewrite Z.gtb_ltb in H; apply Z.ltb_lt in H
  | H : (_ >? _) = false |- _ => rewrite Z.gtb_ltb in H; apply Z.ltb_ge in H
  | H : (_ <? _) = true |- _ => apply Z.ltb_lt in H
  | H : (_ <? _) = false |- _ => apply Z.ltb_ge in H
  | H : negb _ = true |- _ => apply negb_true_iff in H
  | H : negb _ = false |- _ => apply negb_false_iff in H
  | H : (_ && _) = true |- _ => apply andb_true_iff in H; destruct H
  end.

(** One attempt that changes nothing: the loop goes on with the stall
    counter raised, or is left. *)
Lemma afterAttempt_stuck (query : string) (L : Locals) (w : State) :
  missingPoints L = calculatePoints false c -> 0 <= maxLoop L ->
  exists ctl L' w',
    afterAttempt env query c L w = (Ok (ctl, L'), w')
    /\ missingPoints L' = missingPoints L
    /\ lastSuccessfulQuery L' = lastSuccessfulQuery L
    /\ ((ctl = Continue /\ maxLoop L' = maxLoop L + 1 /\ maxLoop L < 15)
        \/ (ctl = Break /\ maxLoop L' = 0)).
Proof.
  intros Hsame Hm.
  assert (Hnz' : missingPoints L <> 0) by (rewrite Hsame; exact Hnz).
  stuckBody. rewrite Hdesktop. rewrite <- Hsame. rewrite Z.sub_diag.
  cbn [Z.gtb Z.compare].
  stuckTests; stuckArith; try lia; try discriminate;
    do 3 eexists; (split; [reflexivity|]);
    cbn [missingPoints maxLoop lastSuccessfulQuery setMaxLoop
         setMissingPoints];
    (split; [reflexivity|]); (split; [reflexivity|]);
    first [ left; split; [reflexivity|]; split; [reflexivity|]; lia
          | right; split; reflexivity ].
Qed.

Lemma searchIteration_stuck (start : Z) (planned : string) (L : Locals)
    (w : State) :
  missingPoints L = calculatePoints false c -> 0 <= maxLoop L ->
  lastSuccessfulQuery L = None ->
  exists ctl L' w',
    searchIteration env start planned L w = (Ok (ctl, L'), w')
    /\ missingPoints L' = missingPoints L
    /\ lastSuccessfulQuery L' = None
    /\ 0 <= maxLoop L'
    /\ ((ctl = Continue /\ maxLoop L' = maxLoop L + 1 /\ maxLoop L < 15
         /\ searchCount (trace w') = S (searchCount (trace w)))
        \/ (ctl = Break
            /\ (searchCount (trace w') <= S (searchCount (trace w)))%nat)).
Proof.
  intros Hsame Hm Hlast. unfold searchIteration.
  unfold bind at 1. cbn [dateNow].
  destruct (now w - start >? searchTimeoutMs).
  - exists Break, L, (snd (emit EvTimeout w)).
    split; [reflexivity|]. split; [reflexivity|]. split; [exact Hlast|].
    split; [exact Hm|]. right. split; [reflexivity|].
    unfold searchCount. cbn. lia.
  - unfold bind at 1. unfold pickQuery. unfold bind at 1. cbn [tick].
    rewrite Hlast. cbn [truthy andb]. rewrite andb_false_r. cbn [andb ret].
    cbv zeta. unfold bind at 1.
    match goal with
    | |- context [bingSearch env planned ?w0] =>
        destruct (bingSearch_stuck planned w0) as [w1 [E Hs]]; rewrite E
    end.
    change (searchCount (trace _)) with (searchCount (trace w)) in Hs at 2.
    match goal with
    | |- context [afterAttempt env planned c ?L0 w1] =>
        destruct (afterAttempt_stuck planned L0 w1)
          as [ctl [L' [w' [Ea [Hmiss [Hl Hctl]]]]]];
        [exact Hsame | exact Hm |];
        pose proof (keepsSearches_afterAttempt env planned c L0 w1) as Hk
    end.
    rewrite Ea in Hk |- *. cbn [snd] in Hk.
    cbn [missingPoints lastSuccessfulQuery maxLoop setCompletedSearches
         setContextSearchCount] in Hmiss, Hl, Hctl.
    exists ctl, L', w'. split; [reflexivity|]. split; [exact Hmiss|].
    split; [now rewrite Hl|].
    destruct Hctl as [[-> [Hml Hlt]]|[-> Hml]].
    + split; [lia|]. left. split; [reflexivity|]. split; [exact Hml|].
      split; [exact Hlt|]. rewrite Hk. exact Hs.
    + split; [lia|]. right. split; [reflexivity|]. rewrite Hk, Hs. lia.
Qed.

Lemma searchLoop_stuck (start : Z) (queries : list string) :
  forall (L : Locals) (w : State),
    missingPoints L = calculatePoints false c -> 0 <= maxLoop L <= 15 ->
    lastSuccessfulQuery L = None ->
    exists L' w',
      searchLoop env start queries L w = (Ok L', w')
      /\ missingPoints L' = missingPoints L
      /\ 0 <= maxLoop L'
      /\ (searchCount (trace w')
          <= searchCount (trace w) + Z.to_nat (16 - maxLoop L))%nat
      /\ (searchCount (trace w')
          <= searchCount (trace w) + List.length queries)%nat.
Proof.
  induction queries as [|planned rest IH]; intros L w Hsame Hm Hlast;
    cbn [searchLoop List.length].
  - exists L, w. split; [reflexivity|]. split; [reflexivity|].
    split; [lia|]. split; lia.
  - unfold bind at 1.
    destruct (searchIteration_stuck start planned L w Hsame ltac:(lia) Hlast)
      as [ctl [L1 [w1 [E [Hmiss [Hl [H0 Hctl]]]]]]].
    rewrite E.
    destruct Hctl as [[-> [Hml [Hlt Hs]]]|[-> Hs]].
    + destruct (IH L1 w1) as [L' [w' [E' [Hmiss' [H0' [Hb Hq]]]]]];
        [now rewrite Hmiss | lia | exact Hl |].
      exists L', w'. split; [exact E'|]. split; [now rewrite Hmiss'|].
      split; [exact H0'|]. split; lia.
    + exists L1, w1. split; [reflexivity|]. split; [exact Hmiss|].
      split; [exact H0|]. split; lia.
Qed.

Lemma extraTerms_stuck (terms : list string) :
  forall (L : Locals) (count : Z) (w : State),
    missingPoints L = calculatePoints false c -> 0 <= maxLoop L ->
    exists ctl L' count' w',
      extraTerms env terms L count w = (Ok (ctl, (L', count')), w')
      /\ missingPoints L' = missingPoints L
      /\ count <= count'
      /\ searchCount (trace w')
         = (searchCount (trace w) + Z.to_nat (count' - count))%nat
      /\ maxLoop L' = maxLoop L + (count' - count)
      /\ (ctl = Return -> count' - count <= Z.max 1 (6 - maxLoop L))
      /\ (ctl <> Return -> count' = count \/ maxLoop L' <= 5).
Proof.
  induction terms as [|term rest IH]; intros L count w Hsame Hm.
  - exists Continue, L, count, w. rewrite Z.sub_diag. cbn.
    repeat split; try lia; try discriminate; try (intros _; now left).
  - cbn [extraTerms].
    destruct (count >=? maxExtraSearches env).
    + exists Break, L, count, w. rewrite Z.sub_diag. cbn.
      repeat split; try lia; try discriminate; try (intros _; now left).
    + unfold bind at 1.
      destruct (bingSearch_stuck term w) as [w1 [E Hs]]. rewrite E.
      cbv zeta. rewrite Hdesktop, <- Hsame, Z.eqb_refl.
      cbn [missingPoints maxLoop setMissingPoints setMaxLoop].
      destruct (Z.eqb_spec (missingPoints L) 0) as [H0|_];
        [rewrite Hsame in H0; contradiction|].
      destruct (Z.gtb_spec (maxLoop L + 1) 5) as [Hgt|Hle].
      * do 4 eexists. split; [reflexivity|].
        cbn [missingPoints maxLoop].
        replace (count + 1 - count) with 1 by lia.
        repeat split; try lia. intros Hc. now destruct Hc.
      * destruct (IH (setMissingPoints (setMaxLoop L (maxLoop L + 1))
                        (missingPoints L)) (count + 1) w1)
          as [ctl [L' [count' [w' [E' [H1 [H2 [H3 [H4 [H5 H6]]]]]]]]]];
          [exact Hsame | cbn; lia |].
        cbn [missingPoints maxLoop setMissingPoints setMaxLoop] in *.
        exists ctl, L', count', w'. split; [exact E'|].
        split; [exact H1|]. split; [lia|]. split; [rewrite H3, Hs; lia|].
        split; [lia|]. split.
        -- intros Hr. specialize (H5 Hr). lia.
        -- intros Hr. right. destruct (H6 Hr) as [->|Hb]; lia.
Qed.

Lemma extraIteration_stuck (x : Extra) (w : State) :
  missingPoints (extraLocals x) = calculatePoints false c ->
  0 <= maxLoop (extraLocals x) ->
  match extraIteration env x w with
  | (Ok (ctl, x'), w') =>
      missingPoints (extraLocals x') = missingPoints (extraLocals x)
      /\ extraSearchCount x <= extraSearchCount x'
      /\ searchCount (trace w')
         = (searchCount (trace w)
            + Z.to_nat (extraSearchCount x' - extraSearchCount x))%nat
      /\ maxLoop (extraLocals x')
         = maxLoop (extraLocals x) + (extraSearchCount x' - extraSearchCount x)
      /\ (ctl = Return ->
          extraSearchCount x' - extraSearchCount x
          <= Z.max 1 (6 - maxLoop (extraLocals x)))
      /\ (ctl <> Return ->
          extraSearchCount x' = extraSearchCount x
          \/ maxLoop (extraLocals x') <= 5)
  | (Throw _, w') => searchCount (trace w') = searchCount (trace w)
  | (OutOfFuel, _) => False
  end.
Proof.
  intros Hsame Hm. unfold extraIteration.
  unfold bind at 1.
  set (first := if (List.length (extraQueries x) <=? extraIndex x)%nat
                then _ else _).
  assert (Hfirst : exists all w1, first w = (Ok all, w1)
                                  /\ searchCount (trace w1) = searchCount (trace w)).
  { subst first. destruct (List.length (extraQueries x) <=? extraIndex x)%nat.
    - do 2 eexists. split; reflexivity.
    - do 2 eexists. split; reflexivity. }
  destruct Hfirst as [all [w1 [E1 Hs1]]]. rewrite E1.
  destruct (nth_error all (extraIndex x)) as [query|]; [|exact Hs1].
  unfold bind at 1. cbn [tick].
  set (w2 := mkState _ _ _ _).
  assert (Hs2 : searchCount (trace w2) = searchCount (trace w))
    by (subst w2; cbn [trace]; exact Hs1).
  cbv zeta. unfold bind at 1.
  match goal with
  | |- context [(3 <? List.length ?r)%nat] =>
      destruct (3 <? List.length r)%nat
  end.
  - match goal with
    | |- context [extraTerms env ?ts (extraLocals x) (extraSearchCount x) w2] =>
        destruct (extraTerms_stuck ts (extraLocals x) (extraSearchCount x) w2
                    Hsame Hm)
          as [ctl [L' [count' [w' [E [H1 [H2 [H3 [H4 [H5 H6]]]]]]]]]]
    end.
    rewrite E.
    assert (H0 : (missingPoints L' =? 0) = false).
    { apply Z.eqb_neq. rewrite H1, Hsame. exact Hnz. }
    destruct ctl; rewrite ?H0; cbn [ret extraLocals extraSearchCount];
      rewrite <- ?Hs2;
      (split; [exact H1|]); (split; [exact H2|]); (split; [exact H3|]);
      (split; [exact H4|]); split;
      try discriminate; try (intros _; apply H6; discriminate);
      try exact H5; try (intros Hc; now destruct Hc).
  - cbn [ret].
    assert (H0 : (missingPoints (extraLocals x) =? 0) = false).
    { apply Z.eqb_neq. rewrite Hsame. exact Hnz. }
    rewrite H0. cbn [ret extraLocals extraSearchCount].
    rewrite Z.sub_diag, Hs2. cbn [Z.to_nat].
    repeat split; try lia; try discriminate; try (intros _; now left).
Qed.

Lemma extraLoop_stuck (fuel : nat) :
  forall (x : Extra) (w : State),
    missingPoints (extraLocals x) = calculatePoints false c ->
    0 <= maxLoop (extraLocals x) ->
    (searchCount (trace (snd (extraLoop env fuel x w)))
     <= searchCount (trace w)
        + Z.to_nat (Z.max 1 (6 - maxLoop (extraLocals x))))%nat.
Proof.
  induction fuel as [|fuel IH]; intros x w Hsame Hm; cbn [extraLoop];
    [cbn; lia|].
  destruct ((missingPoints (extraLocals x) >? 0)
            && (extraSearchCount x <? maxExtraSearches env)); [|cbn; lia].
  unfold bind at 1. pose proof (extraIteration_stuck x w Hsame Hm) as Hrun.
  destruct (extraIteration env x w) as [[[ctl x']|e|] w'];
    [|cbn; lia|contradiction].
  destruct Hrun as [H1 [H2 [H3 [H4 [H5 H6]]]]].
  destruct ctl; cbn [ret snd].
  - specialize (IH x' w' ltac:(now rewrite H1) ltac:(lia)).
    destruct (H6 ltac:(discriminate)) as [Hk|Hk]; lia.
  - destruct (H6 ltac:(discriminate)) as [Hk|Hk]; lia.
  - specialize (H5 eq_refl). lia.
Qed.

Lemma extraSearches_stuck (fuel : nat) (allSearchQueries : list SearchItem)
    (L : Locals) (w : State) :
  missingPoints L = calculatePoints false c -> 0 <= maxLoop L ->
  (searchCount (trace (snd (extraSearches env fuel allSearchQueries L w)))
   <= searchCount (trace w) + 6)%nat.
Proof.
  intros Hsame Hm. unfold extraSearches.
  destruct (missingPoints L >? 0); [|cbn; lia].
  unfold bind at 1.
  pose proof (extraLoop_stuck fuel (mkExtra L 0 O allSearchQueries) w
                Hsame Hm) as Hloop.
  cbn [extraLocals] in Hloop.
  destruct (extraLoop env fuel (mkExtra L 0 O allSearchQueries) w)
    as [[[ctl x]|e|] w1]; cbn [snd] in *; try lia.
  destruct ctl; cbn [ret snd]; try lia;
    (destruct ((missingPoints (extraLocals x) >? 0)
               && negb (bot_isMobile env)); [|cbn; lia];
     unfold bind at 1;
     pose proof (keepsSearches_getSearchPoints env SiteIncomplete w1) as Hk;
     destruct (getSearchPoints env SiteIncomplete w1) as [[a|e|] w2];
     cbn [ret snd] in *; lia).
Qed.

End DesktopStuck.

(** X23: a desktop account whose progress counters never move (every fetch
    answers the same counters, with a deficit that is not 0) costs at most
    22 searches per run of [doSearch], whatever else the environment does:
    the main loop is left after at most 16 attempts without a gain, and
    the extra-search phase after at most 6. *)
Theorem doSearch_desktop_stuck_budget (env : Env) (c : Counters)
    (fuel : nat) (w : State) :
  bot_isMobile env = false ->
  (forall k, env_points env k = Some c) ->
  calculatePoints false c <> 0 ->
  (searchCount (trace (snd (doSearch env fuel w)))
   <= searchCount (trace w) + 22)%nat.
Proof.
  intros Hdesktop Hconst Hnz. unfold doSearch.
  unfold bind at 1.
  pose proof (keepsSearches_getLatestTab (env_entryTabOk env) w) as Htab.
  destruct (getLatestTab (env_entryTabOk env) w) as [[[]|e|] w1];
    cbn [snd] in Htab; [|cbn; lia|cbn; lia].
  unfold bind at 1.
  pose proof (keepsSearches_getSearchPoints env SiteInitial w1) as Hfetch.
  assert (Hc : fst (getSearchPoints env SiteInitial w1) = Ok c).
  { unfold getSearchPoints, bind, tick, emit. cbn. now rewrite Hconst. }
  destruct (getSearchPoints env SiteInitial w1) as [[c0|e|] w2];
    cbn [fst snd] in Hc, Hfetch; try discriminate.
  injection Hc as ->. cbv zeta. rewrite Hdesktop.
  destruct (Z.eqb_spec (calculatePoints false c) 0) as [|_]; [contradiction|].
  unfold bind at 1.
  destruct (env_plan env) as [generated|]; [|cbn; lia].
  cbn [ret]. unfold bind at 1.
  destruct (env_gotoOk env); [|cbn; lia].
  cbn [ret]. unfold bind at 1. cbn [wait]. unfold bind at 1. cbn [dateNow].
  unfold bind at 1.
  match goal with
  | |- context [searchLoop env ?start ?qs ?L0 ?w3] =>
      destruct (searchLoop_stuck env c Hdesktop Hconst Hnz start qs L0 w3)
        as [L [w4 [E [Hmiss [H0 [H16 _]]]]]];
      [reflexivity | cbn; lia | reflexivity |];
      rewrite E;
      assert (Hs3 : searchCount (trace w3) = searchCount (trace w))
        by (unfold searchCount in *; cbn [trace filter isSearch]; lia)
  end.
  cbn [maxLoop initialLocals] in H16.
  unfold bind at 1.
  pose proof (extraSearches_stuck env c Hdesktop Hconst Hnz fuel
                (dedupe (env_shuffle env generated)) L w4
                ltac:(rewrite Hmiss; reflexivity) H0) as Hextra.
  destruct (extraSearches env fuel (dedupe (env_shuffle env generated)) L w4)
    as [[L'|e|] w5]; cbn [snd ret] in *; lia.
Qed.

Lemma doSearch_desktop_stuck_budget_witness :
  bot_isMobile envQuiet = false
  /\ (forall k, env_points envQuiet k = Some desktopInProgress)
  /\ calculatePoints false desktopInProgress <> 0
  /\ (searchCount (trace (snd (doSearch envQuiet 60 initialState)))
      <= searchCount (trace initialState) + 22)%nat.
Proof.
  assert (Hd : bot_isMobile envQuiet = false) by reflexivity.
  assert (Hc : forall k, env_points envQuiet k = Some desktopInProgress)
    by (intros k; reflexivity).
  assert (Hn : calculatePoints false desktopInProgress <> 0)
    by (cbn; lia).
  split; [exact Hd|]. split; [exact Hc|]. split; [exact Hn|].
  exact (doSearch_desktop_stuck_budget envQuiet desktopInProgress 60
           initialState Hd Hc Hn).
Defined.

(** ** Runs that return *)

Section Returns.

Variable env : Env.

#[local] Hint Resolve noThrow_emit noDiverge_emit noThrow_tick noDiverge_tick
  noThrow_dateNow noDiverge_dateNow noThrow_advance noDiverge_advance
  noThrow_wait noDiverge_wait noThrow_getPacing noDiverge_getPacing
  noThrow_modifyPacing noDiverge_modifyPacing noDiverge_getSearchPoints
  noDiverge_getEmptySearchCounters noDiverge_bingSearch : effects.

Lemma noDiverge_pickQuery planned L : noDiverge (pickQuery env planned L).
Proof. unfold pickQuery. effects. Qed.

Lemma noDiverge_forceCheck L : noDiverge (forceCheck env L).
Proof. unfold forceCheck. effects. Qed.

#[local] Hint Resolve noDiverge_pickQuery noDiverge_forceCheck : effects.

Lemma noDiverge_stallUpdate query newMissingPoints L :
  noDiverge (stallUpdate env query newMissingPoints L).
Proof. unfold stallUpdate. effects. Qed.

Lemma noDiverge_stallAbort L : noDiverge (stallAbort env L).
Proof. unfold stallAbort. effects. Qed.

#[local] Hint Resolve noDiverge_stallUpdate noDiverge_stallAbort : effects.

Lemma noDiverge_afterAttempt query searchCounters L :
  noDiverge (afterAttempt env query searchCounters L).
Proof. unfold afterAttempt. effects. Qed.

#[local] Hint Resolve noDiverge_afterAttempt : effects.

Lemma noDiverge_searchIteration start planned L :
  noDiverge (searchIteration env start planned L).
Proof. unfold searchIteration. effects. Qed.

#[local] Hint Resolve noDiverge_searchIteration : effects.

Lemma noDiverge_searchLoop start queries L :
  noDiverge (searchLoop env start queries L).
Proof.
  revert L. induction queries as [|planned rest IH]; intros L;
    cbn [searchLoop]; effects.
Qed.

Lemma noDiverge_getLatestTab ok : noDiverge (getLatestTab ok).
Proof. unfold getLatestTab. effects. Qed.

Lemma noDiverge_extraSearches fuel allSearchQueries L :
  relatedAlways env -> (Z.to_nat (maxExtraSearches env) < fuel)%nat ->
  noDiverge (extraSearches env fuel allSearchQueries L).
Proof.
  intros Hrel Hfuel. unfold extraSearches.
  destruct (missingPoints L >? 0); [|effects].
  apply noDiverge_bind.
  - intros w. apply extraLoop_terminates; [exact Hrel | cbn; lia|].
    cbn [extraSearchCount]. rewrite Z.sub_0_r. exact Hfuel.
  - effects.
Qed.

Lemma noDiverge_doSearch fuel :
  relatedAlways env -> (Z.to_nat (maxExtraSearches env) < fuel)%nat ->
  noDiverge (doSearch env fuel).
Proof.
  intros Hrel Hfuel.
  pose proof noDiverge_searchLoop as Hloop.
  pose proof (fun qs L => noDiverge_extraSearches fuel qs L Hrel Hfuel)
    as Hextra.
  pose proof noDiverge_getLatestTab as Htab.
  unfold doSearch. effects.
Qed.

End Returns.

(** X24: when the tab lookup at entry, every progress fetch, the query
    planning and the first navigation succeed, every related-terms lookup
    yields more than three terms and the supplementary batches are those
    of [generateAdditionalQueries], [doSearch] returns: it neither throws
    nor loops for ever; 21 passes of the extra-search loop on mobile and
    51 on desktop are always enough. *)
Theorem doSearch_returns (env : Env) (fuel : nat) (w : State)
    (date : nat -> Z * Z * Z) (rnd : nat -> nat -> Q) :
  env_entryTabOk env = true -> pointsAlways env ->
  env_plan env <> None -> env_gotoOk env = true ->
  relatedAlways env ->
  (forall k, env_additional env k
             = map PlainQuery
                 (generateAdditionalQueries (fst (fst (date k)))
                    (snd (fst (date k))) (snd (date k)) (rnd k))) ->
  ((if bot_isMobile env then 20 else 50) < fuel)%nat ->
  exists out w', doSearch env fuel w = (Ok out, w').
Proof.
  intros Htab Hpoints Hplan Hgoto Hrel Hadd Hfuel.
  assert (Hne : additionalNonEmpty env).
  { intros k. rewrite Hadd. intros E.
    apply (f_equal (@List.length SearchItem)) in E.
    rewrite length_map, generateAdditionalQueries_length in E.
    discriminate E. }
  assert (Hf : (Z.to_nat (maxExtraSearches env) < fuel)%nat).
  { unfold maxExtraSearches. destruct (bot_isMobile env); cbn; lia. }
  apply total_of_safe.
  - now apply noThrow_doSearch.
  - now apply noDiverge_doSearch.
Qed.

Lemma doSearch_returns_witness :
  env_entryTabOk envAdditional = true
  /\ pointsAlways envAdditional
  /\ relatedAlways envAdditional
  /\ exists out w', doSearch envAdditional 51 initialState = (Ok out, w').
Proof.
  assert (Hpoints : pointsAlways envAdditional) by (intros k; discriminate).
  assert (Hrel : relatedAlways envAdditional) by (intros k t; cbn; lia).
  split; [reflexivity|]. split; [exact Hpoints|]. split; [exact Hrel|].
  apply (doSearch_returns envAdditional 51 initialState
           (fun _ => (2025, 7, 14)) (fun _ _ => (1 # 2)%Q)).
  - reflexivity.
  - exact Hpoints.
  - discriminate.
  - reflexivity.
  - exact Hrel.
  - intros k. reflexivity.
  - cbn. lia.
Defined.

